(** * Frame ingestion and stereo-render orchestration of 4DSplat

    A shallow embedding of [render_ply_to_image.py], [ply_to_stereo.py],
    the batch fan-out, the menu and the estimate of
    [tools/run_spatial_pipeline.py], the render stage of
    [tools/run_ply_to_spatial.py] and the frame extraction of
    [tools/video_to_splats.py].

    Conventions.
    - Python [float] is IEEE binary64: Rocq's primitive floats.
    - Python [int] is [Z]; file names are ASCII [string]s; [Path.stem] is
      that of CPython up to 3.12.
    - A directory is the list of its entries in the order the operating
      system enumerates them (the order [Path.glob] yields).
    - External processes are oracles: section variables giving the exit
      status of each invocation. The renderer never removes a file.
    - An exception is a [Raise] result that ends the run; the state it
      leaves behind is kept.
    - [while True] loops take the number of iterations to run as fuel.
    - A file is the string of its bytes. Memory is not bounded: a loop
      that only grows a list goes on for ever.
    - CPython's limit on the length of numerals (from 3.11 on) is a
      parameter where a numeral comes from the contents of a file or
      from standard input; the numbers in file names are too short to
      reach it.
    - A directory is known by the files it lists: one that is not there
      lists nothing, and making it adds no file. The operating system may
      refuse to make the output directory or to start the renderer: where
      a script does so first ([Cli] for [render_ply_to_image.py], [Entry]
      for the first lines of [ply_to_stereo.py]) the refusal is an oracle
      as well; the orchestrators run after that.
    - The worker pool is a step relation over all interleavings of its
      workers and the main thread.

    The definitions come first, module by module as the sources have them;
    the facts follow. *)

From Stdlib Require Import ZArith Floats Ascii String DecimalString DecimalN Sorted.
From stdpp Require Import gmap strings list.

Set Warnings "-inexact-float".

Local Open Scope string_scope.
Local Open Scope Z_scope.

(** * Python strings, paths and integers *)

Module Py.

(** [s.startswith(p)] *)
Definition startswith (p s : string) : bool := String.prefix p s.

(** [s[n:]] *)
Fixpoint drop_str (n : nat) (s : string) : string :=
  match n, s with
  | O, _ => s
  | S _, EmptyString => EmptyString
  | S k, String _ s' => drop_str k s'
  end.

(** [s[:n]] *)
Fixpoint take_str (n : nat) (s : string) : string :=
  match n, s with
  | O, _ => EmptyString
  | S _, EmptyString => EmptyString
  | S k, String c s' => String c (take_str k s')
  end.

(** [s.endswith(p)] *)
Definition endswith (p s : string) : bool :=
  (String.length p <=? String.length s)%nat
  && String.eqb (drop_str (String.length s - String.length p) s) p.

(** [s.rfind(c)] for a one-character needle; [None] is Python's [-1]. *)
Fixpoint rfind (c : ascii) (s : string) : option nat :=
  match s with
  | EmptyString => None
  | String a s' =>
      match rfind c s' with
      | Some i => Some (S i)
      | None => if Ascii.eqb a c then Some O else None
      end
  end.

(** [PurePath.stem]: the name without its last suffix. *)
Definition stem (name : string) : string :=
  match rfind "." name with
  | Some i =>
      if (0 <? i)%nat && (i <? String.length name - 1)%nat
      then take_str i name else name
  | None => name
  end.

(** [s.split(sep, 1)] for a one-character separator. *)
Fixpoint split1 (sep : ascii) (s : string) : list string :=
  match s with
  | EmptyString => [EmptyString]
  | String a s' =>
      if Ascii.eqb a sep then [EmptyString; s']
      else match split1 sep s' with
           | h :: t => String a h :: t
           | [] => [String a EmptyString]
           end
  end.

(** [s.replace(pat, "")] for a non-empty [pat]: every occurrence found
    scanning left to right is deleted; [skip] counts the characters of
    the occurrence being deleted that are still to be dropped. *)
Fixpoint replace_del (pat : string) (skip : nat) (s : string) : string :=
  match s with
  | EmptyString => EmptyString
  | String c s' =>
      match skip with
      | S k => replace_del pat k s'
      | O =>
          if String.prefix pat s
          then replace_del pat (String.length pat - 1) s'
          else String c (replace_del pat O s')
      end
  end.

Definition replace_with_empty (pat s : string) : string := replace_del pat O s.

(** Characters [int()] strips: [str.isspace] on ASCII. *)
Definition is_space (a : ascii) : bool :=
  let n := nat_of_ascii a in
  ((9 <=? n) && (n <=? 13) || (28 <=? n) && (n <=? 32))%nat.

Definition is_digit (a : ascii) : bool :=
  let n := nat_of_ascii a in ((48 <=? n) && (n <=? 57))%nat.

Definition digit_val (a : ascii) : Z := Z.of_nat (nat_of_ascii a) - 48.

Fixpoint lstrip (s : string) : string :=
  match s with
  | String a s' => if is_space a then lstrip s' else s
  | EmptyString => EmptyString
  end.

Fixpoint rstrip (s : string) : string :=
  match s with
  | EmptyString => EmptyString
  | String a s' =>
      match rstrip s' with
      | EmptyString => if is_space a then EmptyString else String a EmptyString
      | r => String a r
      end
  end.

(** Decimal digits with single underscores between them. *)
Fixpoint digits_val (acc : Z) (after_underscore : bool) (s : string) : option Z :=
  match s with
  | EmptyString => if after_underscore then None else Some acc
  | String c s' =>
      if is_digit c then digits_val (10 * acc + digit_val c) false s'
      else if Ascii.eqb c "_" then
        if after_underscore then None else digits_val acc true s'
      else None
  end.

Definition parse_digits (s : string) : option Z :=
  match s with
  | String c _ => if is_digit c then digits_val 0 false s else None
  | EmptyString => None
  end.

(** [int(s)] in base 10; [None] is [ValueError]. *)
Definition int (s : string) : option Z :=
  match rstrip (lstrip s) with
  | String "-" r => Z.opp <$> parse_digits r
  | String "+" r => parse_digits r
  | r => parse_digits r
  end.

(** Decimal digits of a natural number. *)
Definition digits (n : N) : string := NilEmpty.string_of_uint (N.to_uint n).

(** [str(z)] for an [int]. *)
Definition str_int (z : Z) : string :=
  if (z <? 0)%Z then "-" ++ digits (Z.to_N (- z)) else digits (Z.to_N z).

Fixpoint zeros (n : nat) : string :=
  match n with O => EmptyString | S k => String "0" (zeros k) end.

(** [format(z, "06d")]: sign-aware zero padding to six characters. *)
Definition format_06d (z : Z) : string :=
  if (z <? 0)%Z then
    let d := digits (Z.to_N (- z)) in "-" ++ zeros (5 - String.length d) ++ d
  else
    let d := digits (Z.to_N z) in zeros (6 - String.length d) ++ d.

(** [fnmatch] against a pattern [pre*suf] with a single star. *)
Definition glob_star (pre suf name : string) : bool :=
  startswith pre name && endswith suf (drop_str (String.length pre) name).

End Py.

(** * Program state, exceptions and the instrumentation trace *)

Module Sys.

(** The exceptions that leave a function; [OSError] stands for what the
    operating system raises when it refuses a call, [FileNotFoundError]
    apart. *)
Inductive exn :=
| OverflowError
| FileNotFoundError (name : string)
| RuntimeError (msg : string)
| OSError (strerror : string).

Inductive result (A : Type) :=
| Ok (a : A)
| Raise (e : exn).
Arguments Ok {A} a.
Arguments Raise {A} e.

(** What a call-count spy would record: each run of the parameter
    resolver, each [subprocess.run] of the renderer (with the frame and the
    output image it was built for), and each [time.sleep]. *)
Inductive event :=
| EvResolve (ply : string)
| EvRun (ply output : string) (cmd : list string)
| EvSleep.

(** The input directory lists names with their byte sizes, the output
    directory lists names; [seen_sizes] and [processed] are the two
    containers [main] allocates; [tr] is the trace, oldest event first. *)
Record world := World {
  inp : list (string * Z);
  out : list string;
  seen_sizes : gmap string Z;
  processed : gset string;
  tr : list event
}.

Definition M (A : Type) : Type := world -> result A * world.

Definition ret {A} (a : A) : M A := fun w => (Ok a, w).
Definition raise {A} (e : exn) : M A := fun w => (Raise e, w).
Definition bind {A B} (m : M A) (k : A -> M B) : M B :=
  fun w => match m w with
           | (Ok a, w') => k a w'
           | (Raise e, w') => (Raise e, w')
           end.
Definition emit (e : event) : M unit :=
  fun w => (Ok tt, World (inp w) (out w) (seen_sizes w) (processed w) (tr w ++ [e])).

(** [Path.exists] in either directory. *)
Definition exists_in (names : list string) (name : string) : bool :=
  existsb (String.eqb name) names.

(** Creating a file that is already there leaves the listing alone. *)
Definition create (name : string) (names : list string) : list string :=
  if exists_in names name then names else names ++ [name].

End Sys.

Declare Scope py_scope.
Delimit Scope py_scope with py.
Notation "'let*' x := m 'in' k" := (Sys.bind m (fun x => k))
  (at level 10, x name, m at level 200, k at level 200, only parsing) : py_scope.
Notation "'do*' m 'in' k" := (Sys.bind m (fun _ => k))
  (at level 10, m at level 200, k at level 200, only parsing) : py_scope.

(** * render_ply_to_image.py *)

Module Render.
Import Sys.

(** [float(n)] for an [int]: round to nearest even; [None] is the
    [OverflowError] CPython raises when the result is not finite. *)
Definition float_of_int (z : Z) : option float :=
  let f := SF2Prim (binary_normalize prec emax z 0 false) in
  if is_infinity f then None else Some f.

(** The argparse namespace, or the [RenderArgs] object of the callers. *)
Record RenderArgs := {
  a_width : option Z;
  a_height : option Z;
  a_fov_x : option float;
  a_fov_y : option float;
  a_focal_x : option float;
  a_focal_y : option float;
  a_center_x : option float;
  a_center_y : option float;
  use_ply_camera : bool
}.

(** [RenderArgs()] as both orchestrators construct it. *)
Definition RenderArgs_init : RenderArgs :=
  {| a_width := None; a_height := None; a_fov_x := None; a_fov_y := None;
     a_focal_x := None; a_focal_y := None; a_center_x := None;
     a_center_y := None; use_ply_camera := true |}.

(** The 3x3 intrinsic matrix, row-major. *)
Record mat3 := Mat3 {
  k00 : float; k01 : float; k02 : float;
  k10 : float; k11 : float; k12 : float;
  k20 : float; k21 : float; k22 : float
}.

(** The dictionary [resolve_render_params] returns. *)
Record params := {
  width : Z;
  height : Z;
  fov_x : option float;
  fov_y : option float;
  focal_x : option float;
  focal_y : option float;
  center_x : float;
  center_y : float
}.

Record vec3 := Vec3 { v0 : float; v1 : float; v2 : float }.
Record vec4 := Vec4 { q0 : float; q1 : float; q2 : float; q3 : float }.

(** [stereo_camera_positions(cam_pos, ipd)] *)
Definition stereo_camera_positions (cam_pos : vec3) (ipd : float) : vec3 * vec3 :=
  let half := (ipd * 0.5)%float in
  let left := Vec3 (v0 cam_pos - half)%float (v1 cam_pos) (v2 cam_pos) in
  let right := Vec3 (v0 cam_pos + half)%float (v1 cam_pos) (v2 cam_pos) in
  (left, right).

Section WithEnvironment.

(** What [parse_ply_metadata] reads from the file (it catches every
    exception itself and then returns what it has): the intrinsic matrix
    and the image size, each optional. *)
Variable parse_ply_metadata : string -> option mat3 * option (Z * Z).

(** [str(x)] for a [float]. *)
Variable str_float : float -> string.

(** The renderer process: exit status of the invocation made when the
    trace has the given length, and whether it leaves its output file. *)
Variable brush : nat -> list string -> Z * bool.

(** One centre coordinate: lines 109-120. *)
Definition resolve_center (override : option float) (intrinsics : option mat3)
    (principal : mat3 -> float) (dim : Z) : result float :=
  match override, intrinsics with
  | None, Some k =>
      if (dim =? 0)%Z then Ok 0.5%float
      else match float_of_int dim with
           | Some d => Ok (principal k / d)%float
           | None => Raise OverflowError
           end
  | None, None => Ok 0.5%float
  | Some c, _ => Ok c
  end.

(** [resolve_render_params(ply_path, args)] *)
Definition resolve_render_params (ply_path : string) (args : RenderArgs)
    : result params :=
  let '(intrinsics, image_size) :=
    if use_ply_camera args then parse_ply_metadata ply_path else (None, None) in
  let width :=
    match a_width args with
    | Some w => w
    | None => match image_size with Some (w, _) => w | None => 1920%Z end
    end in
  let height :=
    match a_height args with
    | Some h => h
    | None => match image_size with Some (_, h) => h | None => 1080%Z end
    end in
  let focal_x :=
    match intrinsics, a_focal_x args with
    | Some k, None => Some (k00 k)
    | _, f => f
    end in
  let focal_y :=
    match intrinsics, a_focal_y args with
    | Some k, None => Some (k11 k)
    | _, f => f
    end in
  match resolve_center (a_center_x args) intrinsics k02 width with
  | Raise e => Raise e
  | Ok center_x =>
      match resolve_center (a_center_y args) intrinsics k12 height with
      | Raise e => Raise e
      | Ok center_y =>
          let fov_x :=
            match a_fov_x args, focal_x with
            | None, None => Some 60%float
            | f, _ => f
            end in
          Ok {| width := width; height := height; fov_x := fov_x;
                fov_y := a_fov_y args; focal_x := focal_x; focal_y := focal_y;
                center_x := center_x; center_y := center_y |}
      end
  end.

(** [cmd.extend([flag, str(v)])] guarded by [v is not None]. *)
Definition opt_flag {A} (flag : string) (str : A -> string) (v : option A)
    : list string :=
  match v with Some x => [flag; str x] | None => [] end.

(** [build_brush_command(...)] *)
Definition build_brush_command (brush_bin ply_path output_path : string)
    (width height : option Z) (fov_x fov_y focal_x focal_y : option float)
    (center_x center_y : float) (cam_pos : vec3) (cam_rot : vec4)
    (background : vec3) (subsample_points : option Z)
    (extra_args : list string) : list string :=
  [brush_bin; ply_path; "--output"; output_path]
  ++ opt_flag "--width" Py.str_int width
  ++ opt_flag "--height" Py.str_int height
  ++ opt_flag "--fov-x" str_float fov_x
  ++ ["--center-x"; str_float center_x; "--center-y"; str_float center_y]
  ++ ["--cam-pos"; str_float (v0 cam_pos); str_float (v1 cam_pos);
      str_float (v2 cam_pos);
      "--cam-rot"; str_float (q0 cam_rot); str_float (q1 cam_rot);
      str_float (q2 cam_rot); str_float (q3 cam_rot);
      "--background"; str_float (v0 background); str_float (v1 background);
      str_float (v2 background)]
  ++ opt_flag "--fov-y" str_float fov_y
  ++ opt_flag "--focal-x" str_float focal_x
  ++ opt_flag "--focal-y" str_float focal_y
  ++ opt_flag "--subsample-points" Py.str_int subsample_points
  ++ extra_args.

(** [subprocess.run(cmd)] of the renderer: the spy records the call, the
    oracle answers it, and the output image appears when it says so. *)
Definition subprocess_run (ply output : string) (cmd : list string) : M Z :=
  fun w =>
    let '(code, wrote) := brush (length (tr w)) cmd in
    (Ok code,
     World (inp w) (if wrote then create output (out w) else out w)
           (seen_sizes w) (processed w) (tr w ++ [EvRun ply output cmd])).

(** [render_file(...)] as the two orchestrators call it; paths are the
    file names inside the input and the output directory, [in_dir] and
    [out_dir] the directories' names. The [main] of either orchestrator has
    made the output directory and found the renderer before the first
    call, so the [mkdir] of line 217 finds the directory there and the
    process starts. [Cli.render_file] is the function with the failures of
    both, as the command line of [render_ply_to_image.py] runs it. *)
Definition render_file (in_dir out_dir : string) (ply_path output_path : string)
    (brush_bin : string) (p : params) (cam_pos : vec3) (cam_rot : vec4)
    (background : vec3) (subsample_points : option Z)
    (extra_args : list string) (dry_run : bool) : M Z :=
  let cmd :=
    build_brush_command brush_bin (in_dir ++ "/" ++ ply_path)
      (out_dir ++ "/" ++ output_path)
      (Some (width p)) (Some (height p)) (fov_x p) (fov_y p)
      (focal_x p) (focal_y p) (center_x p) (center_y p)
      cam_pos cam_rot background subsample_points extra_args in
  if dry_run then Sys.ret 0%Z
  else (let* returncode := subprocess_run ply_path output_path cmd in
        if (returncode =? 0)%Z then Sys.ret 0%Z else Sys.ret returncode)%py.

End WithEnvironment.

End Render.

(** * ply_to_stereo.py *)

Module Watcher.
Import Sys Render.

Definition DEFAULT_IPD : float := 0.063%float.
Definition DEFAULT_CAM_POS : vec3 := Vec3 0 0 0.
Definition DEFAULT_CAM_ROT : vec4 := Vec4 0 0 0 1.
Definition DEFAULT_BG : vec3 := Vec3 0 0 0.

(** [ply_index(path)]; the [IndexError] branch of [split(...)[1]] cannot
    be reached behind [startswith] (lemma [split1_frame]). *)
Definition ply_index (name : string) : Z :=
  let name := Py.stem name in
  if Py.startswith "frame_" name then
    match Py.split1 "_" name !! 1%nat with
    | Some digits => match Py.int digits with Some z => z | None => 0 end
    | None => 0
    end
  else 0.

(** [frame_index_from_stem(stem)] *)
Definition frame_index_from_stem (stem : string) : option Z :=
  if Py.startswith "frame_" stem then
    match Py.split1 "_" stem !! 1%nat with
    | Some digits => Py.int digits
    | None => None
    end
  else None.

(** [sorted(xs, key=key)]: Python's sort is stable. *)
Fixpoint insert_by {A} (key : A -> Z) (x : A) (l : list A) : list A :=
  match l with
  | [] => [x]
  | y :: l' => if key x <=? key y then x :: l else y :: insert_by key x l'
  end.

Fixpoint sorted_by {A} (key : A -> Z) (l : list A) : list A :=
  match l with
  | [] => []
  | x :: l' => insert_by key x (sorted_by key l')
  end.

(** [max(xs)] of a non-empty list. *)
Definition max_list (x : Z) (l : list Z) : Z := fold_left Z.max l x.

(** What [--input] names: one file of the input directory, or the
    directory itself. *)
Inductive input_kind := InputFile (name : string) | InputDir.

(** How a run of [main] stands: it returned an exit status, or the watch
    loop is still running with the given counter. *)
Inductive outcome := Exit (status : Z) | Watching (expected_index : Z).

(** The command line after [parse_args], and [KEEP_TEMP]. *)
Record config := {
  input_dir : string;
  input_is : input_kind;
  output_dir : string;
  ipd : float;
  brush_bin : string;
  watch : bool;
  sequential : bool;
  keep_temp : bool
}.

Section WithEnvironment.

Variable parse_ply_metadata : string -> option mat3 * option (Z * Z).
Variable str_float : float -> string.
Variable brush : nat -> list string -> Z * bool.

(** What the upstream producer does to the input directory before the
    poll cycle of the given number. *)
Variable producer : nat -> list (string * Z) -> list (string * Z).

Variable cfg : config.

Definition left_name (ply_path : string) : string := Py.stem ply_path ++ "_left.png".
Definition right_name (ply_path : string) : string := Py.stem ply_path ++ "_right.png".

(** [render_stereo_from_ply(ply_path, output_dir, brush_bin, ipd)] *)
Definition render_stereo_from_ply (ply_path : string) : M unit :=
  (do* emit (EvResolve ply_path) in
   match resolve_render_params parse_ply_metadata ply_path RenderArgs_init with
   | Raise e => raise e
   | Ok params =>
       let '(left_pos, right_pos) :=
         stereo_camera_positions DEFAULT_CAM_POS (ipd cfg) in
       let* code :=
         render_file str_float brush (input_dir cfg) (output_dir cfg)
           ply_path (left_name ply_path) (brush_bin cfg) params left_pos
           DEFAULT_CAM_ROT DEFAULT_BG None [] false in
       if negb (code =? 0) then
         raise (RuntimeError ("brush-render failed for " ++ ply_path ++ " (left)"))
       else
         let* code :=
           render_file str_float brush (input_dir cfg) (output_dir cfg)
             ply_path (right_name ply_path) (brush_bin cfg) params right_pos
             DEFAULT_CAM_ROT DEFAULT_BG None [] false in
         if negb (code =? 0) then
           raise (RuntimeError ("brush-render failed for " ++ ply_path ++ " (right)"))
         else ret tt
   end)%py.

(** [input_path.glob("*.ply")] *)
Definition glob_ply (entries : list (string * Z)) : list string :=
  filter (fun name => Is_true (Py.glob_star "" ".ply" name)) (fst <$> entries).

(** [list_ply_files(input_path)] *)
Definition list_ply_files : M (list string) :=
  fun w =>
    match input_is cfg with
    | InputFile name => (Ok [name], w)
    | InputDir => (Ok (sorted_by ply_index (glob_ply (inp w))), w)
    end.

(** [should_process(ply_path)] *)
Definition should_process (ply_path : string) : M bool :=
  fun w =>
    if exists_in (out w) (left_name ply_path)
       && exists_in (out w) (right_name ply_path)
    then (Ok false, w) else (Ok true, w).

(** [ply_path.stat().st_size] *)
Definition stat_size (ply_path : string) : M Z :=
  fun w =>
    match list_find (fun e => fst e = ply_path) (inp w) with
    | Some (_, (_, size)) => (Ok size, w)
    | None => (Raise (FileNotFoundError ply_path), w)
    end.

(** [is_stable(ply_path)] *)
Definition is_stable (ply_path : string) : M bool :=
  (let* size := stat_size ply_path in
   fun w =>
     let last_size := seen_sizes w !! ply_path in
     (Ok match last_size with
         | Some l => (l =? size) && (size >? 0)
         | None => false
         end,
      World (inp w) (out w) (<[ply_path := size]> (seen_sizes w))
            (processed w) (tr w)))%py.

(** [ply_path.unlink(missing_ok=True)] *)
Definition unlink (ply_path : string) : M unit :=
  fun w =>
    (Ok tt,
     World (filter (fun e => fst e ≠ ply_path) (inp w)) (out w)
           (seen_sizes w) (processed w) (tr w)).

(** [processed.add(ply_path)] *)
Definition processed_add (ply_path : string) : M unit :=
  fun w =>
    (Ok tt,
     World (inp w) (out w) (seen_sizes w) ({[ply_path]} ∪ processed w) (tr w)).

(** The body of the [for] loop of [process_once]; the result tells
    whether the frame was rendered. *)
Definition process_frame (ply_path : string) : M bool :=
  (let* todo := should_process ply_path in
   if negb todo then ret false
   else
     let* stable := (if watch cfg then is_stable ply_path else ret true) in
     if negb stable then ret false
     else
       do* render_stereo_from_ply ply_path in
       do* (if keep_temp cfg then ret tt else unlink ply_path) in
       do* processed_add ply_path in
       ret true)%py.

Fixpoint process_files (ply_files : list string) (rendered_any : bool) : M bool :=
  match ply_files with
  | [] => ret rendered_any
  | ply_path :: rest =>
      (let* rendered := process_frame ply_path in
       process_files rest (rendered || rendered_any))%py
  end.

(** [process_once()] *)
Definition process_once : M bool :=
  (let* ply_files := list_ply_files in
   match ply_files with
   | [] => ret false
   | _ => process_files ply_files false
   end)%py.

(** The index a glob of the output directory contributes. *)
Definition output_indices (suffix tag : string) (names : list string) : list Z :=
  omap (fun name => frame_index_from_stem (Py.replace_with_empty tag (Py.stem name)))
       (filter (fun name => Is_true (Py.glob_star "frame_" suffix name)) names).

(** [next_expected_index()] *)
Definition next_expected_index : M Z :=
  fun w =>
    let existing :=
      (output_indices "_left.png" "_left" (out w)
       ++ output_indices "_right.png" "_right" (out w))%list in
    match existing with
    | [] => (Ok 0, w)
    | x :: l => (Ok (max_list x l + 1), w)
    end.

Definition expected_name (expected_index : Z) : string :=
  "frame_" ++ Py.format_06d expected_index ++ ".ply".

(** One iteration of [while True] under [--sequential]; the result is
    the counter after it. *)
Definition sequential_cycle (expected_index : Z) : M Z :=
  let expected_path := expected_name expected_index in
  fun w =>
    if exists_in (fst <$> inp w) expected_path then
      (let* todo := should_process expected_path in
       let* stable := (if todo then is_stable expected_path else ret false) in
       do* (if todo && stable then
              do* render_stereo_from_ply expected_path in
              if keep_temp cfg then ret tt else unlink expected_path
            else ret tt) in
       ret (expected_index + 1))%py w
    else
      (do* emit EvSleep in ret expected_index)%py w.

(** One iteration of [while True] without [--sequential]. *)
Definition unordered_cycle : M unit :=
  (let* processed_any := process_once in
   if processed_any then ret tt else emit EvSleep)%py.

(** The producer's turn before a poll cycle. *)
Definition produce (cycle : nat) : M unit :=
  fun w =>
    (Ok tt, World (producer cycle (inp w)) (out w) (seen_sizes w)
                  (processed w) (tr w)).

(** [fuel] iterations of the watch loop, the first one being iteration
    number [cycle]; without [--sequential] the counter is not used. *)
Fixpoint watch_loop (fuel cycle : nat) (expected_index : Z) : M outcome :=
  match fuel with
  | O => ret (Watching expected_index)
  | S fuel' =>
      (do* produce cycle in
       if sequential cfg then
         let* next := sequential_cycle expected_index in
         watch_loop fuel' (S cycle) next
       else
         do* unordered_cycle in
         watch_loop fuel' (S cycle) expected_index)%py
  end.

(** [main()] below the argument and binary checks of lines 169-183, which
    are [Entry.main]: one pass without [--watch], otherwise the watch loop
    for [fuel] iterations. *)
Definition main (fuel : nat) : M outcome :=
  match watch cfg, input_is cfg with
  | true, InputFile _ => ret (Exit 1)
  | false, _ => (do* process_once in ret (Exit 0))%py
  | true, InputDir =>
      (let* expected_index :=
         (if sequential cfg then next_expected_index else ret 0) in
       watch_loop fuel O expected_index)%py
  end.

(** The state [main] starts from on the given directories. *)
Definition boot (input : list (string * Z)) (output : list string) : world :=
  World input output ∅ ∅ [].

End WithEnvironment.


End Watcher.

(** * tools/run_spatial_pipeline.py: the parallel render stage *)

Module Pipeline.

(** [main], lines 196-204: every frame is submitted to a
    [ThreadPoolExecutor] as a call of [render_with_ply_to_stereo], which
    runs [ply_to_stereo.py] on the one file with [check=True]; then the
    main thread asks each future for its result, in submission order, and
    the [with] block is left.

    Where the main thread stands in [for future in futures:
    future.result()]: about to wait for the future of the given position,
    or left the loop by the [CalledProcessError] of a frame. *)
Inductive main_state :=
| Waiting (next : nat)
| Failed (frame : nat).

(** The executor: work items not yet taken, frames whose child process is
    running, finished futures with the exit status of their child, and the
    main thread. Frames are numbered in submission order, the order of
    [ply_files]. *)
Record pool := Pool {
  queue : list nat;
  running : list nat;
  finished : list (nat * Z);
  main_at : main_state
}.

(** All futures submitted, none started. *)
Definition submitted (n : nat) : pool := Pool (seq 0 n) [] [] (Waiting 0).

Section WithChildren.

(** [RENDER_WORKERS] and the exit status of [ply_to_stereo.py] on each
    frame ([check=True] raises on any status but zero). *)
Variable workers : nat.
Variable status : nat -> Z.

(** A worker takes the next work item while fewer than [workers] children
    run; a running child exits and its future is set; [future.result()]
    returns for the future the main thread waits for, or re-raises the
    [CalledProcessError] stored in it. Nothing cancels a work item:
    leaving the [with] block calls [shutdown(wait=True)], which lets the
    workers drain the queue. *)
Inductive step : pool -> pool -> Prop :=
| step_start i q r f m :
    (length r < workers)%nat ->
    step (Pool (i :: q) r f m) (Pool q (r ++ [i]) f m)
| step_finish i q r1 r2 f m :
    step (Pool q (r1 ++ i :: r2) f m) (Pool q (r1 ++ r2) (f ++ [(i, status i)]) m)
| step_result_ok k q r f :
    (k, 0) ∈ f ->
    step (Pool q r f (Waiting k)) (Pool q r f (Waiting (S k)))
| step_result_raise k c q r f :
    (k, c) ∈ f -> c ≠ 0 ->
    step (Pool q r f (Waiting k)) (Pool q r f (Failed k)).

Inductive steps : pool -> pool -> Prop :=
| steps_refl s : steps s s
| steps_step s1 s2 s3 : steps s1 s2 -> step s2 s3 -> steps s1 s3.

(** The [with] block has been left: [shutdown(wait=True)] returned, and
    the main thread either went through all [n] futures or raised. *)
Definition terminal (n : nat) (s : pool) : Prop :=
  queue s = [] ∧ running s = []
  ∧ (main_at s = Waiting n ∨ ∃ k, main_at s = Failed k).

(** A complete run of the render stage on [n] frames. *)
Definition completes (n : nat) (s : pool) : Prop :=
  steps (submitted n) s ∧ terminal n s.

End WithChildren.

(** The frames a finished stage reports as failed: the one whose
    exception left the loop. *)
Definition reported_failed (s : pool) : list nat :=
  match main_at s with
  | Waiting _ => []
  | Failed k => [k]
  end.

(** The frames whose child process failed. *)
Definition failed_frames (n : nat) (status : nat -> Z) : list nat :=
  filter (fun i => status i ≠ 0) (seq 0 n).

End Pipeline.

(** * Specification-side notions *)

Module Spec.
Import Sys Render.

(** A principal-point coordinate normalized by an image dimension; there
    is nothing to normalize by when the dimension is zero. *)
Definition normalized (c : float) (dim : Z) : option float :=
  if dim =? 0 then None else (fun d => (c / d)%float) <$> float_of_int dim.

(** A command line carries an option with its value. *)
Definition carries (cmd : list string) (flag value : string) : Prop :=
  ∃ before after, cmd = (before ++ [flag; value] ++ after)%list.

(** The input directory as a poll cycle finds it. *)
Definition set_input (entries : list (string * Z)) (w : world) : world :=
  World entries (out w) (seen_sizes w) (processed w) (tr w).

(** Successive poll cycles look at one file and find the given sizes:
    the verdicts of [is_stable], in order. *)
Fixpoint observe (ply_path : string) (sizes : list Z) (w : world)
    : list (result bool) :=
  match sizes with
  | [] => []
  | size :: rest =>
      let '(r, w') := Watcher.is_stable ply_path (set_input [(ply_path, size)] w) in
      r :: observe ply_path rest w'
  end.

(** The frame an event belongs to. *)
Definition frame_of (e : event) : option string :=
  match e with
  | EvResolve ply => Some ply
  | EvRun ply _ _ => Some ply
  | EvSleep => None
  end.

(** The frames handed to the orchestrator, in order. *)
Definition yielded (evs : list event) : list string :=
  omap (fun e => match e with EvResolve ply => Some ply | _ => None end) evs.

(** A frame is done when both its images exist. *)
Definition done (names : list string) (ply_path : string) : bool :=
  exists_in names (Watcher.left_name ply_path)
  && exists_in names (Watcher.right_name ply_path).

(** The indices of the frames [frame_*] that are fully rendered: the
    left and the right image both exist. *)
Definition fully_rendered_indices (names : list string) : list Z :=
  omap (fun name =>
          if Py.glob_star "frame_" "_left.png" name then
            let stem := Py.take_str (String.length name - 9) name in
            if exists_in names (stem ++ "_right.png")
            then Watcher.frame_index_from_stem stem else None
          else None) names.

(** One past the highest fully rendered index, 0 when there is none. *)
Definition one_past_highest_fully_rendered (names : list string) : Z :=
  match fully_rendered_indices names with
  | [] => 0
  | x :: l => Watcher.max_list x l + 1
  end.

(** The index the watcher reads from an image name of one eye, and the
    names that stand for a frame index: an image of either eye. *)
Definition image_index (suffix tag name : string) : option Z :=
  if Py.glob_star "frame_" suffix name
  then Watcher.frame_index_from_stem (Py.replace_with_empty tag (Py.stem name))
  else None.

Definition is_image_of (name : string) (i : Z) : Prop :=
  image_index "_left.png" "_left" name = Some i
  ∨ image_index "_right.png" "_right" name = Some i.

(** File names in lexicographic order. *)
Definition lex_sorted (names : list string) : Prop :=
  Sorted (fun a b => String.leb a b = true) names.

(** ** Notions used to state the facts *)

(** The metadata the resolver works from. *)
Definition embedded (parse_ply_metadata : string -> option mat3 * option (Z * Z))
    (ply_path : string) (args : RenderArgs) : option mat3 * option (Z * Z) :=
  if use_ply_camera args then parse_ply_metadata ply_path else (None, None).

(** Order by a numeric key. *)
Definition key_le {A : Type} (key : A -> Z) (a b : A) : Prop := key a ≤ key b.

(** The value of a decimal numeral read with an accumulator, as
    [digits_val] reads it. *)
Fixpoint uint_val (d : Decimal.uint) (acc : Z) : Z :=
  match d with
  | Decimal.Nil => acc
  | Decimal.D0 l => uint_val l (10 * acc + 0)
  | Decimal.D1 l => uint_val l (10 * acc + 1)
  | Decimal.D2 l => uint_val l (10 * acc + 2)
  | Decimal.D3 l => uint_val l (10 * acc + 3)
  | Decimal.D4 l => uint_val l (10 * acc + 4)
  | Decimal.D5 l => uint_val l (10 * acc + 5)
  | Decimal.D6 l => uint_val l (10 * acc + 6)
  | Decimal.D7 l => uint_val l (10 * acc + 7)
  | Decimal.D8 l => uint_val l (10 * acc + 8)
  | Decimal.D9 l => uint_val l (10 * acc + 9)
  end.

Fixpoint all_digits (s : string) : bool :=
  match s with
  | EmptyString => true
  | String c s' => Py.is_digit c && all_digits s'
  end.

(** The characters of a formatted index: digits and the sign. *)
Fixpoint numeric (s : string) : bool :=
  match s with
  | EmptyString => true
  | String c s' => (Py.is_digit c || Ascii.eqb c "-") && numeric s'
  end.

(** The output directory after an invocation. *)
Definition wrote (answer : Z * bool) (output : string) (names : list string)
    : list string :=
  if answer.2 then create output names else names.


(** No expected name from the counter on has been looked at yet. *)
Definition unseen_from (w : world) (expected_index : Z) : Prop :=
  ∀ j, expected_index ≤ j -> seen_sizes w !! Watcher.expected_name j = None.

Section WithConfig.

Variable str_float : float -> string.
Variable cfg : Watcher.config.

(** The command line of one eye of a frame. *)
Definition eye_cmd (ply_path output : string) (p : params) (pos : vec3)
    : list string :=
  build_brush_command str_float (Watcher.brush_bin cfg)
    (Watcher.input_dir cfg ++ "/" ++ ply_path)
    (Watcher.output_dir cfg ++ "/" ++ output)
    (Some (width p)) (Some (height p)) (fov_x p) (fov_y p) (focal_x p)
    (focal_y p) (center_x p) (center_y p) pos Watcher.DEFAULT_CAM_ROT
    Watcher.DEFAULT_BG None [].

Definition left_cmd (ply_path : string) (p : params) : list string :=
  eye_cmd ply_path (Watcher.left_name ply_path) p
    (stereo_camera_positions Watcher.DEFAULT_CAM_POS (Watcher.ipd cfg)).1.

Definition right_cmd (ply_path : string) (p : params) : list string :=
  eye_cmd ply_path (Watcher.right_name ply_path) p
    (stereo_camera_positions Watcher.DEFAULT_CAM_POS (Watcher.ipd cfg)).2.

(** A frame passes the filters of a poll cycle: it is not done and, when
    watching, [is_stable] accepts it. *)
Definition eligible (w : world) (ply_path : string) : bool :=
  negb (done (out w) ply_path)
  && (if Watcher.watch cfg then
        match Watcher.is_stable ply_path w with
        | (Ok stable, _) => stable
        | (Raise _, _) => false
        end
      else true).

End WithConfig.

Section WithChildren.

Variable status : nat -> Z.
Variable n : nat.

(** What holds of every state a run of the stage on [n] frames passes
    through: each frame is waiting, running or finished, once; a finished
    future holds the status of its own child; the main thread has seen only
    successes before the future it stands at. *)
Record invariant (s : Pipeline.pool) : Prop := {
  inv_frames :
    ((Pipeline.finished s).*1 ++ Pipeline.running s ++ Pipeline.queue s)%list
    ≡ₚ seq 0 n;
  inv_status : ∀ i c, (i, c) ∈ Pipeline.finished s -> c = status i;
  inv_main :
    match Pipeline.main_at s with
    | Pipeline.Waiting k => (k ≤ n)%nat ∧ ∀ j, (j < k)%nat -> status j = 0
    | Pipeline.Failed k =>
        (k < n)%nat ∧ status k ≠ 0 ∧ ∀ j, (j < k)%nat -> status j = 0
    end
}.

(** What is left to do: every step uses up some of it. *)
Definition remaining (s : Pipeline.pool) : nat :=
  2 * length (Pipeline.queue s) + length (Pipeline.running s)
  + match Pipeline.main_at s with
    | Pipeline.Waiting k => S (n - k)
    | Pipeline.Failed _ => 0
    end.

End WithChildren.

(** ** Sample environments, configurations and batches *)

(** Metadata of a file that embeds nothing, and of one that embeds the
    intrinsic matrix [[1000,0,960],[0,1000,540],[0,0,1]] with image size
    1920 x 1080. *)
Definition no_metadata : string -> option mat3 * option (Z * Z) :=
  fun _ => (None, None).
Definition sample_metadata : string -> option mat3 * option (Z * Z) :=
  fun _ => (Some (Mat3 1000 0 960 0 1000 540 0 0 1), Some (1920, 1080)).

Definition sample_str_float : float -> string := fun _ => "0.0".
Definition brush_succeeds : nat -> list string -> Z * bool := fun _ _ => (0, true).
Definition brush_fails : nat -> list string -> Z * bool := fun _ _ => (1, false).
Definition idle_producer : nat -> list (string * Z) -> list (string * Z) :=
  fun _ entries => entries.

Definition sample_cfg (watching in_sequence : bool) : Watcher.config :=
  {| Watcher.input_dir := "ply"; Watcher.input_is := Watcher.InputDir;
     Watcher.output_dir := "stereo_frames"; Watcher.ipd := Watcher.DEFAULT_IPD;
     Watcher.brush_bin := "brush-render"; Watcher.watch := watching;
     Watcher.sequential := in_sequence; Watcher.keep_temp := true |}.

Definition sample_params : params :=
  {| width := 1920; height := 1080; fov_x := Some 60%float; fov_y := None;
     focal_x := None; focal_y := None;
     center_x := 0.5%float; center_y := 0.5%float |}.

Definition only_frame_2_fails (i : nat) : Z := if (i =? 2)%nat then 1 else 0.
Definition frames_0_and_2_fail (i : nat) : Z := if (i =? 1)%nat then 0 else 1.

(** Where a run of five frames on two workers ends in which frame 2
    fails while frame 1 is still running. *)
Definition sample_end : Pipeline.pool :=
  Pipeline.Pool [] []
    [(0%nat, 0); (2%nat, 1); (1%nat, 0); (3%nat, 0); (4%nat, 0)]
    (Pipeline.Failed 2).

End Spec.

(** * CPython's limit on the length of numerals *)

Module PyInt.

(** The number of decimal digits in a numeral. *)
Fixpoint count_digits (s : string) : nat :=
  match s with
  | EmptyString => O
  | String c s' => ((if Py.is_digit c then 1 else 0) + count_digits s')%nat
  end.

(** Whether a numeral of [digits] digits is over the limit
    [sys.get_int_max_str_digits()]: a numeral of up to 640 digits never
    is, and a limit of 0 lifts the limit. *)
Definition over (max_str_digits digits : nat) : bool :=
  (640 <? digits)%nat && (0 <? max_str_digits)%nat
  && (max_str_digits <? digits)%nat.

(** [int(s)] in base 10 under the limit: from CPython 3.11 on a numeral
    over the limit, 4300 digits unless it is set, is refused with
    [ValueError] as a malformed one is. With the limit 0 this is the
    [int] of the earlier versions. *)
Definition int (max_str_digits : nat) (s : string) : option Z :=
  if over max_str_digits (count_digits s) then None else Py.int s.

End PyInt.

(** * render_ply_to_image.py: reading the camera block of a PLY file *)

Module Ply.
Import Sys Render.

(** The byte [b"\n"]. *)
Definition newline : ascii := "010"%char.

(** [pat in s] for bytes. *)
Fixpoint contains (pat s : string) : bool :=
  String.prefix pat s
  || match s with
     | String _ s' => contains pat s'
     | EmptyString => false
     end.

(** [f.readline()] on what is left of the file: the line with its
    newline, and the rest; at the end of the file the line is empty. *)
Fixpoint readline (s : string) : string * string :=
  match s with
  | EmptyString => (EmptyString, EmptyString)
  | String c s' =>
      if Ascii.eqb c newline then (String c EmptyString, s')
      else let '(line, rest) := readline s' in (String c line, rest)
  end.

(** The [while True] loop of lines 30-35: [fuel] bounds the number of
    [readline] calls; the result is [header_bytes] and the unread rest,
    [None] while the loop is still running. *)
Fixpoint read_header (fuel : nat) (rest header_bytes : string)
    : option (string * string) :=
  match fuel with
  | O => None
  | S fuel' =>
      let '(line, rest') := readline rest in
      let header_bytes := header_bytes ++ line in
      if contains "end_header" line then Some (header_bytes, rest')
      else read_header fuel' rest' header_bytes
  end.

(** [bytes.decode("ascii", errors="ignore")] *)
Fixpoint decode_ascii_ignore (s : string) : string :=
  match s with
  | EmptyString => EmptyString
  | String c s' =>
      if (nat_of_ascii c <? 128)%nat then String c (decode_ascii_ignore s')
      else decode_ascii_ignore s'
  end.

(** [s.split(sep)] for a one-character separator. *)
Fixpoint split_all (sep : ascii) (s : string) : list string :=
  match s with
  | EmptyString => [EmptyString]
  | String c s' =>
      if Ascii.eqb c sep then EmptyString :: split_all sep s'
      else match split_all sep s' with
           | h :: t => String c h :: t
           | [] => [String c EmptyString]
           end
  end.

(** [s.strip().split()]: the maximal runs without white space. *)
Fixpoint words (s : string) : list string :=
  match s with
  | EmptyString => []
  | String c s' =>
      if Py.is_space c then words s'
      else match s' with
           | EmptyString => [String c EmptyString]
           | String c' _ =>
               if Py.is_space c' then String c EmptyString :: words s'
               else match words s' with
                    | h :: t => String c h :: t
                    | [] => [String c EmptyString]
                    end
           end
  end.

(** [in_vertex], [vertex_count] and [vertex_props] of lines 38-40. *)
Record header_state := HeaderState {
  in_vertex : bool;
  vertex_count : Z;
  vertex_props : list string
}.

Section Limit.

(** [sys.get_int_max_str_digits()] *)
Variable max_str_digits : nat.

(** The body of the loop of lines 41-49; [None] is the [ValueError] of
    [int(parts[2])]. *)
Definition header_line (st : header_state) (line : string)
    : option header_state :=
  let parts := words line in
  match parts with
  | p0 :: p1 :: rest =>
      if String.eqb p0 "element" then
        let in_vertex := String.eqb p1 "vertex" in
        match in_vertex, rest with
        | true, p2 :: _ =>
            match PyInt.int max_str_digits p2 with
            | Some n => Some (HeaderState in_vertex n (vertex_props st))
            | None => None
            end
        | _, _ => Some (HeaderState in_vertex (vertex_count st) (vertex_props st))
        end
      else
        match rest with
        | _ :: _ =>
            if in_vertex st && String.eqb p0 "property"
            then Some (HeaderState (in_vertex st) (vertex_count st)
                         (vertex_props st ++ [p1]))
            else Some st
        | [] => Some st
        end
  | _ => Some st
  end.

(** The loop of lines 41-49 over the lines of the header. *)
Fixpoint header_lines (st : header_state) (lines : list string)
    : option header_state :=
  match lines with
  | [] => Some st
  | line :: rest =>
      match header_line st line with
      | Some st' => header_lines st' rest
      | None => None
      end
  end.

(** The dictionary [type_sizes] and [type_sizes.get(prop_type, 4)]. *)
Definition type_sizes : list (string * Z) :=
  [("char", 1); ("int8", 1); ("uchar", 1); ("uint8", 1);
   ("short", 2); ("int16", 2); ("ushort", 2); ("uint16", 2);
   ("int", 4); ("int32", 4); ("uint", 4); ("uint32", 4);
   ("float", 4); ("float32", 4); ("double", 8); ("float64", 8)].

Definition type_size (prop_type : string) : Z :=
  match list_find (fun e => fst e = prop_type) type_sizes with
  | Some (_, (_, size)) => size
  | None => 4
  end.

(** The loop of lines 69-71. *)
Definition vertex_size (props : list string) : Z :=
  fold_left (fun acc prop_type => acc + type_size prop_type) props 0.

(** One byte as a number. *)
Definition byte_val (c : ascii) : Z := Z.of_N (N_of_ascii c).

(** Four bytes read as a little-endian unsigned integer; the byte order
    of [np.frombuffer] is that of the machine. *)
Definition u32_le (s : string) : Z :=
  match s with
  | String b0 (String b1 (String b2 (String b3 _))) =>
      byte_val b0 + 256 * (byte_val b1 + 256 * (byte_val b2 + 256 * byte_val b3))
  | _ => 0
  end.

(** A binary32 bit pattern as the [float] it denotes. *)
Definition float_of_bits32 (bits : Z) : float :=
  let sign := 0 <? bits / 2 ^ 31 in
  let e := (bits / 2 ^ 23) mod 256 in
  let m := bits mod 2 ^ 23 in
  SF2Prim
    (if e =? 255 then (if m =? 0 then S754_infinity sign else S754_nan)
     else if e =? 0 then
       match m with
       | Zpos p => S754_finite sign p (-149)
       | _ => S754_zero sign
       end
     else
       match 2 ^ 23 + m with
       | Zpos p => S754_finite sign p (e - 150)
       | _ => S754_zero sign
       end).

(** The [k]-th [float32] of a buffer. *)
Definition f32_at (s : string) (k : nat) : float :=
  float_of_bits32 (u32_le (Py.drop_str (4 * k) s)).

(** [np.frombuffer(intrinsic_bytes, dtype=np.float32).reshape(3, 3)] *)
Definition mat3_of_bytes (s : string) : mat3 :=
  Mat3 (f32_at s 0) (f32_at s 1) (f32_at s 2)
       (f32_at s 3) (f32_at s 4) (f32_at s 5)
       (f32_at s 6) (f32_at s 7) (f32_at s 8).

(** Lines 76-85 on the file from the position of the [seek]. *)
Definition read_camera (s : string) : option mat3 * option (Z * Z) :=
  let intrinsic_bytes := Py.take_str 36 (Py.drop_str 64 s) in
  let image_size_bytes := Py.take_str 8 (Py.drop_str 100 s) in
  (if (String.length intrinsic_bytes =? 36)%nat
   then Some (mat3_of_bytes intrinsic_bytes) else None,
   if (String.length image_size_bytes =? 8)%nat
   then Some (u32_le image_size_bytes, u32_le (Py.drop_str 4 image_size_bytes))
   else None).

(** What follows the header loop; a failing [int] or a [seek] to a
    negative position is caught and leaves both results [None]. *)
Definition after_header (content header_bytes : string)
    : option mat3 * option (Z * Z) :=
  let header_str := decode_ascii_ignore header_bytes in
  match header_lines (HeaderState false 0 []) (split_all newline header_str) with
  | None => (None, None)
  | Some st =>
      let header_size := Z.of_nat (String.length header_bytes) in
      let position := header_size + vertex_count st * vertex_size (vertex_props st) in
      if position <? 0 then (None, None)
      else read_camera (Py.drop_str (Z.to_nat position) content)
  end.

(** [parse_ply_metadata] on the bytes of the file; [None] while the
    header loop is still running after [fuel] lines. *)
Definition parse_content (fuel : nat) (content : string)
    : option (option mat3 * option (Z * Z)) :=
  match read_header fuel content EmptyString with
  | None => None
  | Some (header_bytes, _) => Some (after_header content header_bytes)
  end.

(** [parse_ply_metadata(ply_path)]: a file that cannot be opened gives
    the [except] branch. *)
Definition parse_ply_metadata (fuel : nat) (files : string -> option string)
    (ply_path : string) : option (option mat3 * option (Z * Z)) :=
  match files ply_path with
  | None => Some (None, None)
  | Some content => parse_content fuel content
  end.

End Limit.

End Ply.

(** * render_ply_to_image.py: the command line *)

Module Cli.
Import Sys Render.

(** The namespace [parse_args] returns; [--file] is not given. *)
Record namespace := {
  arg_input : string;
  arg_output : string;
  arg_firstFrame : bool;
  arg_brush_bin : string;
  arg_width : option Z;
  arg_height : option Z;
  arg_fov_x : option float;
  arg_fov_y : option float;
  arg_focal_x : option float;
  arg_focal_y : option float;
  arg_center_x : option float;
  arg_center_y : option float;
  arg_cam_pos : vec3;
  arg_cam_rot : vec4;
  arg_background : vec3;
  arg_mono : bool;
  arg_ipd : float;
  arg_no_ply_camera : bool;
  arg_subsample_points : option Z;
  arg_brush_args : list string;
  arg_dry_run : bool
}.

(** The namespace as [resolve_render_params] reads it, after
    [args.use_ply_camera = not args.no_ply_camera]. *)
Definition render_args (args : namespace) : RenderArgs :=
  {| a_width := arg_width args; a_height := arg_height args;
     a_fov_x := arg_fov_x args; a_fov_y := arg_fov_y args;
     a_focal_x := arg_focal_x args; a_focal_y := arg_focal_y args;
     a_center_x := arg_center_x args; a_center_y := arg_center_y args;
     use_ply_camera := negb (arg_no_ply_camera args) |}.

(** [sorted(paths)]: paths of one directory compare as their names do,
    character by character; Python's sort is stable. *)
Fixpoint insert_path (x : string) (l : list string) : list string :=
  match l with
  | [] => [x]
  | y :: l' => if String.leb x y then x :: l else y :: insert_path x l'
  end.

Fixpoint sorted (l : list string) : list string :=
  match l with
  | [] => []
  | x :: l' => insert_path x (sorted l')
  end.

Section WithEnvironment.

Variable parse_ply_metadata : string -> option mat3 * option (Z * Z).
Variable str_float : float -> string.
Variable brush : nat -> list string -> Z * bool.

(** The renderer built next to the script, when it is there. *)
Variable local_bin : option string.

(** [shutil.which(name) is not None] *)
Variable which : string -> bool.

(** [input_dir.exists()] *)
Variable input_dir_exists : bool.

(** What the operating system refuses: the exception
    [output_path.parent.mkdir(parents=True, exist_ok=True)] raises when the
    output directory is not there and cannot be made, and the exception
    [subprocess.run] raises when the process of the invocation made at the
    given length of the trace cannot be started. *)
Variable mkdir_error : option exn.
Variable spawn_error : nat -> option exn.

(** [ensure_brush_binary(brush_bin)] *)
Definition ensure_brush_binary (brush_bin : string) : bool := which brush_bin.

(** [output_path.parent.mkdir(parents=True, exist_ok=True)] *)
Definition mkdir_parents : M unit :=
  match mkdir_error with
  | Some e => raise e
  | None => ret tt
  end.

(** [subprocess.run(cmd)]: the spy records the call also when the
    process cannot be started. *)
Definition subprocess_run (ply output : string) (cmd : list string) : M Z :=
  fun w =>
    match spawn_error (length (tr w)) with
    | Some e =>
        (Raise e,
         World (inp w) (out w) (seen_sizes w) (processed w)
               (tr w ++ [EvRun ply output cmd]))
    | None => Render.subprocess_run brush ply output cmd w
    end.

(** [render_file(...)] from its first line: the output directory is made
    before the command line is built and before [dry_run] is looked at. *)
Definition render_file (in_dir out_dir : string) (ply_path output_path : string)
    (brush_bin : string) (p : params) (cam_pos : vec3) (cam_rot : vec4)
    (background : vec3) (subsample_points : option Z)
    (extra_args : list string) (dry_run : bool) : M Z :=
  (do* mkdir_parents in
   let cmd :=
     build_brush_command str_float brush_bin (in_dir ++ "/" ++ ply_path)
       (out_dir ++ "/" ++ output_path)
       (Some (width p)) (Some (height p)) (fov_x p) (fov_y p)
       (focal_x p) (focal_y p) (center_x p) (center_y p)
       cam_pos cam_rot background subsample_points extra_args in
   if dry_run then ret 0
   else
     let* returncode := subprocess_run ply_path output_path cmd in
     if returncode =? 0 then ret 0 else ret returncode)%py.

(** The body of the [for] loop of lines 500-573: the status that ends
    [main] when it is not 0. *)
Definition render_frame (args : namespace) (brush_bin ply_path : string) : M Z :=
  (do* emit (EvResolve ply_path) in
   match resolve_render_params parse_ply_metadata ply_path (render_args args) with
   | Raise e => raise e
   | Ok params =>
       if arg_mono args then
         render_file (arg_input args) (arg_output args)
           ply_path (Py.stem ply_path ++ ".png") brush_bin params
           (arg_cam_pos args) (arg_cam_rot args) (arg_background args)
           (arg_subsample_points args) (arg_brush_args args) (arg_dry_run args)
       else
         let '(left_pos, right_pos) :=
           stereo_camera_positions (arg_cam_pos args) (arg_ipd args) in
         let* code :=
           render_file (arg_input args) (arg_output args)
             ply_path (Py.stem ply_path ++ "_left.png") brush_bin params
             left_pos (arg_cam_rot args) (arg_background args)
             (arg_subsample_points args) (arg_brush_args args)
             (arg_dry_run args) in
         if negb (code =? 0) then ret code
         else
           render_file (arg_input args) (arg_output args)
             ply_path (Py.stem ply_path ++ "_right.png") brush_bin params
             right_pos (arg_cam_rot args) (arg_background args)
             (arg_subsample_points args) (arg_brush_args args)
             (arg_dry_run args)
   end)%py.

(** The [for] loop of lines 500-573 and the [return 0] after it. *)
Fixpoint render_frames (args : namespace) (brush_bin : string)
    (ply_files : list string) : M Z :=
  match ply_files with
  | [] => ret 0
  | ply_path :: rest =>
      (let* code := render_frame args brush_bin ply_path in
       if negb (code =? 0) then ret code
       else render_frames args brush_bin rest)%py
  end.

(** [main()] when [--file] is not given; the result is the exit status. *)
Definition main (args : namespace) : M Z :=
  let brush_bin :=
    if String.eqb (arg_brush_bin args) "brush-render"
    then default (arg_brush_bin args) local_bin
    else arg_brush_bin args in
  if negb (ensure_brush_binary brush_bin) then ret 1
  else if negb input_dir_exists then ret 1
  else fun w =>
    let ply_files := sorted (Watcher.glob_ply (inp w)) in
    match ply_files with
    | [] => (Ok 1, w)
    | _ =>
        let ply_files :=
          if arg_firstFrame args then take 1 ply_files else ply_files in
        render_frames args brush_bin ply_files w
    end.

End WithEnvironment.

End Cli.

(** * ply_to_stereo.py: [main] from its first line *)

Module Entry.
Import Sys Render Watcher.

Definition BRUSH_BIN_DEFAULT : string := "brush-render".

(** The command line with the renderer [main] has settled on. *)
Definition with_brush_bin (cfg : config) (bin : string) : config :=
  {| input_dir := input_dir cfg; input_is := input_is cfg;
     output_dir := output_dir cfg; ipd := ipd cfg; brush_bin := bin;
     watch := watch cfg; sequential := sequential cfg;
     keep_temp := keep_temp cfg |}.

Section WithEnvironment.

Variable parse_ply_metadata : string -> option mat3 * option (Z * Z).
Variable str_float : float -> string.
Variable brush : nat -> list string -> Z * bool.
Variable producer : nat -> list (string * Z) -> list (string * Z).

(** The renderer built under [ROOT_DIR], when it is there. *)
Variable local_bin : option string.

(** [shutil.which(name) is not None] *)
Variable which : string -> bool.

(** [input_path.exists()] when [--input] names the directory. *)
Variable input_dir_exists : bool.

(** The exception [output_dir.mkdir(parents=True, exist_ok=True)] raises
    when the output directory is not there and cannot be made. *)
Variable mkdir_error : option exn.

(** [resolve_brush_bin(brush_bin)]: an empty string is no choice. *)
Definition resolve_brush_bin (arg_brush_bin : option string) : string :=
  match arg_brush_bin with
  | Some bin =>
      if String.eqb bin "" then default BRUSH_BIN_DEFAULT local_bin else bin
  | None => default BRUSH_BIN_DEFAULT local_bin
  end.

(** [main()] from its first line, lines 169-183 and then [Watcher.main];
    [arg_brush_bin] is [--brush-bin] as given, [cfg] the rest of the
    command line. *)
Definition main (arg_brush_bin : option string) (cfg : config) (fuel : nat)
    : M outcome :=
  fun w =>
    let input_path_exists :=
      match input_is cfg with
      | InputFile name => exists_in (fst <$> inp w) name
      | InputDir => input_dir_exists
      end in
    let input_path_is_dir :=
      match input_is cfg with
      | InputFile _ => false
      | InputDir => true
      end in
    if negb input_path_exists then (Ok (Exit 1), w)
    else if watch cfg && negb input_path_is_dir then (Ok (Exit 1), w)
    else
      match mkdir_error with
      | Some e => (Raise e, w)
      | None =>
          let bin := resolve_brush_bin arg_brush_bin in
          if negb (which bin) then (Ok (Exit 1), w)
          else
            Watcher.main parse_ply_metadata str_float brush producer
              (with_brush_bin cfg bin) fuel w
      end.

End WithEnvironment.

End Entry.

(** * tools/run_spatial_pipeline.py: the parts of [main] around the pool *)

Module Tools.

(** [get_video_fps(cap)], on the value [cap.get(cv2.CAP_PROP_FPS)]
    returns; a float is true when it is not zero. *)
Definition get_video_fps (fps : float) : float :=
  if negb (fps =? 0)%float && (0 <? fps)%float then fps else 30%float.

(** Lines 142-144: [hours] and [minutes] of the estimate. *)
Definition estimate (total_frames : Z) : Z * Z :=
  let estimate_seconds := total_frames * 7 in
  let hours := estimate_seconds / 3600 in
  let minutes := (estimate_seconds mod 3600) / 60 in
  (hours, minutes).

(** [str.isdigit] on ASCII text. *)
Fixpoint all_decimal (s : string) : bool :=
  match s with
  | EmptyString => true
  | String c s' => Py.is_digit c && all_decimal s'
  end.

Definition isdigit (s : string) : bool :=
  match s with
  | EmptyString => false
  | _ => all_decimal s
  end.

(** [str.strip] *)
Definition strip (s : string) : string := Py.rstrip (Py.lstrip s).

(** How the menu loop of lines 77-87 ends: with a selection, the lines
    of standard input not read yet being left, with the [EOFError] of
    [input] at the end of standard input, or with the [ValueError] of
    [int]. *)
Inductive selection :=
| Selected (index : Z) (unread : list string)
| EOFError
| ValueError.

(** The loop [while selected is None] on the lines standard input
    holds, for a menu of [entries] entries, under the limit
    [sys.get_int_max_str_digits()]. *)
Fixpoint select (max_str_digits : nat) (answers : list string) (entries : nat)
    : selection :=
  match answers with
  | [] => EOFError
  | answer :: rest =>
      let choice := strip answer in
      if negb (isdigit choice) then select max_str_digits rest entries
      else
        match PyInt.int max_str_digits choice with
        | None => ValueError
        | Some index =>
            if (1 <=? index) && (index <=? Z.of_nat entries)
            then Selected index rest
            else select max_str_digits rest entries
        end
  end.

End Tools.

(** * tools/run_ply_to_spatial.py: the render stage of [main] *)

Module Spatial.
Import Sys Render.

Definition BRUSH_BIN_DEFAULT : string := "brush-render".
Definition DEFAULT_IPD : float := 0.063%float.
Definition DEFAULT_CAM_POS : vec3 := Vec3 0 0 0.
Definition DEFAULT_CAM_ROT : vec4 := Vec4 0 0 0 1.
Definition DEFAULT_BG : vec3 := Vec3 0 0 0.

(** The closure [ply_index] of [main]. *)
Definition ply_index (name : string) : Z :=
  let name := Py.stem name in
  if Py.startswith "frame_" name then
    match Py.split1 "_" name !! 1%nat with
    | Some digits =>
        match Py.int digits with
        | Some n => n
        | None => 0
        end
    | None => 0
    end
  else 0.

(** How the render stage of [main] ends: [main] returns a status, or it
    goes on to encode the videos. *)
Inductive stage := Returned (status : Z) | Encoding.

Section WithEnvironment.

Variable parse_ply_metadata : string -> option mat3 * option (Z * Z).
Variable str_float : float -> string.
Variable brush : nat -> list string -> Z * bool.

(** The renderer built under [ROOT_DIR], when it is there. *)
Variable local_bin : option string.

(** [shutil.which(name) is not None] *)
Variable which : string -> bool.

(** The directories [ply_dir] and [stereo_dir]. *)
Variable ply_dir stereo_dir : string.

(** [resolve_brush_bin()] *)
Definition resolve_brush_bin : string :=
  let brush_bin := BRUSH_BIN_DEFAULT in
  if String.eqb brush_bin "brush-render" then default brush_bin local_bin
  else brush_bin.

(** [render_stereo_from_ply(ply_path, output_dir, brush_bin)] *)
Definition render_stereo_from_ply (ply_path brush_bin : string) : M unit :=
  (do* emit (EvResolve ply_path) in
   match resolve_render_params parse_ply_metadata ply_path RenderArgs_init with
   | Raise e => raise e
   | Ok params =>
       let '(left_pos, right_pos) :=
         stereo_camera_positions DEFAULT_CAM_POS DEFAULT_IPD in
       let* code :=
         render_file str_float brush ply_dir stereo_dir
           ply_path (Py.stem ply_path ++ "_left.png") brush_bin params left_pos
           DEFAULT_CAM_ROT DEFAULT_BG None [] false in
       if negb (code =? 0) then
         raise (RuntimeError ("brush-render failed for " ++ ply_path ++ " (left)"))
       else
         let* code :=
           render_file str_float brush ply_dir stereo_dir
             ply_path (Py.stem ply_path ++ "_right.png") brush_bin params
             right_pos DEFAULT_CAM_ROT DEFAULT_BG None [] false in
         if negb (code =? 0) then
           raise (RuntimeError ("brush-render failed for " ++ ply_path ++ " (right)"))
         else ret tt
   end)%py.

(** The loop of lines 255-257. *)
Fixpoint render_all (ply_files : list string) (brush_bin : string) : M unit :=
  match ply_files with
  | [] => ret tt
  | ply_path :: rest =>
      (do* render_stereo_from_ply ply_path brush_bin in
       render_all rest brush_bin)%py
  end.

(** Lines 232-257 of [main]. *)
Definition render_stage (use_existing_stereo : bool) : M stage :=
  let brush_bin := resolve_brush_bin in
  if negb (which brush_bin) then ret (Returned 1)
  else fun w =>
    let ply_files := Watcher.sorted_by ply_index (Watcher.glob_ply (inp w)) in
    match ply_files with
    | [] => (Ok (Returned 1), w)
    | _ =>
        (do* (if use_existing_stereo then ret tt
              else render_all ply_files brush_bin) in
         ret Encoding)%py w
    end.

End WithEnvironment.

End Spatial.

(** * tools/video_to_splats.py: extracting the frames *)

Module Splats.

Section Extract.

Context {A : Type}.

Variable frame_interval : Z.
Variable max_frames : option Z.

(** The loop of [extract_frames] on the frames [cap.read()] delivers:
    [frame_paths] pairs each file written with the frame it holds; [None]
    is the [ZeroDivisionError] of [%]. *)
Fixpoint extract_loop (frames : list A) (frame_count extracted_count : Z)
    (frame_paths : list (string * A)) : option (list (string * A)) :=
  match frames with
  | [] => Some frame_paths
  | frame :: rest =>
      if frame_interval =? 0 then None
      else if frame_count mod frame_interval =? 0 then
        let frame_filename :=
          "frame_" ++ Py.format_06d extracted_count ++ ".png" in
        let frame_paths := (frame_paths ++ [(frame_filename, frame)])%list in
        let extracted_count := extracted_count + 1 in
        if match max_frames with
           | Some m => m <=? extracted_count
           | None => false
           end
        then Some frame_paths
        else extract_loop rest (frame_count + 1) extracted_count frame_paths
      else extract_loop rest (frame_count + 1) extracted_count frame_paths
  end.

(** [extract_frames(video_path, output_dir, frame_interval, max_frames)]
    on a video that opens. *)
Definition extract_frames (frames : list A) : option (list (string * A)) :=
  extract_loop frames 0 0 [].

End Extract.

End Splats.

(** * Notions used to state the further facts *)

Module Layout.
Import Sys Render Ply.

(** An occurrence of a text without newline does not straddle the end
    of a line. *)
Fixpoint no_newline (s : string) : bool :=
  match s with
  | EmptyString => true
  | String c s' => negb (Ascii.eqb c newline) && no_newline s'
  end.

(** A header line a writer may put before [end_header]. *)
Definition clean_line (l : string) : bool :=
  no_newline l && negb (contains "end_header" l).

(** Lines written one after the other, each with its newline. *)
Fixpoint join_lines (ls : list string) : string :=
  match ls with
  | [] => EmptyString
  | l :: rest => l ++ String newline (join_lines rest)
  end.

(** An unsigned 32-bit integer written in little-endian order. *)
Definition byte_of (z : Z) : ascii := ascii_of_N (Z.to_N (z mod 256)).

Definition u32_bytes (z : Z) : string :=
  String (byte_of z) (String (byte_of (z / 256))
    (String (byte_of (z / 256 / 256))
       (String (byte_of (z / 256 / 256 / 256)) EmptyString))).

(** A word of a header line: not empty and without white space. *)
Fixpoint no_space (s : string) : bool :=
  match s with
  | EmptyString => true
  | String c s' => negb (Py.is_space c) && no_space s'
  end.

Definition token (s : string) : bool :=
  match s with
  | EmptyString => false
  | _ => no_space s
  end.

(** The lines that declare an element and one of its properties. *)
Definition element_line (name count : string) : string :=
  "element " ++ name ++ " " ++ count.

Definition property_line (decl : string * string) : string :=
  "property " ++ decl.1 ++ " " ++ decl.2.

(** [n] bytes of value [b]. *)
Fixpoint fill (n : nat) (b : ascii) : string :=
  match n with
  | O => EmptyString
  | S k => String b (fill k b)
  end.

(** A file with two vertices of ten bytes each, a camera block
    with focal length 1000 and principal point (960, 540), and an
    image of 1920 by 1080 pixels. *)
Definition sample_header : list string :=
  ["ply"; "format binary_little_endian 1.0";
   element_line "vertex" "2";
   property_line ("float", "x"); property_line ("float", "y");
   property_line ("uchar", "red"); property_line ("uchar", "green");
   element_line "extrinsic" "16"; property_line ("float", "extrinsic");
   element_line "intrinsic" "9"; property_line ("float", "intrinsic");
   element_line "image_size" "2"; property_line ("uint", "image_size")].

Definition sample_intrinsic : string :=
  u32_bytes 1148846080 ++ u32_bytes 0 ++ u32_bytes 1148190720
  ++ u32_bytes 0 ++ u32_bytes 1148846080 ++ u32_bytes 1141309440
  ++ u32_bytes 0 ++ u32_bytes 0 ++ u32_bytes 1065353216.

Definition sample_file : string :=
  join_lines sample_header ++ "end_header" ++ String newline
    (fill 20 "a" ++ fill 64 "b" ++ sample_intrinsic
     ++ u32_bytes 1920 ++ u32_bytes 1080 ++ "trailing").

(** The invocations of a piece of trace: frame and output image. *)
Definition runs (evs : list event) : list (string * string) :=
  omap (fun e => match e with
                 | EvRun ply output _ => Some (ply, output)
                 | _ => None
                 end) evs.

(** The exit statuses of the invocations of a piece of trace that starts
    at position [from] of the whole trace. *)
Fixpoint statuses (brush : nat -> list string -> Z * bool) (from : nat)
    (evs : list event) : list Z :=
  match evs with
  | [] => []
  | EvRun _ _ cmd :: rest => (brush from cmd).1 :: statuses brush (S from) rest
  | _ :: rest => statuses brush (S from) rest
  end.

(** The images of a frame with the command line's choice of [--mono]. *)
Definition images (args : Cli.namespace) (ply_path : string)
    : list (string * string) :=
  if Cli.arg_mono args then [(ply_path, Py.stem ply_path ++ ".png")]
  else [(ply_path, Py.stem ply_path ++ "_left.png");
        (ply_path, Py.stem ply_path ++ "_right.png")].

(** What a piece of trace [evs] that starts at position [from] says of a
    run of the loop of [main] over [files] that ended with [r];
    [unchanged] says that the output directory lists what it did. *)
Record frame_effect
    (parse_ply_metadata : string -> option mat3 * option (Z * Z))
    (brush : nat -> list string -> Z * bool)
    (mkdir_error : option exn) (spawn_error : nat -> option exn)
    (args : Cli.namespace) (from : nat) (files : list string)
    (r : result Z) (evs : list event) (unchanged : Prop) : Prop := {
  fe_yielded : Spec.yielded evs `prefix_of` files;
  fe_all : r = Ok 0 -> Spec.yielded evs = files;
  fe_dry : Cli.arg_dry_run args = true ->
           runs evs = [] ∧ unchanged ∧ (r = Ok 0 ∨ ∃ e, r = Raise e);
  fe_raise : ∀ e, r = Raise e ->
             (∃ ply, resolve_render_params parse_ply_metadata ply
                       (Cli.render_args args) = Raise e
                     ∧ last evs = Some (EvResolve ply))
             ∨ mkdir_error = Some e
             ∨ ∃ n, spawn_error n = Some e;
  fe_mkdir : ∀ e, mkdir_error = Some e -> files ≠ [] -> r ≠ Ok 0;
  fe_status : ∀ code, r = Ok code ->
              ∃ k, statuses brush from evs
                   = (replicate k 0 ++ if code =? 0 then [] else [code])%list;
  fe_images : r = Ok 0 -> Cli.arg_dry_run args = false ->
              runs evs = flat_map (images args) (Spec.yielded evs)
}.

(** The renderer the command line selects. *)
Definition selected_bin (local_bin : option string) (args : Cli.namespace)
    : string :=
  if String.eqb (Cli.arg_brush_bin args) "brush-render"
  then default (Cli.arg_brush_bin args) local_bin
  else Cli.arg_brush_bin args.

(** A command line with the defaults of the parser. *)
Definition sample_args (mono dry_run firstFrame : bool) (width : option Z)
    : Cli.namespace :=
  {| Cli.arg_input := "ply_frames"; Cli.arg_output := "stereo_output";
     Cli.arg_firstFrame := firstFrame; Cli.arg_brush_bin := "brush-render";
     Cli.arg_width := width; Cli.arg_height := None;
     Cli.arg_fov_x := None; Cli.arg_fov_y := None;
     Cli.arg_focal_x := None; Cli.arg_focal_y := None;
     Cli.arg_center_x := None; Cli.arg_center_y := None;
     Cli.arg_cam_pos := Vec3 0 0 0; Cli.arg_cam_rot := Vec4 0 0 0 1;
     Cli.arg_background := Vec3 0 0 0; Cli.arg_mono := mono;
     Cli.arg_ipd := 0.063%float; Cli.arg_no_ply_camera := false;
     Cli.arg_subsample_points := None; Cli.arg_brush_args := [];
     Cli.arg_dry_run := dry_run |}.

(** Every renderer is on the path. *)
Definition on_path : string -> bool := fun _ => true.


(** The operating system starts every process. *)
Definition no_refusal : nat -> option exn := fun _ => None.

(** The renderer process started at position [n] of the trace exits
    with status 3, every other one with 0. *)
Definition brush_fails_at (n : nat) : nat -> list string -> Z * bool :=
  fun i _ => if (i =? n)%nat then (3, false) else (0, true).

(** A directory in which the order of the names is not the order of the
    frame numbers. *)
Definition sample_dir : list (string * Z) :=
  [("frame_9.ply", 100); ("notes.txt", 5); ("frame_10.ply", 100)].

(** An answer that picks the entry [index] of a menu of [entries]
    entries: stripped, it is a string of decimal digits that denotes a
    number from 1 to [entries]. *)
Definition picks (entries : nat) (answer : string) (index : Z) : Prop :=
  Tools.isdigit (Tools.strip answer) = true
  ∧ Py.int (Tools.strip answer) = Some index
  ∧ 1 ≤ index ≤ Z.of_nat entries.

(** An answer of decimal digits, more of them than the limit allows. *)
Definition refused (max_str_digits : nat) (answer : string) : bool :=
  Tools.isdigit (Tools.strip answer)
  && PyInt.over max_str_digits (String.length (Tools.strip answer)).

(** An answer after which the menu is shown again. *)
Definition passed_over (max_str_digits entries : nat) (answer : string) : Prop :=
  refused max_str_digits answer = false
  ∧ ∀ index, ¬ picks entries answer index.

(** The configuration of [ply_to_stereo.py] that stands for a call of
    the orchestrator of [run_ply_to_spatial.py]. *)
Definition as_config (ply_dir stereo_dir brush_bin : string) : Watcher.config :=
  {| Watcher.input_dir := ply_dir; Watcher.input_is := Watcher.InputDir;
     Watcher.output_dir := stereo_dir; Watcher.ipd := Watcher.DEFAULT_IPD;
     Watcher.brush_bin := brush_bin; Watcher.watch := false;
     Watcher.sequential := false; Watcher.keep_temp := true |}.



(** The value of a string of decimal digits read after [acc]. *)
Fixpoint dec_val (acc : Z) (s : string) : Z :=
  match s with
  | EmptyString => acc
  | String c s' => dec_val (10 * acc + Py.digit_val c) s'
  end.

(** The number of frames [extract_frames] keeps of [total] frames: every
    [interval]-th one, the first included, and no more than [max_frames],
    which counts as 1 when it is smaller. *)
Definition kept (total interval : Z) (max_frames : option Z) : Z :=
  let every := (total + interval - 1) / interval in
  match max_frames with
  | None => every
  | Some m => Z.min every (Z.max 1 m)
  end.

(** The state the header loop starts from. *)
Definition header_start : header_state := HeaderState false 0 [].

End Layout.

(** * Facts about the parameter resolver and the stereo planner *)

Module RenderFacts.
Import Sys Render Spec.

Section WithEnvironment.

Variable parse_ply_metadata : string -> option mat3 * option (Z * Z).
Variable str_float : float -> string.

Lemma resolve_center_ok override intrinsics principal dim c :
  resolve_center override intrinsics principal dim = Ok c ->
  c = default 0.5%float
        (override ∪ (intrinsics ≫= fun k => normalized (principal k) dim)).
Proof.
  unfold resolve_center, normalized.
  destruct override as [o|], intrinsics as [k|]; simpl;
    destruct (dim =? 0); try destruct (float_of_int dim); simpl;
    try discriminate; intros [= <-]; reflexivity.
Qed.

Lemma resolve_center_raise override intrinsics principal dim e :
  resolve_center override intrinsics principal dim = Raise e ->
  e = OverflowError ∧ float_of_int dim = None.
Proof.
  unfold resolve_center.
  destruct override, intrinsics; try discriminate.
  destruct (dim =? 0); [discriminate|].
  destruct (float_of_int dim); [discriminate|].
  intros [= <-]. split; reflexivity.
Qed.

Lemma resolve_fields ply_path args p :
  resolve_render_params parse_ply_metadata ply_path args = Ok p ->
  width p = default 1920 (a_width args ∪ (fst <$> (embedded parse_ply_metadata ply_path args).2))
  ∧ height p = default 1080 (a_height args ∪ (snd <$> (embedded parse_ply_metadata ply_path args).2))
  ∧ focal_x p = a_focal_x args ∪ (k00 <$> (embedded parse_ply_metadata ply_path args).1)
  ∧ focal_y p = a_focal_y args ∪ (k11 <$> (embedded parse_ply_metadata ply_path args).1)
  ∧ center_x p =
      default 0.5%float
        (a_center_x args
         ∪ ((embedded parse_ply_metadata ply_path args).1 ≫= fun k => normalized (k02 k) (width p)))
  ∧ center_y p =
      default 0.5%float
        (a_center_y args
         ∪ ((embedded parse_ply_metadata ply_path args).1 ≫= fun k => normalized (k12 k) (height p)))
  ∧ fov_x p =
      a_fov_x args
      ∪ match focal_x p with Some _ => None | None => Some 60%float end
  ∧ fov_y p = a_fov_y args.
Proof.
  unfold resolve_render_params, embedded.
  destruct (if use_ply_camera args then parse_ply_metadata ply_path else (None, None))
    as [intrinsics image_size].
  destruct (resolve_center (a_center_x args) _ _ _) as [cx|] eqn:Hx; [|discriminate].
  destruct (resolve_center (a_center_y args) _ _ _) as [cy|] eqn:Hy; [|discriminate].
  intros [= <-]. simpl.
  apply resolve_center_ok in Hx, Hy.
  repeat split.
  - destruct (a_width args), image_size as [[??]|]; reflexivity.
  - destruct (a_height args), image_size as [[??]|]; reflexivity.
  - destruct intrinsics, (a_focal_x args); reflexivity.
  - destruct intrinsics, (a_focal_y args); reflexivity.
  - exact Hx.
  - exact Hy.
  - destruct (a_fov_x args), intrinsics, (a_focal_x args); reflexivity.
Qed.

Lemma resolve_raise ply_path args e :
  resolve_render_params parse_ply_metadata ply_path args = Raise e ->
  e = OverflowError
  ∧ ∃ dim, float_of_int dim = None
      ∧ (dim = default 1920 (a_width args ∪ (fst <$> (embedded parse_ply_metadata ply_path args).2))
         ∨ dim = default 1080 (a_height args ∪ (snd <$> (embedded parse_ply_metadata ply_path args).2))).
Proof.
  unfold resolve_render_params, embedded.
  destruct (if use_ply_camera args then parse_ply_metadata ply_path else (None, None))
    as [intrinsics image_size].
  destruct (resolve_center (a_center_x args) _ _ _) as [cx|ex] eqn:Hx.
  - destruct (resolve_center (a_center_y args) _ _ _) as [cy|ey] eqn:Hy;
      [discriminate|].
    intros [= <-]. apply resolve_center_raise in Hy as [-> Hy].
    split; [reflexivity|]. eexists; split; [exact Hy|right].
    destruct (a_height args), image_size as [[??]|]; reflexivity.
  - intros [= <-]. apply resolve_center_raise in Hx as [-> Hx].
    split; [reflexivity|]. eexists; split; [exact Hx|left].
    destruct (a_width args), image_size as [[??]|]; reflexivity.
Qed.

(** Every option [build_brush_command] adds is carried by the result. *)
Lemma carries_app_l cmd1 cmd2 flag value :
  carries cmd1 flag value -> carries (cmd1 ++ cmd2) flag value.
Proof.
  intros (b & a & ->). exists b, (a ++ cmd2)%list.
  rewrite <- !app_assoc. reflexivity.
Qed.

Lemma carries_app_r cmd1 cmd2 flag value :
  carries cmd2 flag value -> carries (cmd1 ++ cmd2) flag value.
Proof.
  intros (b & a & ->). exists (cmd1 ++ b)%list, a.
  rewrite <- !app_assoc. reflexivity.
Qed.

Lemma carries_opt_flag {A} flag (str : A -> string) v :
  carries (opt_flag flag str (Some v)) flag (str v).
Proof. exists [], []. reflexivity. Qed.

Lemma build_carries_fov_x bin ply output w h v fy fx fly cx cy pos rot bg sub extra :
  carries (build_brush_command str_float bin ply output w h (Some v) fy fx fly
             cx cy pos rot bg sub extra)
          "--fov-x" (str_float v).
Proof.
  unfold build_brush_command.
  do 3 apply carries_app_r. apply carries_app_l, carries_opt_flag.
Qed.

Lemma build_carries_focal_x bin ply output w h fvx fy v fly cx cy pos rot bg sub extra :
  carries (build_brush_command str_float bin ply output w h fvx fy (Some v) fly
             cx cy pos rot bg sub extra)
          "--focal-x" (str_float v).
Proof.
  unfold build_brush_command.
  do 7 apply carries_app_r. apply carries_app_l, carries_opt_flag.
Qed.

End WithEnvironment.

Lemma resolve_center_cases override intrinsics principal dim :
  match resolve_center override intrinsics principal dim with
  | Ok c =>
      match override, intrinsics with
      | Some o, _ => c = o
      | None, Some k =>
          if dim =? 0 then c = 0.5%float
          else ∃ d, float_of_int dim = Some d ∧ c = (principal k / d)%float
      | None, None => c = 0.5%float
      end
  | Raise e =>
      e = OverflowError
      ∧ override = None ∧ intrinsics ≠ None ∧ dim ≠ 0 ∧ float_of_int dim = None
  end.
Proof.
  unfold resolve_center.
  destruct override as [o|], intrinsics as [k|]; try reflexivity.
  destruct (Z.eqb_spec dim 0) as [->|Hd]; [reflexivity|].
  destruct (float_of_int dim) as [d|]; [eauto|].
  repeat split; congruence.
Qed.

(** C6 as amended: for every combination of overrides and embedded
    metadata the resolver either returns a parameter set or raises
    [OverflowError], and it raises exactly when an embedded principal point
    is to be divided by a resolved width or height that is not zero and too
    large for a float. In the parameter set it returns, width and height
    are the override, else the embedded size, else 1920 and 1080; the focal
    lengths are the override, else the embedded focal terms, else unset; a
    centre coordinate is the override, else the embedded principal point
    divided by the resolved dimension when that is not zero, else 0.5, which
    it also is when a principal point is embedded and the dimension is
    zero; fov-x is the override, else 60 exactly when focal-x is unset;
    fov-y is the override only. The two sample resolutions come out as
    stated. *)
Theorem resolve_render_params_precedence :
  (∀ metadata ply_path args,
     let intrinsics := (embedded metadata ply_path args).1 in
     let image_size := (embedded metadata ply_path args).2 in
     let w := default 1920 (a_width args ∪ (fst <$> image_size)) in
     let h := default 1080 (a_height args ∪ (snd <$> image_size)) in
     match resolve_render_params metadata ply_path args with
     | Ok p =>
         width p = w ∧ height p = h
         ∧ focal_x p = a_focal_x args ∪ (k00 <$> intrinsics)
         ∧ focal_y p = a_focal_y args ∪ (k11 <$> intrinsics)
         ∧ match a_center_x args, intrinsics with
           | Some override, _ => center_x p = override
           | None, Some k =>
               if w =? 0 then center_x p = 0.5%float
               else ∃ d, float_of_int w = Some d
                         ∧ center_x p = (k02 k / d)%float
           | None, None => center_x p = 0.5%float
           end
         ∧ match a_center_y args, intrinsics with
           | Some override, _ => center_y p = override
           | None, Some k =>
               if h =? 0 then center_y p = 0.5%float
               else ∃ d, float_of_int h = Some d
                         ∧ center_y p = (k12 k / d)%float
           | None, None => center_y p = 0.5%float
           end
         ∧ fov_x p =
             a_fov_x args
             ∪ match focal_x p with Some _ => None | None => Some 60%float end
         ∧ fov_y p = a_fov_y args
     | Raise e =>
         e = OverflowError
         ∧ intrinsics ≠ None
         ∧ (a_center_x args = None ∧ w ≠ 0 ∧ float_of_int w = None
            ∨ a_center_y args = None ∧ h ≠ 0 ∧ float_of_int h = None)
     end)
  ∧ resolve_render_params no_metadata "frame_000000.ply" RenderArgs_init
    = Ok {| width := 1920; height := 1080; fov_x := Some 60%float;
            fov_y := None; focal_x := None; focal_y := None;
            center_x := 0.5%float; center_y := 0.5%float |}
  ∧ resolve_render_params sample_metadata "frame_000000.ply" RenderArgs_init
    = Ok {| width := 1920; height := 1080; fov_x := None;
            fov_y := None; focal_x := Some 1000%float;
            focal_y := Some 1000%float;
            center_x := 0.5%float; center_y := 0.5%float |}.
Proof.
  split; [|split; vm_compute; reflexivity].
  intros metadata ply_path args. cbv zeta.
  unfold resolve_render_params, embedded.
  destruct (if use_ply_camera args then metadata ply_path else (None, None))
    as [intrinsics image_size]. cbn [fst snd].
  assert (Ew : match a_width args with
               | Some w => w
               | None => match image_size with Some (w, _) => w | None => 1920 end
               end
               = default 1920 (a_width args ∪ (fst <$> image_size)))
    by (destruct (a_width args), image_size as [[??]|]; reflexivity).
  assert (Eh : match a_height args with
               | Some h => h
               | None => match image_size with Some (_, h) => h | None => 1080 end
               end
               = default 1080 (a_height args ∪ (snd <$> image_size)))
    by (destruct (a_height args), image_size as [[??]|]; reflexivity).
  rewrite Ew, Eh.
  pose proof (resolve_center_cases (a_center_x args) intrinsics k02
                (default 1920 (a_width args ∪ (fst <$> image_size)))) as Hx.
  pose proof (resolve_center_cases (a_center_y args) intrinsics k12
                (default 1080 (a_height args ∪ (snd <$> image_size)))) as Hy.
  destruct (resolve_center (a_center_x args) _ _ _) as [cx|ex].
  - destruct (resolve_center (a_center_y args) _ _ _) as [cy|ey].
    + cbn [width height focal_x focal_y center_x center_y fov_x fov_y].
      repeat split; try assumption.
      * destruct intrinsics, (a_focal_x args); reflexivity.
      * destruct intrinsics, (a_focal_y args); reflexivity.
      * destruct (a_fov_x args), intrinsics, (a_focal_x args); reflexivity.
    + destruct Hy as (-> & Ho & Hi & Hd & Hf). auto 6.
  - destruct Hx as (-> & Ho & Hi & Hd & Hf). auto 6.
Qed.

Lemma resolve_render_params_precedence_witness :
  ∃ p d_w d_h,
    resolve_render_params sample_metadata "frame_000000.ply" RenderArgs_init
    = Ok p
    ∧ width p = 1920 ∧ height p = 1080
    ∧ focal_x p = Some 1000%float ∧ focal_y p = Some 1000%float
    ∧ float_of_int 1920 = Some d_w ∧ center_x p = (960 / d_w)%float
    ∧ float_of_int 1080 = Some d_h ∧ center_y p = (540 / d_h)%float
    ∧ fov_x p = None ∧ fov_y p = None.
Proof.
  pose proof (proj1 resolve_render_params_precedence sample_metadata
                "frame_000000.ply" RenderArgs_init) as H.
  cbv zeta in H.
  destruct (resolve_render_params sample_metadata "frame_000000.ply"
              RenderArgs_init) as [p|e] eqn:E; [|vm_compute in E; discriminate E].
  cbn in H.
  destruct H as (Hw & Hh & Hfx & Hfy & (d_w & Edw & Hcx) & (d_h & Edh & Hcy)
                 & Hfov & Hfovy).
  exists p, d_w, d_h. rewrite Hfx in Hfov. cbn in Hfov.
  repeat split; assumption.
Defined.

(** C6 as stated fails: not every combination is resolved. With the
    sample intrinsics embedded, [--width 2**1024] makes the resolver raise
    [OverflowError] instead of using the override; and with [--width 0] the
    centre is 0.5 although the file embeds the principal point 960. *)
Lemma resolve_render_params_not_every_combination :
  let args width :=
    {| a_width := Some width; a_height := None; a_fov_x := None;
       a_fov_y := None; a_focal_x := None; a_focal_y := None;
       a_center_x := None; a_center_y := None; use_ply_camera := true |} in
  resolve_render_params sample_metadata "frame_000000.ply" (args (2 ^ 1024))
  = Raise OverflowError
  ∧ (¬ ∃ p, resolve_render_params sample_metadata "frame_000000.ply"
              (args (2 ^ 1024)) = Ok p)
  ∧ k02 <$> (sample_metadata "frame_000000.ply").1 = Some 960%float
  ∧ resolve_render_params sample_metadata "frame_000000.ply" (args 0)
    = Ok {| width := 0; height := 1080; fov_x := None; fov_y := None;
            focal_x := Some 1000%float; focal_y := Some 1000%float;
            center_x := 0.5%float; center_y := 0.5%float |}.
Proof.
  intros args.
  assert (E : resolve_render_params sample_metadata "frame_000000.ply"
                (args (2 ^ 1024)) = Raise OverflowError)
    by (vm_compute; reflexivity).
  split; [exact E|]. split; [rewrite E; intros [p H]; discriminate H|].
  split; vm_compute; reflexivity.
Qed.

Lemma resolved_command_projection
    metadata str_float ply_path args p
    bin ply output cam_pos cam_rot background subsample extra :
  resolve_render_params metadata ply_path args = Ok p ->
  let cmd :=
    build_brush_command str_float bin ply output (Some (width p))
      (Some (height p)) (fov_x p) (fov_y p) (focal_x p) (focal_y p)
      (center_x p) (center_y p) cam_pos cam_rot background subsample extra in
  (∃ v, fov_x p = Some v ∧ carries cmd "--fov-x" (str_float v))
  ∨ (∃ v, focal_x p = Some v ∧ carries cmd "--focal-x" (str_float v)).
Proof.
  intros H cmd. subst cmd.
  destruct (resolve_fields metadata _ _ _ H)
    as (_ & _ & _ & _ & _ & _ & Hfov & _).
  destruct (fov_x p) as [v|] eqn:Ev.
  - left. exists v. split; [reflexivity|]. apply build_carries_fov_x.
  - destruct (focal_x p) as [v|] eqn:Ef.
    + right. exists v. split; [reflexivity|]. apply build_carries_focal_x.
    + destruct (a_fov_x args); discriminate Hfov.
Qed.

(** C7: a command line built from a resolved parameter set always carries
    [--fov-x] or [--focal-x] with the resolved value, and it carries
    [--fov-x 60] when no override and no embedded metadata gives a
    horizontal value. *)
Theorem invocation_has_horizontal_projection
    metadata str_float ply_path args p
    bin ply output cam_pos cam_rot background subsample extra :
  resolve_render_params metadata ply_path args = Ok p ->
  let cmd :=
    build_brush_command str_float bin ply output (Some (width p))
      (Some (height p)) (fov_x p) (fov_y p) (focal_x p) (focal_y p)
      (center_x p) (center_y p) cam_pos cam_rot background subsample extra in
  ((∃ v, fov_x p = Some v ∧ carries cmd "--fov-x" (str_float v))
   ∨ (∃ v, focal_x p = Some v ∧ carries cmd "--focal-x" (str_float v)))
  ∧ (a_fov_x args = None -> a_focal_x args = None ->
     (embedded metadata ply_path args).1 = None ->
     fov_x p = Some 60%float ∧ carries cmd "--fov-x" (str_float 60%float)).
Proof.
  intros H cmd. subst cmd.
  destruct (resolve_fields metadata _ _ _ H)
    as (_ & _ & Hfx & _ & _ & _ & Hfov & _).
  split.
  - exact (resolved_command_projection metadata str_float ply_path args p
             bin ply output cam_pos cam_rot background subsample extra H).
  - intros E1 E2 E3. rewrite Hfov, Hfx, E1, E2, E3. simpl.
    split; [reflexivity|]. apply build_carries_fov_x.
Qed.

Lemma invocation_has_horizontal_projection_witness :
  ∃ p, resolve_render_params no_metadata "frame_000000.ply" RenderArgs_init = Ok p
       ∧ carries
           (build_brush_command (fun _ => "f") "brush-render" "in/frame_000000.ply"
              "out/frame_000000_left.png" (Some (width p)) (Some (height p))
              (fov_x p) (fov_y p) (focal_x p) (focal_y p) (center_x p)
              (center_y p) (Vec3 0 0 0) (Vec4 0 0 0 1) (Vec3 0 0 0) None [])
           "--fov-x" "f".
Proof.
  eexists. split; [vm_compute; reflexivity|].
  refine (proj2 (proj2 (invocation_has_horizontal_projection no_metadata
            (fun _ => "f") "frame_000000.ply" RenderArgs_init _
            "brush-render" "in/frame_000000.ply" "out/frame_000000_left.png"
            (Vec3 0 0 0) (Vec4 0 0 0 1) (Vec3 0 0 0) None [] eq_refl)
          eq_refl eq_refl eq_refl)).
Defined.

(** C8: the left and right positions are the base position with half the
    interpupillary distance subtracted from, respectively added to, the X
    component; Y and Z are those of the base; no distance is refused. Base
    (0,0,0) with a distance of 0.064 gives (-0.032,0,0) and (0.032,0,0). *)
Theorem stereo_camera_positions_spec :
  (∀ x y z ipd : float,
     stereo_camera_positions (Vec3 x y z) ipd
     = (Vec3 (x - ipd * 0.5)%float y z, Vec3 (x + ipd * 0.5)%float y z))
  ∧ stereo_camera_positions (Vec3 0 0 0) 0.064%float
    = (Vec3 (-0.032)%float 0 0, Vec3 0.032%float 0 0).
Proof. split; [intros; reflexivity|vm_compute; reflexivity]. Qed.

End RenderFacts.

(** * Facts about names and numbers *)

Module PyFacts.
Import Py Spec.

(** Behind [startswith("frame_")] the split has a second part. *)
Lemma split1_frame s :
  startswith "frame_" s = true -> split1 "_" s !! 1%nat = Some (drop_str 6 s).
Proof.
  unfold startswith. intros H.
  do 6 (destruct s as [|? s]; [discriminate H|];
        cbn [String.prefix] in H;
        destruct (ascii_dec _ _) as [<-|]; [|discriminate H]).
  reflexivity.
Qed.

Lemma digits_val_uint d : ∀ acc,
  digits_val acc false (NilEmpty.string_of_uint d) = Some (uint_val d acc).
Proof. induction d; intros acc; [reflexivity|exact (IHd _) ..]. Qed.

Lemma all_digits_uint d : all_digits (NilEmpty.string_of_uint d) = true.
Proof. induction d; [reflexivity|exact IHd ..]. Qed.

Lemma uint_val_acc d : ∀ acc,
  uint_val d (Z.pos acc) = Z.pos (Pos.of_uint_acc d acc).
Proof.
  induction d; intros acc; cbn [uint_val Pos.of_uint_acc]; [reflexivity|..];
    match goal with
    | |- uint_val _ ?z = Z.pos (Pos.of_uint_acc _ ?q) =>
        replace z with (Z.pos q) by lia; apply IHd
    end.
Qed.

Lemma uint_val_N d : uint_val d 0 = Z.of_N (N.of_uint d).
Proof.
  unfold N.of_uint.
  induction d; cbn [uint_val Pos.of_uint]; [reflexivity|exact IHd|..];
    cbn [Z.of_N]; rewrite <- uint_val_acc; reflexivity.
Qed.

Lemma digits_val_digits n : digits_val 0 false (digits n) = Some (Z.of_N n).
Proof.
  unfold digits. rewrite digits_val_uint, uint_val_N, DecimalN.Unsigned.of_to.
  reflexivity.
Qed.

Lemma append_cons c s1 s2 : String c s1 ++ s2 = String c (s1 ++ s2).
Proof. reflexivity. Qed.

Lemma digits_val_zeros k s :
  digits_val 0 false (zeros k ++ s) = digits_val 0 false s.
Proof. induction k; [reflexivity|exact IHk]. Qed.

Lemma all_digits_app s1 s2 :
  all_digits (s1 ++ s2) = all_digits s1 && all_digits s2.
Proof.
  induction s1 as [|c s1 IH]; [reflexivity|].
  rewrite append_cons. cbn [all_digits].
  rewrite IH, andb_assoc. reflexivity.
Qed.

Lemma all_digits_zeros k : all_digits (zeros k) = true.
Proof. induction k; cbn; auto. Qed.

Lemma is_digit_not_space c : is_digit c = true -> is_space c = false.
Proof.
  unfold is_digit, is_space. cbv zeta.
  generalize (nat_of_ascii c). intros n H.
  apply andb_true_iff in H as [H1 H2].
  apply Nat.leb_le in H1, H2.
  apply orb_false_iff; split; apply andb_false_iff;
    right; apply Nat.leb_gt; lia.
Qed.

Lemma lstrip_digits s : all_digits s = true -> lstrip s = s.
Proof.
  destruct s as [|c s]; cbn; [reflexivity|].
  intros H. apply andb_true_iff in H as [H _].
  rewrite (is_digit_not_space _ H). reflexivity.
Qed.

Lemma rstrip_digits s : all_digits s = true -> rstrip s = s.
Proof.
  induction s as [|c s IH]; cbn; [reflexivity|].
  intros H. apply andb_true_iff in H as [Hc Hs].
  rewrite (IH Hs), (is_digit_not_space _ Hc). destruct s; reflexivity.
Qed.

Lemma parse_digits_all s :
  all_digits s = true -> s ≠ EmptyString -> parse_digits s = digits_val 0 false s.
Proof.
  destruct s as [|c s]; [congruence|]. cbn [all_digits parse_digits].
  intros H _. apply andb_true_iff in H as [-> _]. reflexivity.
Qed.

Lemma int_digits s :
  all_digits s = true -> s ≠ EmptyString -> int s = digits_val 0 false s.
Proof.
  intros H Hne. unfold int. rewrite (lstrip_digits _ H), (rstrip_digits _ H).
  rewrite <- (parse_digits_all _ H Hne).
  destruct s as [|c s]; [congruence|].
  cbn [all_digits] in H. apply andb_true_iff in H as [Hc _].
  destruct c as [[] [] [] [] [] [] [] []]; try reflexivity; discriminate Hc.
Qed.

Lemma int_minus_digits s :
  all_digits s = true -> s ≠ EmptyString ->
  int ("-" ++ s) = Z.opp <$> digits_val 0 false s.
Proof.
  intros H Hne. unfold int.
  change ("-" ++ s) with (String "-" s).
  change (lstrip (String "-" s)) with (String "-" s). cbn [rstrip].
  rewrite (rstrip_digits _ H), <- (parse_digits_all _ H Hne).
  destruct s; [congruence|reflexivity].
Qed.

Lemma padded_digits k n :
  let s := zeros (S k - String.length (digits n)) ++ digits n in
  all_digits s = true ∧ s ≠ EmptyString ∧ digits_val 0 false s = Some (Z.of_N n).
Proof.
  cbv zeta. split; [|split].
  - rewrite all_digits_app, all_digits_zeros. apply all_digits_uint.
  - destruct (digits n) as [|c d] eqn:E; [discriminate|].
    destruct (zeros _); discriminate.
  - rewrite digits_val_zeros. apply digits_val_digits.
Qed.

(** Reading back a formatted index gives the index. *)
Lemma int_format_06d z : int (format_06d z) = Some z.
Proof.
  unfold format_06d. destruct (Z.ltb_spec z 0) as [Hz|Hz].
  - destruct (padded_digits 4 (Z.to_N (- z))) as (H1 & H2 & H3).
    rewrite (int_minus_digits _ H1 H2), H3. cbn. f_equal. lia.
  - destruct (padded_digits 5 (Z.to_N z)) as (H1 & H2 & H3).
    rewrite (int_digits _ H1 H2), H3. f_equal. lia.
Qed.

Lemma format_06d_inj z1 z2 : format_06d z1 = format_06d z2 -> z1 = z2.
Proof.
  intros H. pose proof (int_format_06d z1) as H1.
  rewrite H, int_format_06d in H1. congruence.
Qed.

(** The helpers agree with CPython on sample names. *)
Lemma python_samples :
  stem "frame_000005_left.png" = "frame_000005_left"
  ∧ stem ".ply" = ".ply"
  ∧ split1 "_" "frame_1_2" = ["frame"; "1_2"]
  ∧ int "1_2" = Some 12 ∧ int " -0005 " = Some (-5)
  ∧ int "" = None ∧ int "1__2" = None ∧ int "_1" = None ∧ int "- 5" = None
  ∧ format_06d 5 = "000005" ∧ format_06d (-4) = "-00004"
  ∧ format_06d 12345678 = "12345678"
  ∧ replace_with_empty "_left" "a_le_leftftb" = "a_leftb"
  ∧ glob_star "frame_" "_left.png" "frame_left.png" = false
  ∧ glob_star "frame_" "_left.png" "frame__left.png" = true
  ∧ str_int (-120) = "-120".
Proof. repeat split; reflexivity. Qed.

(** ** Stems of frame and image names *)

Lemma length_append s1 s2 :
  String.length (s1 ++ s2) = (String.length s1 + String.length s2)%nat.
Proof.
  induction s1 as [|c s1 IH]; [reflexivity|].
  rewrite append_cons. cbn [String.length]. rewrite IH. reflexivity.
Qed.

Lemma take_str_append s1 s2 : take_str (String.length s1) (s1 ++ s2) = s1.
Proof.
  induction s1 as [|c s1 IH]; [destruct s2; reflexivity|].
  rewrite append_cons. cbn [String.length take_str]. rewrite IH. reflexivity.
Qed.

Lemma drop_str_append s1 s2 : drop_str (String.length s1) (s1 ++ s2) = s2.
Proof.
  induction s1 as [|c s1 IH]; [reflexivity|].
  rewrite append_cons. cbn [String.length drop_str]. exact IH.
Qed.

(** A three-letter extension without a dot is the last suffix. *)
Lemma rfind_ext s a b c :
  a ≠ "."%char -> b ≠ "."%char -> c ≠ "."%char ->
  rfind "." (s ++ String "." (String a (String b (String c EmptyString))))
  = Some (String.length s).
Proof.
  intros Ha Hb Hc. induction s as [|x s IH].
  - change (EmptyString ++ ?t) with t. cbn [rfind].
    rewrite (proj2 (Ascii.eqb_neq _ _) Ha), (proj2 (Ascii.eqb_neq _ _) Hb),
      (proj2 (Ascii.eqb_neq _ _) Hc), Ascii.eqb_refl. reflexivity.
  - rewrite append_cons. cbn [rfind String.length]. rewrite IH. reflexivity.
Qed.

Lemma stem_ext s a b c :
  a ≠ "."%char -> b ≠ "."%char -> c ≠ "."%char -> s ≠ EmptyString ->
  stem (s ++ String "." (String a (String b (String c EmptyString)))) = s.
Proof.
  intros Ha Hb Hc Hs. unfold stem. rewrite (rfind_ext _ _ _ _ Ha Hb Hc).
  rewrite length_append. cbn [String.length].
  destruct s as [|x s]; [congruence|]. cbn [String.length].
  replace (0 <? S (String.length s))%nat with true
    by (symmetry; apply Nat.ltb_lt; lia).
  replace (S (String.length s) <? S (String.length s) + 4 - 1)%nat with true
    by (symmetry; apply Nat.ltb_lt; lia).
  cbn [andb]. exact (take_str_append (String x s) _).
Qed.

Lemma stem_ply s : s ≠ EmptyString -> stem (s ++ ".ply") = s.
Proof. apply stem_ext; discriminate. Qed.

Lemma stem_png s : s ≠ EmptyString -> stem (s ++ ".png") = s.
Proof. apply stem_ext; discriminate. Qed.

Lemma numeric_digits s : all_digits s = true -> numeric s = true.
Proof.
  induction s as [|c s IH]; [reflexivity|]. cbn [all_digits numeric].
  intros H. apply andb_true_iff in H as [-> H]. rewrite (IH H). reflexivity.
Qed.

Lemma numeric_format_06d z : numeric (format_06d z) = true.
Proof.
  unfold format_06d. destruct (z <? 0).
  - change ("-" ++ ?t) with (String "-" t). cbn [numeric].
    change (is_digit "-" || Ascii.eqb "-" "-") with true.
    apply numeric_digits, (padded_digits 4).
  - apply numeric_digits, (padded_digits 5).
Qed.

Lemma numeric_head c s :
  numeric (String c s) = true -> c ≠ "_"%char ∧ c ≠ "l"%char ∧ c ≠ "r"%char.
Proof.
  cbn [numeric]. intros H. apply andb_true_iff in H as [H _].
  repeat split; intros ->; discriminate H.
Qed.

(** Deleting the eye tag from the stem of an image name. *)
Lemma replace_del_keep tag c t :
  String.prefix tag (String c t) = false ->
  replace_del tag 0 (String c t) = String c (replace_del tag 0 t).
Proof. intros H. cbn [replace_del]. rewrite H. reflexivity. Qed.

Lemma append_assoc s1 s2 s3 : (s1 ++ s2) ++ s3 = s1 ++ s2 ++ s3.
Proof.
  induction s1 as [|c s1 IH]; [reflexivity|].
  rewrite !append_cons, IH. reflexivity.
Qed.

Lemma append_empty_r s : s ++ EmptyString = s.
Proof.
  induction s as [|c s IH]; [reflexivity|].
  rewrite append_cons, IH. reflexivity.
Qed.

Lemma replace_del_numeric tag s :
  (∃ t, tag = String "_" t) -> numeric s = true ->
  replace_del tag 0 (s ++ tag) = s ++ replace_del tag 0 tag.
Proof.
  intros [t ->] H. induction s as [|c s IH]; [reflexivity|].
  rewrite !append_cons. destruct (numeric_head _ _ H) as (Hc & _).
  rewrite replace_del_keep.
  - cbn [numeric] in H. apply andb_true_iff in H as [_ H].
    rewrite (IH H). reflexivity.
  - cbn [String.prefix]. destruct (ascii_dec "_" c) as [E|_]; [congruence|].
    reflexivity.
Qed.

Lemma untag s tag l t :
  tag = String "_" (String l t) -> (l = "l" ∨ l = "r")%char ->
  replace_del tag 0 tag = EmptyString ->
  numeric s = true ->
  replace_with_empty tag ("frame_" ++ s ++ tag) = "frame_" ++ s.
Proof.
  intros -> Hl Htag H. unfold replace_with_empty.
  change ("frame_" ++ s ++ ?tag)
    with (String "f" (String "r" (String "a" (String "m" (String "e"
           (String "_" (s ++ tag))))))).
  rewrite !replace_del_keep.
  - rewrite (replace_del_numeric _ s (ex_intro _ _ eq_refl) H), Htag,
      append_empty_r.
    reflexivity.
  - destruct s as [|c s].
    + change (EmptyString ++ ?x) with x. cbn [String.prefix].
      destruct (ascii_dec "_" "_") as [_|N]; [|congruence].
      destruct (ascii_dec l "_") as [E|_]; [|reflexivity].
      destruct Hl; subst; discriminate.
    + destruct (numeric_head _ _ H) as (_ & H1 & H2).
      rewrite append_cons. cbn [String.prefix].
      destruct (ascii_dec "_" "_") as [_|N]; [|congruence].
      destruct (ascii_dec l c) as [E|_]; [|reflexivity].
      destruct Hl; congruence.
  - cbn [String.prefix]. destruct (ascii_dec "_" "e"); [discriminate|reflexivity].
  - cbn [String.prefix]. destruct (ascii_dec "_" "m"); [discriminate|reflexivity].
  - cbn [String.prefix]. destruct (ascii_dec "_" "a"); [discriminate|reflexivity].
  - cbn [String.prefix]. destruct (ascii_dec "_" "r"); [discriminate|reflexivity].
  - cbn [String.prefix]. destruct (ascii_dec "_" "f"); [discriminate|reflexivity].
Qed.

Lemma untag_left s :
  numeric s = true ->
  replace_with_empty "_left" ("frame_" ++ s ++ "_left") = "frame_" ++ s.
Proof. apply (untag s "_left" "l" "eft"); auto. Qed.

Lemma untag_right s :
  numeric s = true ->
  replace_with_empty "_right" ("frame_" ++ s ++ "_right") = "frame_" ++ s.
Proof. apply (untag s "_right" "r" "ight"); auto. Qed.

End PyFacts.

(** * Facts about the watcher and the per-frame orchestrator *)

Module WatcherFacts.
Import Sys Render Watcher Spec.

(** ** The stability check *)

Lemma is_stable_eval ply_path size w :
  is_stable ply_path (set_input [(ply_path, size)] w)
  = (Ok match seen_sizes w !! ply_path with
        | Some l => (l =? size) && (size >? 0)
        | None => false
        end,
     World [(ply_path, size)] (out w) (<[ply_path := size]> (seen_sizes w))
           (processed w) (tr w)).
Proof.
  unfold is_stable, bind, stat_size, set_input. simpl.
  rewrite decide_True by reflexivity. reflexivity.
Qed.

Lemma observe_first ply_path sizes w :
  seen_sizes w !! ply_path = None ->
  observe ply_path sizes w !! 0%nat = (fun _ => Ok false) <$> sizes !! 0%nat.
Proof.
  intros H. destruct sizes as [|size rest]; [reflexivity|].
  simpl. rewrite is_stable_eval, H. reflexivity.
Qed.

Lemma observe_next ply_path sizes : ∀ w k s1 s2,
  sizes !! k = Some s1 -> sizes !! S k = Some s2 ->
  observe ply_path sizes w !! S k = Some (Ok (bool_decide (s1 = s2 ∧ 0 < s2))).
Proof.
  induction sizes as [|size rest IH]; intros w k s1 s2 H1 H2; [discriminate|].
  simpl. rewrite is_stable_eval. destruct k as [|k].
  - simpl in H1. injection H1 as ->.
    destruct rest as [|size2 rest']; [discriminate|].
    simpl in H2. injection H2 as ->.
    simpl. rewrite is_stable_eval. simpl. rewrite lookup_insert_eq.
    do 2 f_equal. rewrite Z.gtb_ltb.
    destruct (Z.eqb_spec s1 s2), (Z.ltb_spec 0 s2); simpl;
      [rewrite bool_decide_eq_true_2 by lia
      |rewrite bool_decide_eq_false_2 by lia ..]; reflexivity.
  - simpl in H1, H2. simpl. exact (IH _ k s1 s2 H1 H2).
Qed.

(** C9: the first look at a file never makes it eligible; a later look
    does exactly when it finds the size of the look before unchanged and
    non-zero. Sizes 100, 100 make the file eligible at the second look;
    100, 150 do not, and after 100, 150 the file is eligible at the next
    look that finds 150 again. *)
Theorem is_stable_two_consecutive_sizes :
  (∀ ply_path sizes w,
     seen_sizes w !! ply_path = None ->
     observe ply_path sizes w !! 0%nat = (fun _ => Ok false) <$> sizes !! 0%nat)
  ∧ (∀ ply_path sizes w k s1 s2,
       sizes !! k = Some s1 -> sizes !! S k = Some s2 ->
       observe ply_path sizes w !! S k
       = Some (Ok (bool_decide (s1 = s2 ∧ 0 < s2))))
  ∧ observe "frame_000000.ply" [100; 100] (boot [] []) = [Ok false; Ok true]
  ∧ observe "frame_000000.ply" [100; 150] (boot [] []) = [Ok false; Ok false]
  ∧ observe "frame_000000.ply" [100; 150; 150] (boot [] [])
    = [Ok false; Ok false; Ok true]
  ∧ observe "frame_000000.ply" [0; 0] (boot [] []) = [Ok false; Ok false].
Proof.
  split; [exact observe_first|]. split; [exact observe_next|].
  repeat split; vm_compute; reflexivity.
Qed.

Lemma is_stable_two_consecutive_sizes_witness :
  observe "frame_000000.ply" [100; 150; 150] (boot [] []) !! 2%nat
  = Some (Ok true).
Proof.
  exact (proj1 (proj2 is_stable_two_consecutive_sizes)
           "frame_000000.ply" [100; 150; 150] (boot [] []) 1%nat 150 150
           eq_refl eq_refl).
Defined.

(** ** Frame names and indices *)

Lemma frame_stem_nonempty t : "frame_" ++ t ≠ EmptyString.
Proof. discriminate. Qed.

Lemma startswith_frame t : Py.startswith "frame_" ("frame_" ++ t) = true.
Proof.
  unfold Py.startswith.
  change ("frame_" ++ t)
    with (String "f" (String "r" (String "a" (String "m" (String "e"
           (String "_" t)))))).
  destruct t; reflexivity.
Qed.

Lemma stem_expected_name i :
  Py.stem (expected_name i) = "frame_" ++ Py.format_06d i.
Proof.
  unfold expected_name.
  change ("frame_" ++ Py.format_06d i ++ ".ply")
    with (("frame_" ++ Py.format_06d i) ++ ".ply").
  apply PyFacts.stem_ply, frame_stem_nonempty.
Qed.

Lemma frame_index_from_stem_format i :
  frame_index_from_stem ("frame_" ++ Py.format_06d i) = Some i.
Proof.
  unfold frame_index_from_stem. rewrite startswith_frame.
  rewrite PyFacts.split1_frame by apply startswith_frame.
  change (Py.drop_str 6 ("frame_" ++ Py.format_06d i)) with (Py.format_06d i).
  apply PyFacts.int_format_06d.
Qed.

(** The index of the expected name is the counter it was made from. *)
Lemma ply_index_expected_name i : ply_index (expected_name i) = i.
Proof.
  unfold ply_index. rewrite stem_expected_name.
  pose proof (frame_index_from_stem_format i) as H.
  unfold frame_index_from_stem in H.
  destruct (Py.startswith _ _); [|discriminate].
  destruct (_ !! _); [|discriminate]. rewrite H. reflexivity.
Qed.

Lemma expected_name_inj i j : expected_name i = expected_name j -> i = j.
Proof.
  intros H. rewrite <- (ply_index_expected_name i), H.
  apply ply_index_expected_name.
Qed.

Lemma left_name_expected i :
  left_name (expected_name i) = "frame_" ++ Py.format_06d i ++ "_left.png".
Proof. unfold left_name. rewrite stem_expected_name. reflexivity. Qed.

Lemma right_name_expected i :
  right_name (expected_name i) = "frame_" ++ Py.format_06d i ++ "_right.png".
Proof. unfold right_name. rewrite stem_expected_name. reflexivity. Qed.

Lemma glob_star_frame t suffix :
  Py.glob_star "frame_" suffix ("frame_" ++ t ++ suffix) = true.
Proof.
  unfold Py.glob_star. rewrite startswith_frame.
  change (Py.drop_str (String.length "frame_") ("frame_" ++ t ++ suffix))
    with (t ++ suffix).
  cbn [andb]. unfold Py.endswith.
  rewrite PyFacts.length_append.
  replace (String.length suffix <=? String.length t + String.length suffix)%nat
    with true by (symmetry; apply Nat.leb_le; lia).
  replace (String.length t + String.length suffix - String.length suffix)%nat
    with (String.length t) by lia.
  rewrite PyFacts.drop_str_append. cbn [andb]. apply String.eqb_refl.
Qed.

(** The images of frame [i] are read as index [i]. *)
Lemma image_index_left i :
  image_index "_left.png" "_left"
    ("frame_" ++ Py.format_06d i ++ "_left.png") = Some i.
Proof.
  unfold image_index. rewrite glob_star_frame.
  replace ("frame_" ++ Py.format_06d i ++ "_left.png")
    with (("frame_" ++ Py.format_06d i ++ "_left") ++ ".png")
    by (rewrite !PyFacts.append_assoc; reflexivity).
  rewrite PyFacts.stem_png by apply frame_stem_nonempty.
  rewrite PyFacts.untag_left by apply PyFacts.numeric_format_06d.
  apply frame_index_from_stem_format.
Qed.

Lemma image_index_right i :
  image_index "_right.png" "_right"
    ("frame_" ++ Py.format_06d i ++ "_right.png") = Some i.
Proof.
  unfold image_index. rewrite glob_star_frame.
  replace ("frame_" ++ Py.format_06d i ++ "_right.png")
    with (("frame_" ++ Py.format_06d i ++ "_right") ++ ".png")
    by (rewrite !PyFacts.append_assoc; reflexivity).
  rewrite PyFacts.stem_png by apply frame_stem_nonempty.
  rewrite PyFacts.untag_right by apply PyFacts.numeric_format_06d.
  apply frame_index_from_stem_format.
Qed.

(** ** The counter the sequential watcher starts from *)

Lemma max_list_spec l : ∀ x,
  max_list x l ∈ x :: l ∧ ∀ y, y ∈ x :: l -> y ≤ max_list x l.
Proof.
  unfold max_list. induction l as [|z l IH]; intros x; cbn [fold_left].
  - split; [left|]. intros y Hy. apply list_elem_of_singleton in Hy. lia.
  - destruct (IH (Z.max x z)) as [Hin Hmax]. split.
    + apply elem_of_cons in Hin as [Hin|Hin]; [|right; right; exact Hin].
      rewrite Hin. destruct (Z.max_spec x z) as [[_ ->]|[_ ->]];
        [right; left|left].
    + intros y Hy.
      assert (Z.max x z ≤ fold_left Z.max l (Z.max x z)) by (apply Hmax; left).
      apply elem_of_cons in Hy as [->|Hy]; [lia|].
      apply elem_of_cons in Hy as [->|Hy]; [lia|].
      apply Hmax. right. exact Hy.
Qed.

Lemma elem_of_output_indices suffix tag names i :
  i ∈ output_indices suffix tag names
  ↔ ∃ name, name ∈ names ∧ image_index suffix tag name = Some i.
Proof.
  unfold output_indices, image_index. rewrite list_elem_of_omap. split.
  - intros (name & Hin & Hi). apply list_elem_of_filter in Hin as [Hg Hin].
    exists name. split; [exact Hin|].
    apply Is_true_true in Hg. rewrite Hg. exact Hi.
  - intros (name & Hin & Hi). exists name.
    destruct (Py.glob_star "frame_" suffix name) eqn:Hg; [|discriminate].
    split; [|exact Hi]. apply list_elem_of_filter. split; [|exact Hin].
    apply Is_true_true. exact Hg.
Qed.

Lemma next_expected_index_highest w :
  ∃ n,
    next_expected_index w = (Ok n, w)
    ∧ ((n = 0 ∧ ∀ name i, name ∈ out w -> ¬ is_image_of name i)
       ∨ ((∃ name, name ∈ out w ∧ is_image_of name (n - 1))
          ∧ ∀ name i, name ∈ out w -> is_image_of name i -> i < n)).
Proof.
  unfold next_expected_index.
    assert (Hex : ∀ i,
      i ∈ (output_indices "_left.png" "_left" (out w)
           ++ output_indices "_right.png" "_right" (out w))%list
      ↔ ∃ name, name ∈ out w ∧ is_image_of name i).
    { intros i. rewrite elem_of_app, !elem_of_output_indices.
      unfold is_image_of. split.
      - intros [(name & ? & ?)|(name & ? & ?)]; exists name; auto.
      - intros (name & ? & [?|?]); [left|right]; exists name; auto. }
    destruct (_ ++ _)%list as [|x l].
    + exists 0. split; [reflexivity|]. left. split; [reflexivity|].
      intros name i Hin Hi. apply (not_elem_of_nil i), Hex. eauto.
    + exists (max_list x l + 1). split; [reflexivity|]. right.
      destruct (max_list_spec l x) as [Hin Hmax]. split.
      * replace (max_list x l + 1 - 1) with (max_list x l) by lia.
        apply Hex, Hin.
      * intros name i Hn Hi.
        assert (i ≤ max_list x l) by (apply Hmax, Hex; eauto). lia.
Qed.

(** C2 as amended: the counter starts at 0 when no image of the output
    directory stands for a frame index, and otherwise one past the highest
    index for which an image of either eye exists; the left or the right
    image of frame [i] alone stands for index [i]. *)
Theorem next_expected_index_spec :
  (∀ w, ∃ n,
     next_expected_index w = (Ok n, w)
     ∧ ((n = 0 ∧ ∀ name i, name ∈ out w -> ¬ is_image_of name i)
        ∨ ((∃ name, name ∈ out w ∧ is_image_of name (n - 1))
           ∧ ∀ name i, name ∈ out w -> is_image_of name i -> i < n)))
  ∧ ∀ i, is_image_of ("frame_" ++ Py.format_06d i ++ "_left.png") i
         ∧ is_image_of ("frame_" ++ Py.format_06d i ++ "_right.png") i.
Proof.
  split; [exact next_expected_index_highest|].
  intros i. split; [left; apply image_index_left|right; apply image_index_right].
Qed.

Lemma next_expected_index_spec_witness :
  ∃ n, next_expected_index (boot [] ["frame_000004_right.png"]) 
       = (Ok n, boot [] ["frame_000004_right.png"])
    ∧ ∀ name i, name ∈ ["frame_000004_right.png"] -> is_image_of name i -> i < n.
Proof.
  destruct (proj1 next_expected_index_spec (boot [] ["frame_000004_right.png"]))
    as (n & E & [[-> H]|[_ H]]).
  - exfalso. apply (H "frame_000004_right.png" 4); [left|].
    right. vm_compute. reflexivity.
  - exists n. split; [exact E|exact H].
Defined.

(** C2 as stated fails: with frame 0 rendered and only the left image of
    frame 1 written, the counter starts at 2, although frame 1 is not done
    and the highest fully rendered index is 0. *)
Lemma next_expected_index_counts_half_rendered :
  let names := ["frame_000000_left.png"; "frame_000000_right.png";
                "frame_000001_left.png"] in
  (next_expected_index (boot [] names)).1 = Ok 2
  ∧ one_past_highest_fully_rendered names = 1
  ∧ done names "frame_000001.ply" = false
  ∧ (next_expected_index (boot [] names)).1
    ≠ Ok (one_past_highest_fully_rendered names).
Proof.
  intros names. repeat split; try (vm_compute; reflexivity).
  vm_compute. discriminate.
Qed.

(** ** [sorted(xs, key=key)] *)

Section Sorting.

Context {A : Type} (key : A -> Z).

Lemma insert_by_perm x l : insert_by key x l ≡ₚ x :: l.
Proof.
  induction l as [|y l IH]; cbn [insert_by]; [reflexivity|].
  destruct (key x <=? key y); [reflexivity|].
  rewrite IH. apply Permutation_swap.
Qed.

Lemma sorted_by_perm l : sorted_by key l ≡ₚ l.
Proof.
  induction l as [|x l IH]; cbn [sorted_by]; [reflexivity|].
  rewrite insert_by_perm, IH. reflexivity.
Qed.

Lemma insert_by_sorted x l :
  StronglySorted (key_le key) l -> StronglySorted (key_le key) (insert_by key x l).
Proof.
  induction 1 as [|y l Hl IH Hy]; cbn [insert_by].
  - repeat constructor.
  - destruct (Z.leb_spec (key x) (key y)) as [Hxy|Hxy].
    + constructor; [constructor; assumption|].
      constructor; [exact Hxy|].
      eapply Forall_impl; [exact Hy|]. unfold key_le. intros; lia.
    + constructor; [exact IH|].
      rewrite insert_by_perm. constructor; [unfold key_le; lia|exact Hy].
Qed.

Lemma sorted_by_sorted l : StronglySorted (key_le key) (sorted_by key l).
Proof.
  induction l as [|x l IH]; cbn [sorted_by];
    [constructor|apply insert_by_sorted, IH].
Qed.




End Sorting.

(** ** The per-frame orchestrator *)

Section WithEnvironment.

Variable parse_ply_metadata : string -> option mat3 * option (Z * Z).
Variable str_float : float -> string.
Variable brush : nat -> list string -> Z * bool.
Variable producer : nat -> list (string * Z) -> list (string * Z).
Variable cfg : config.

Lemma render_file_eval ply_path output p pos w :
  render_file str_float brush (input_dir cfg) (output_dir cfg) ply_path output
    (brush_bin cfg) p pos DEFAULT_CAM_ROT DEFAULT_BG None [] false w
  = let cmd := eye_cmd str_float cfg ply_path output p pos in
    let answer := brush (length (tr w)) cmd in
    (Ok answer.1,
     World (inp w) (wrote answer output (out w)) (seen_sizes w) (processed w)
           (tr w ++ [EvRun ply_path output cmd])).
Proof.
  unfold render_file, bind, subprocess_run, eye_cmd, wrote, ret. simpl.
  destruct (brush _ _) as [code leaves]. simpl.
  destruct (Z.eqb_spec code 0) as [->|]; reflexivity.
Qed.

Lemma render_stereo_from_ply_eval ply_path p w :
  resolve_render_params parse_ply_metadata ply_path RenderArgs_init = Ok p ->
  let n := length (tr w) in
  let l := brush (S n) (left_cmd str_float cfg ply_path p) in
  let r := brush (S (S n)) (right_cmd str_float cfg ply_path p) in
  let ev_l := EvRun ply_path (left_name ply_path) (left_cmd str_float cfg ply_path p) in
  let ev_r := EvRun ply_path (right_name ply_path) (right_cmd str_float cfg ply_path p) in
  let out_l := wrote l (left_name ply_path) (out w) in
  let out_r := wrote r (right_name ply_path) out_l in
  render_stereo_from_ply parse_ply_metadata str_float brush cfg ply_path w
  = if negb (l.1 =? 0) then
      (Raise (RuntimeError ("brush-render failed for " ++ ply_path ++ " (left)")),
       World (inp w) out_l (seen_sizes w) (processed w)
             (tr w ++ [EvResolve ply_path; ev_l]))
    else if negb (r.1 =? 0) then
      (Raise (RuntimeError ("brush-render failed for " ++ ply_path ++ " (right)")),
       World (inp w) out_r (seen_sizes w) (processed w)
             (tr w ++ [EvResolve ply_path; ev_l; ev_r]))
    else
      (Ok tt,
       World (inp w) out_r (seen_sizes w) (processed w)
             (tr w ++ [EvResolve ply_path; ev_l; ev_r])).
Proof.
  intros Hp. cbv zeta.
  unfold render_stereo_from_ply. rewrite Hp.
  unfold left_cmd, right_cmd.
  destruct (stereo_camera_positions DEFAULT_CAM_POS (ipd cfg))
    as [left_pos right_pos].
  unfold bind, emit, raise, ret. rewrite render_file_eval.
  cbn [tr out inp seen_sizes processed fst snd].
  rewrite length_app, Nat.add_1_r.
  destruct (Z.eqb_spec (brush (S (length (tr w)))
              (eye_cmd str_float cfg ply_path (left_name ply_path) p left_pos)).1 0) as [El|El];
    cbn [negb].
  - rewrite render_file_eval. cbn [tr out inp seen_sizes processed fst snd].
    rewrite length_app, Nat.add_1_r, length_app, Nat.add_1_r.
    rewrite <- !app_assoc. cbn [app].
    destruct (Z.eqb_spec (brush (S (S (length (tr w))))
                (eye_cmd str_float cfg ply_path (right_name ply_path) p right_pos)).1 0);
      reflexivity.
  - rewrite <- !app_assoc. reflexivity.
Qed.

(** C5: the left eye is invoked first; a non-zero exit status of the left
    eye raises at once an error that names the file and [(left)], and the
    right eye is not invoked; after a successful left eye the right eye is
    invoked, and its failure raises an error that names the file and
    [(right)]. *)
Theorem render_stereo_from_ply_fail_fast ply_path p w :
  resolve_render_params parse_ply_metadata ply_path RenderArgs_init = Ok p ->
  let n := length (tr w) in
  let code_l := (brush (S n) (left_cmd str_float cfg ply_path p)).1 in
  let code_r := (brush (S (S n)) (right_cmd str_float cfg ply_path p)).1 in
  let ev_l := EvRun ply_path (left_name ply_path) (left_cmd str_float cfg ply_path p) in
  let ev_r := EvRun ply_path (right_name ply_path) (right_cmd str_float cfg ply_path p) in
  let res := render_stereo_from_ply parse_ply_metadata str_float brush cfg ply_path w in
  (code_l ≠ 0 ->
   res.1 = Raise (RuntimeError ("brush-render failed for " ++ ply_path ++ " (left)"))
   ∧ tr res.2 = (tr w ++ [EvResolve ply_path; ev_l])%list)
  ∧ (code_l = 0 ->
     tr res.2 = (tr w ++ [EvResolve ply_path; ev_l; ev_r])%list
     ∧ (code_r ≠ 0 ->
        res.1 = Raise (RuntimeError ("brush-render failed for " ++ ply_path ++ " (right)")))
     ∧ (code_r = 0 -> res.1 = Ok tt)).
Proof.
  intros Hp. cbv zeta. rewrite (render_stereo_from_ply_eval _ _ w Hp). cbv zeta.
  destruct (Z.eqb_spec (brush (S (length (tr w))) (left_cmd str_float cfg ply_path p)).1 0)
    as [El|El]; cbn [negb].
  - split; [intros H; contradiction|]. intros _.
    destruct (Z.eqb_spec (brush (S (S (length (tr w)))) (right_cmd str_float cfg ply_path p)).1 0)
      as [Er|Er]; cbn [negb fst snd tr];
      (split; [reflexivity|]); split; intros H; try reflexivity; contradiction.
  - split; [intros _; split; reflexivity|]. intros H; contradiction.
Qed.

(** What one run of the orchestrator on a frame leaves behind. *)
Lemma render_stereo_from_ply_effect ply_path w :
  let res := render_stereo_from_ply parse_ply_metadata str_float brush cfg ply_path w in
  ∃ evs, tr res.2 = (tr w ++ evs)%list
    ∧ Forall (fun e => frame_of e = Some ply_path) evs
    ∧ yielded evs = [ply_path]
    ∧ inp res.2 = inp w
    ∧ seen_sizes res.2 = seen_sizes w
    ∧ ∀ name, exists_in (out w) name = true -> exists_in (out res.2) name = true.
Proof.
  cbv zeta.
  destruct (resolve_render_params parse_ply_metadata ply_path RenderArgs_init)
    as [p|e] eqn:Hp.
  - rewrite (render_stereo_from_ply_eval _ _ w Hp). cbv zeta.
    assert (Hw : ∀ answer output names name,
               exists_in names name = true ->
               exists_in (wrote answer output names) name = true).
    { intros [c [|]] output names name H; unfold wrote, create; cbn [snd]; [|exact H].
      destruct (exists_in names output); [exact H|].
      unfold exists_in in *. rewrite existsb_app, H. reflexivity. }
    destruct (negb _); [|destruct (negb _)]; cbn [fst snd tr inp out seen_sizes];
      eexists; (split; [reflexivity|]);
      (split; [repeat constructor|]);
      (split; [reflexivity|]); (split; [reflexivity|]); (split; [reflexivity|]);
      intros name H; repeat apply Hw; exact H.
  - unfold render_stereo_from_ply, bind, emit, raise. rewrite Hp.
    cbn [fst snd tr inp out seen_sizes].
    exists [EvResolve ply_path]. repeat split; try reflexivity; auto.
Qed.

Lemma should_process_eval ply_path w :
  should_process ply_path w = (Ok (negb (done (out w) ply_path)), w).
Proof.
  unfold should_process, done.
  destruct (exists_in _ _ && exists_in _ _); reflexivity.
Qed.

Lemma is_stable_effect ply_path w :
  let res := is_stable ply_path w in
  tr res.2 = tr w ∧ out res.2 = out w ∧ inp res.2 = inp w.
Proof.
  cbv zeta. unfold is_stable, bind, stat_size.
  destruct (list_find _ _) as [[? [? ?]]|]; cbn; repeat split; reflexivity.
Qed.

Lemma process_frame_effect ply_path w r w' :
  process_frame parse_ply_metadata str_float brush cfg ply_path w = (r, w') ->
  ∃ evs, tr w' = (tr w ++ evs)%list
    ∧ Forall (fun e => frame_of e = Some ply_path) evs
    ∧ yielded evs = (if eligible cfg w ply_path then [ply_path] else [])
    ∧ (eligible cfg w ply_path = false -> evs = [])
    ∧ ∀ name, exists_in (out w) name = true -> exists_in (out w') name = true.
Proof.
  unfold process_frame, eligible.
  unfold bind at 1. rewrite should_process_eval.
  destruct (done (out w) ply_path) eqn:Hd; cbn [negb andb].
  { intros [= <- <-]. exists []. rewrite app_nil_r. repeat split; auto. }
  assert (Hgo : ∀ w1, tr w1 = tr w -> out w1 = out w ->
    (let* _ := render_stereo_from_ply parse_ply_metadata str_float
                 brush cfg ply_path in
     let* _ := (if keep_temp cfg then ret tt else unlink ply_path) in
     let* _ := processed_add ply_path in ret true)%py w1 = (r, w') ->
    ∃ evs, tr w' = (tr w ++ evs)%list
      ∧ Forall (fun e => frame_of e = Some ply_path) evs
      ∧ yielded evs = [ply_path]
      ∧ ∀ name, exists_in (out w) name = true -> exists_in (out w') name = true).
  { intros w1 Ht Ho.
    destruct (render_stereo_from_ply_effect ply_path w1)
      as (evs & E1 & E2 & E3 & _ & _ & E6).
    rewrite Ht in E1. rewrite Ho in E6.
    unfold bind at 1.
    destruct (render_stereo_from_ply _ _ _ _ _ w1) as [[[]|e] w2];
      cbn [fst snd] in *.
    - unfold bind, ret, unlink, processed_add.
      destruct (keep_temp cfg); intros [= <- <-]; exists evs; cbn [tr out]; auto.
    - intros [= <- <-]. exists evs. auto. }
  destruct (watch cfg).
  - unfold bind at 1.
    destruct (is_stable_effect ply_path w) as (Ht & Ho & _).
    destruct (is_stable ply_path w) as [[stable|e] w1]; cbn [fst snd] in *.
    + destruct stable; cbn [negb].
      * intros E. destruct (Hgo w1 Ht Ho E) as (evs & E1 & E2 & E3 & E4).
        exists evs. repeat split; auto. discriminate.
      * intros [= <- <-]. exists []. rewrite Ht, Ho, app_nil_r.
        repeat split; auto.
    + intros [= <- <-]. exists []. rewrite Ht, Ho, app_nil_r. repeat split; auto.
  - unfold bind at 1, ret at 1. cbn [negb].
    intros E. destruct (Hgo w eq_refl eq_refl E) as (evs & E1 & E2 & E3 & E4).
    exists evs. repeat split; auto. discriminate.
Qed.

Lemma process_files_effect ply_files : ∀ any w r w',
  process_files parse_ply_metadata str_float brush cfg ply_files any w = (r, w') ->
  ∃ evs, tr w' = (tr w ++ evs)%list
    ∧ yielded evs `sublist_of` ply_files
    ∧ (∀ ply_path, done (out w) ply_path = true ->
       Forall (fun e => frame_of e ≠ Some ply_path) evs)
    ∧ ∀ name, exists_in (out w) name = true -> exists_in (out w') name = true.
Proof.
  induction ply_files as [|q rest IH]; intros any w r w'.
  - intros [= <- <-]. exists []. rewrite app_nil_r.
    repeat split; auto; constructor.
  - cbn [process_files]. unfold bind at 1.
    destruct (process_frame _ _ _ _ q w) as [[rendered|e] w1] eqn:E1.
    + intros E2.
      destruct (process_frame_effect _ _ _ _ E1) as (evs1 & T1 & F1 & Y1 & N1 & O1).
      destruct (IH _ _ _ _ E2) as (evs2 & T2 & S2 & D2 & O2).
      exists (evs1 ++ evs2)%list. split; [rewrite T2, T1, app_assoc; reflexivity|].
      split; [|split].
      * unfold yielded in *. rewrite omap_app, Y1.
        destruct (eligible cfg w q); cbn [app];
          [apply sublist_skip|apply sublist_cons]; exact S2.
      * intros ply_path Hd. apply Forall_app. split.
        -- destruct (eligible cfg w q) eqn:El.
           ++ eapply Forall_impl; [exact F1|]. cbv beta. intros e -> [= ->].
              unfold eligible in El. rewrite Hd in El. discriminate.
           ++ rewrite (N1 eq_refl). constructor.
        -- apply D2. unfold done in *.
           apply andb_true_iff in Hd as [H1 H2].
           rewrite (O1 _ H1), (O1 _ H2). reflexivity.
      * auto.
    + intros [= <- <-].
      destruct (process_frame_effect _ _ _ _ E1) as (evs1 & T1 & F1 & Y1 & N1 & O1).
      exists evs1. split; [exact T1|]. split; [|split].
      * rewrite Y1. destruct (eligible cfg w q);
          [apply sublist_skip|]; apply sublist_nil_l.
      * intros ply_path Hd. destruct (eligible cfg w q) eqn:El.
        -- eapply Forall_impl; [exact F1|]. cbv beta. intros ev -> [= ->].
           unfold eligible in El. rewrite Hd in El. discriminate.
        -- rewrite (N1 eq_refl). constructor.
      * exact O1.
Qed.

Lemma process_once_effect w r w' :
  process_once parse_ply_metadata str_float brush cfg w = (r, w') ->
  ∃ evs, tr w' = (tr w ++ evs)%list
    ∧ yielded evs
      `sublist_of` match input_is cfg with
                   | InputFile name => [name]
                   | InputDir => sorted_by ply_index (glob_ply (inp w))
                   end
    ∧ (∀ ply_path, done (out w) ply_path = true ->
       Forall (fun e => frame_of e ≠ Some ply_path) evs).
Proof.
  unfold process_once, bind, list_ply_files.
  assert (H : ∀ ply_files,
    match ply_files with
    | [] => ret false
    | _ :: _ => process_files parse_ply_metadata str_float brush cfg ply_files false
    end w = (r, w') ->
    ∃ evs, tr w' = (tr w ++ evs)%list ∧ yielded evs `sublist_of` ply_files
      ∧ (∀ ply_path, done (out w) ply_path = true ->
         Forall (fun e => frame_of e ≠ Some ply_path) evs)).
  { intros [|q rest].
    - intros [= <- <-]. exists []. rewrite app_nil_r. repeat split; auto; constructor.
    - intros E. destruct (process_files_effect _ _ _ _ _ E) as (evs & ? & ? & ? & _).
      exists evs. auto. }
  destruct (input_is cfg) as [name|];
    [exact (H [name])|exact (H (sorted_by ply_index (glob_ply (inp w))))].
Qed.

(** C3: a frame whose left and right images both exist is passed over
    without any effect, and a whole pass of [process_once] neither runs the
    parameter resolver nor invokes the renderer for such a frame. *)
Theorem done_frame_is_skipped ply_path w :
  done (out w) ply_path = true ->
  process_frame parse_ply_metadata str_float brush cfg ply_path w = (Ok false, w)
  ∧ ∀ r w',
      process_once parse_ply_metadata str_float brush cfg w = (r, w') ->
      ∃ evs, tr w' = (tr w ++ evs)%list
        ∧ Forall (fun e => e ≠ EvResolve ply_path
                           ∧ ∀ output cmd, e ≠ EvRun ply_path output cmd) evs.
Proof.
  intros Hd. split.
  - unfold process_frame, bind. rewrite should_process_eval, Hd. reflexivity.
  - intros r w' E.
    destruct (process_once_effect _ _ _ E) as (evs & T & _ & D).
    exists evs. split; [exact T|].
    eapply Forall_impl; [exact (D _ Hd)|]. cbv beta.
    intros e He. split; [|intros output cmd]; intros ->; apply He; reflexivity.
Qed.

(** ** What a frame leaves alone *)













(** X21: every renderer invocation of the orchestrator carries a horizontal
    projection option. *)
Lemma orchestrator_invocations_carry_projection ply_path w r w' :
  render_stereo_from_ply parse_ply_metadata str_float brush cfg ply_path w
  = (r, w') ->
  ∃ evs, tr w' = (tr w ++ evs)%list
    ∧ Forall (fun e =>
                match e with
                | EvRun _ _ cmd =>
                    ∃ v, carries cmd "--fov-x" (str_float v)
                         ∨ carries cmd "--focal-x" (str_float v)
                | _ => True
                end) evs.
Proof.
  destruct (resolve_render_params parse_ply_metadata ply_path RenderArgs_init)
    as [p|e] eqn:Hp.
  - rewrite (render_stereo_from_ply_eval _ _ w Hp). cbv zeta.
    assert (Hc : ∀ output pos,
              ∃ v, carries (eye_cmd str_float cfg ply_path output p pos)
                           "--fov-x" (str_float v)
                   ∨ carries (eye_cmd str_float cfg ply_path output p pos)
                             "--focal-x" (str_float v)).
    { intros output pos. unfold eye_cmd.
      destruct (RenderFacts.resolved_command_projection parse_ply_metadata
                  str_float ply_path RenderArgs_init p (brush_bin cfg)
                  (input_dir cfg ++ "/" ++ ply_path)
                  (output_dir cfg ++ "/" ++ output) pos DEFAULT_CAM_ROT
                  DEFAULT_BG None [] Hp) as [(v & _ & H)|(v & _ & H)];
        exists v; [left|right]; exact H. }
    destruct (negb _); [|destruct (negb _)]; intros [= <- <-];
      eexists; (split; [reflexivity|]); repeat constructor; apply Hc.
  - unfold render_stereo_from_ply, bind, emit, raise. rewrite Hp.
    intros [= <- <-]. exists [EvResolve ply_path].
    split; [reflexivity|]. repeat constructor.
Qed.


(** ** The sequential discipline *)

Lemma stat_size_present name w :
  exists_in (fst <$> inp w) name = true -> ∃ size, stat_size name w = (Ok size, w).
Proof.
  intros H. unfold stat_size.
  destruct (list_find _ _) as [[k [n size]]|] eqn:E; [eauto|].
  exfalso. apply list_find_None in E.
  unfold exists_in in H. apply existsb_exists in H as (x & Hin & Hx).
  apply String.eqb_eq in Hx. subst x.
  apply list_elem_of_In, list_elem_of_fmap in Hin as (e & He & Hin).
  rewrite Forall_forall in E. apply (E e Hin). symmetry. exact He.
Qed.

Lemma sequential_cycle_idle expected_index w :
  unseen_from w expected_index ->
  let present := exists_in (fst <$> inp w) (expected_name expected_index) in
  ∃ w',
    sequential_cycle parse_ply_metadata str_float brush cfg expected_index w
    = (Ok (if present then expected_index + 1 else expected_index), w')
    ∧ tr w' = (tr w ++ if present then [] else [EvSleep])%list
    ∧ out w' = out w ∧ inp w' = inp w
    ∧ unseen_from w' (if present then expected_index + 1 else expected_index).
Proof.
  intros Hun. cbv zeta. unfold sequential_cycle.
  destruct (exists_in (fst <$> inp w) _) eqn:Hp.
  - unfold bind at 1. rewrite should_process_eval.
    destruct (done (out w) _); cbn [negb].
    + exists w. unfold bind, ret. rewrite app_nil_r.
      repeat split; auto. intros j Hj. apply Hun. lia.
    + unfold bind at 1. unfold is_stable, bind at 1.
      destruct (stat_size_present _ _ Hp) as [size ->].
      rewrite (Hun expected_index) by lia.
      eexists. unfold bind, ret. cbn [andb]. split; [reflexivity|].
      cbn [tr out inp seen_sizes]. rewrite app_nil_r.
      repeat split; auto. intros j Hj. cbn [seen_sizes].
      rewrite lookup_insert_ne; [apply Hun; lia|].
      intros E. apply expected_name_inj in E. lia.
  - exists (World (inp w) (out w) (seen_sizes w) (processed w) (tr w ++ [EvSleep])).
    repeat split; auto.
Qed.

Lemma sequential_loop_idle fuel : ∀ cycle expected_index w,
  sequential cfg = true ->
  unseen_from w expected_index ->
  ∃ next w',
    watch_loop parse_ply_metadata str_float brush producer cfg fuel cycle
      expected_index w = (Ok (Watching next), w')
    ∧ (∃ evs, tr w' = (tr w ++ evs)%list ∧ Forall (fun e => e = EvSleep) evs)
    ∧ out w' = out w.
Proof.
  induction fuel as [|fuel IH]; intros cycle expected_index w Hs Hun.
  - exists expected_index, w. repeat split; auto.
    exists []. rewrite app_nil_r. auto.
  - cbn [watch_loop]. unfold bind at 1, produce at 1. rewrite Hs.
    set (w1 := World (producer cycle (inp w)) (out w) (seen_sizes w)
                     (processed w) (tr w)).
    destruct (sequential_cycle_idle expected_index w1 Hun)
      as (w2 & E & T & O & _ & Hun2).
    unfold bind at 1. rewrite E.
    destruct (IH (S cycle) _ w2 Hs Hun2) as (next & w' & E' & (evs & T' & F') & O').
    exists next, w'. split; [exact E'|]. split.
    + eexists. split; [rewrite T', T; cbn [tr w1]; rewrite <- app_assoc; reflexivity|].
      apply Forall_app. split; [|exact F'].
      destruct (exists_in _ _); repeat constructor.
    + rewrite O', O. reflexivity.
Qed.

(** X23: under [--watch --sequential] a run of [main] never starts the
    orchestrator: whatever arrives in the input directory and however long
    the loop runs, the trace holds nothing but sleeps and the output
    directory stays as it was. *)
Theorem sequential_watch_never_renders fuel input output :
  watch cfg = true -> sequential cfg = true -> input_is cfg = InputDir ->
  ∃ next w',
    main parse_ply_metadata str_float brush producer cfg fuel (boot input output)
    = (Ok (Watching next), w')
    ∧ Forall (fun e => e = EvSleep) (tr w')
    ∧ out w' = output.
Proof.
  intros Hw Hs Hd. unfold main. rewrite Hw, Hs, Hd.
  unfold bind at 1.
  destruct (next_expected_index_highest (boot input output)) as (n & -> & _).
  destruct (sequential_loop_idle fuel O n (boot input output) Hs)
    as (next & w' & E & (evs & T & F) & O).
  { intros j _. apply lookup_empty. }
  exists next, w'. split; [exact E|]. split; [|exact O].
  rewrite T. exact F.
Qed.

End WithEnvironment.

(** ** Sample runs *)

Lemma render_stereo_from_ply_fail_fast_witness :
  let res :=
    render_stereo_from_ply no_metadata sample_str_float brush_fails
      (sample_cfg false false) "frame_000000.ply"
      (boot [("frame_000000.ply", 100)] []) in
  res.1 = Raise (RuntimeError "brush-render failed for frame_000000.ply (left)")
  ∧ yielded (tr res.2) = ["frame_000000.ply"]
  ∧ length (tr res.2) = 2%nat.
Proof.
  intros res.
  destruct (proj1 (render_stereo_from_ply_fail_fast no_metadata
                     sample_str_float brush_fails (sample_cfg false false)
                     "frame_000000.ply" sample_params
                     (boot [("frame_000000.ply", 100)] []) eq_refl)) as [H1 H2].
  - vm_compute. discriminate.
  - split; [exact H1|]. fold res in H2. rewrite H2. split; reflexivity.
Defined.

Lemma done_frame_is_skipped_witness :
  let w := boot [("frame_000000.ply", 100)]
             ["frame_000000_left.png"; "frame_000000_right.png"] in
  process_frame no_metadata sample_str_float brush_succeeds
    (sample_cfg false false) "frame_000000.ply" w = (Ok false, w).
Proof.
  intros w.
  exact (proj1 (done_frame_is_skipped no_metadata sample_str_float
                  brush_succeeds (sample_cfg false false) "frame_000000.ply" w
                  eq_refl)).
Defined.



(** C1: the sequential watcher skips a frame that is present and of a
    settled size. With [frame_000000.ply] waiting at 100 bytes and nothing
    rendered yet, three poll cycles leave the counter at 1 and the output
    directory empty: the first cycle found the file, was refused by the
    first-look stability check and advanced the counter all the same; the
    other two slept waiting for [frame_000001.ply]. On the same input the
    unordered discipline renders the frame at its second cycle. *)
Theorem sequential_watch_skips_settled_frame :
  let w := boot [("frame_000000.ply", 100)] [] in
  let run in_sequence :=
    main no_metadata sample_str_float brush_succeeds idle_producer
      (sample_cfg true in_sequence) 3 w in
  (run true).1 = Ok (Watching 1)
  ∧ tr (run true).2 = [EvSleep; EvSleep]
  ∧ inp (run true).2 = [("frame_000000.ply", 100)]
  ∧ out (run true).2 = []
  ∧ done (out (run true).2) "frame_000000.ply" = false
  ∧ yielded (tr (run false).2) = ["frame_000000.ply"]
  ∧ out (run false).2 = ["frame_000000_left.png"; "frame_000000_right.png"].
Proof. repeat split; vm_compute; reflexivity. Qed.

End WatcherFacts.

(** * Facts about the parallel render stage *)

Module PipelineFacts.
Import Pipeline Spec.

Section WithChildren.

Variable workers : nat.
Variable status : nat -> Z.
Variable n : nat.

Lemma invariant_submitted : invariant status n (submitted n).
Proof.
  split; cbn.
  - reflexivity.
  - intros i c H. apply elem_of_nil in H. contradiction.
  - split; [lia|]. intros j Hj. lia.
Qed.

Lemma finished_in_range s i c :
  invariant status n s -> (i, c) ∈ finished s -> (i < n)%nat ∧ c = status i.
Proof.
  intros [Hf Hs _] Hin. split; [|exact (Hs _ _ Hin)].
  assert (i ∈ seq 0 n) as Hi.
  { rewrite <- Hf. apply elem_of_app. left.
    apply list_elem_of_fmap. exists (i, c). split; [reflexivity|exact Hin]. }
  apply elem_of_seq in Hi. lia.
Qed.

Lemma invariant_step s s' : invariant status n s -> step workers status s s' -> invariant status n s'.
Proof.
  intros Hinv Hstep.
  destruct Hstep as [i q r f m Hw|i q r1 r2 f m|k q r f Hin|k c q r f Hin Hc].
  - destruct Hinv as [Hf Hs Hm]. split; cbn in *; [|exact Hs|exact Hm].
    rewrite <- Hf. apply Permutation_app_head.
    rewrite <- app_assoc. reflexivity.
  - destruct Hinv as [Hf Hs Hm]. split; cbn in *; [| |exact Hm].
    + rewrite <- Hf, fmap_app, <- !app_assoc. cbn.
      apply Permutation_app_head, Permutation_middle.
    + intros j c Hin. apply elem_of_app in Hin as [Hin|Hin]; [exact (Hs _ _ Hin)|].
      apply list_elem_of_singleton in Hin. congruence.
  - destruct (finished_in_range _ _ _ Hinv Hin) as [Hk Hk0].
    destruct Hinv as [Hf Hs Hm]. split; cbn in *; [exact Hf|exact Hs|].
    split; [lia|]. intros j Hj. destruct (decide (j = k)) as [->|]; [congruence|].
    apply Hm. lia.
  - destruct (finished_in_range _ _ _ Hinv Hin) as [Hk Hkc].
    destruct Hinv as [Hf Hs Hm]. split; cbn in *; [exact Hf|exact Hs|].
    split; [exact Hk|]. split; [congruence|exact (proj2 Hm)].
Qed.

Lemma invariant_steps s0 s :
  steps workers status s0 s -> invariant status n s0 -> invariant status n s.
Proof.
  induction 1 as [|s1 s2 s3 _ IH Hstep]; intros Hinit.
  - exact Hinit.
  - exact (invariant_step _ _ (IH Hinit) Hstep).
Qed.

Lemma no_failure_among (l : list nat) :
  (∀ i, i ∈ l -> status i = 0) -> filter (fun i => status i ≠ 0) l = [].
Proof.
  induction l as [|i l IH]; intros H; [reflexivity|].
  rewrite filter_cons_False by (intros Hc; apply Hc, H; left).
  apply IH. intros j Hj. apply H. right. exact Hj.
Qed.

Lemma failed_frames_none :
  (∀ j, (j < n)%nat -> status j = 0) -> failed_frames n status = [].
Proof.
  intros H. unfold failed_frames.
  apply no_failure_among. intros i Hi%elem_of_seq. apply H. lia.
Qed.

Lemma failed_frames_first k :
  (k < n)%nat -> status k ≠ 0 -> (∀ j, (j < k)%nat -> status j = 0) ->
  take 1 (failed_frames n status) = [k].
Proof.
  intros Hk Hc Hz. unfold failed_frames.
  replace n with (k + S (n - S k))%nat by lia.
  rewrite seq_app, filter_app. cbn [seq].
  rewrite no_failure_among by (intros i Hi%elem_of_seq; apply Hz; lia).
  rewrite filter_cons_True by exact Hc. reflexivity.
Qed.

Lemma completes_outcome s :
  completes workers status n s ->
  (finished s).*1 ≡ₚ seq 0 n
  ∧ (∀ i c, (i, c) ∈ finished s -> c = status i)
  ∧ (main_at s = Waiting n ↔ ∀ i, (i < n)%nat -> status i = 0)
  ∧ reported_failed s = take 1 (failed_frames n status).
Proof.
  intros [Hrun (Hq & Hr & Hm)].
  destruct (invariant_steps _ _ Hrun invariant_submitted) as [Hf Hs Hmain].
  rewrite Hq, Hr, !app_nil_r in Hf.
  split; [exact Hf|]. split; [exact Hs|].
  unfold reported_failed.
  destruct Hm as [Hm|[k Hm]]; rewrite Hm in *.
  - destruct Hmain as [_ Hz]. split; [split; auto|].
    rewrite failed_frames_none; auto.
  - destruct Hmain as (Hk & Hc & Hz). split.
    + split; [discriminate|]. intros H. specialize (H k Hk). contradiction.
    + rewrite (failed_frames_first k); auto.
Qed.

(** A run that is not over can go on: the pool does not deadlock. *)
Lemma progress s :
  (0 < workers)%nat ->
  steps workers status (submitted n) s -> ¬ terminal n s ->
  ∃ s', step workers status s s'.
Proof.
  intros Hw Hrun Hnt.
  pose proof (invariant_steps _ _ Hrun invariant_submitted) as Hinv.
  destruct s as [q r f m].
  destruct r as [|i r].
  - destruct q as [|i q].
    + destruct m as [k|k].
      * destruct (decide (k = n)) as [->|Hkn].
        { exfalso. apply Hnt. repeat split; auto. }
        destruct Hinv as [Hf _ Hm]. cbn in *. rewrite app_nil_r in Hf.
        assert (k ∈ f.*1) as Hin.
        { rewrite Hf. apply elem_of_seq. lia. }
        apply list_elem_of_fmap in Hin as ([k' c] & -> & Hin). cbn in *.
        destruct (decide (c = 0)) as [->|Hc].
        -- eexists. apply step_result_ok. exact Hin.
        -- eexists. eapply step_result_raise; eauto.
      * exfalso. apply Hnt. repeat split; eauto.
    + eexists. apply step_start. cbn. exact Hw.
  - eexists. apply (step_finish workers status i q [] r f m).
Qed.

Lemma step_remaining s s' :
  invariant status n s -> step workers status s s' -> (remaining n s' < remaining n s)%nat.
Proof.
  intros Hinv Hstep. pose proof Hstep as Hstep'.
  destruct Hstep as [i q r f m Hw|i q r1 r2 f m|k q r f Hin|k c q r f Hin Hc];
    unfold remaining; cbn [queue running main_at length].
  - rewrite length_app. cbn. lia.
  - rewrite !length_app. cbn. lia.
  - destruct (finished_in_range _ _ _ Hinv Hin). lia.
  - lia.
Qed.

Lemma terminal_dec s : terminal n s ∨ ¬ terminal n s.
Proof.
  destruct s as [[|i q] [|j r] f [k|k]]; unfold terminal; cbn;
    try (right; intros (H1 & H2 & _); discriminate).
  - destruct (decide (k = n)) as [->|Hk]; [left; auto|].
    right. intros (_ & _ & [[= H]|[k' H]]); [contradiction|discriminate].
  - left. eauto.
Qed.

Lemma steps_cons s1 s2 s3 :
  step workers status s1 s2 -> steps workers status s2 s3 ->
  steps workers status s1 s3.
Proof.
  intros H12 H23. induction H23 as [|s2 s3 s4 _ IH H34].
  - eapply steps_step; [apply steps_refl|exact H12].
  - eapply steps_step; [exact (IH H12)|exact H34].
Qed.

(** With at least one worker every run can be carried to its end. *)
Lemma run_completes :
  (0 < workers)%nat -> ∃ s, completes workers status n s.
Proof.
  intros Hw.
  assert (H : ∀ m s, (remaining n s ≤ m)%nat ->
                steps workers status (submitted n) s ->
                ∃ s', steps workers status (submitted n) s' ∧ terminal n s').
  { induction m as [|m IH]; intros s Hm Hrun;
      (destruct (terminal_dec s) as [Ht|Hnt]; [exists s; auto|]);
      destruct (progress s Hw Hrun Hnt) as [s' Hstep];
      pose proof (step_remaining _ _
                    (invariant_steps _ _ Hrun invariant_submitted) Hstep) as Hlt.
    - lia.
    - apply (IH s'); [lia|]. eapply steps_step; eauto. }
  destruct (H _ (submitted n) (le_n _) (steps_refl _ _ _)) as (s & ? & ?).
  exists s. split; assumption.
Qed.

End WithChildren.

(** ** Sample batches *)

Ltac start_next :=
  eapply steps_cons; [apply step_start; cbn; lia|cbn].
Ltac finish_child i before after :=
  eapply steps_cons; [apply (step_finish _ _ i _ before after)|cbn].
Ltac result_ok :=
  eapply steps_cons; [apply step_result_ok; repeat constructor|cbn].
Ltac result_raise c :=
  eapply steps_cons;
  [apply (step_result_raise _ _ _ c); [repeat constructor|discriminate]|cbn].

Lemma sample_run : completes 2 only_frame_2_fails 5 sample_end.
Proof.
  split; [|repeat split; eauto]. unfold submitted. cbn.
  start_next. start_next. finish_child 0%nat (@nil nat) [1%nat]. result_ok.
  start_next. finish_child 2%nat [1%nat] (@nil nat).
  finish_child 1%nat (@nil nat) (@nil nat). result_ok. result_raise 1.
  start_next. start_next. finish_child 3%nat (@nil nat) [4%nat].
  finish_child 4%nat (@nil nat) (@nil nat).
  apply steps_refl.
Qed.

(** C4 as amended: a failure cancels nothing, every submitted frame's
    child process runs exactly once in every complete run of the stage; the
    stage succeeds exactly when every child exits with status zero, and
    otherwise it fails with the error of one frame, the first failed frame
    in submission order; the pool never deadlocks and every run can be
    completed. Of five frames of which only frame 2 fails, frame 2 is the
    one reported and frames 0, 1, 3 and 4 finish with status zero. *)
Theorem batch_reports_first_failure :
  (∀ workers status n s,
     completes workers status n s ->
     (finished s).*1 ≡ₚ seq 0 n
     ∧ (∀ i c, (i, c) ∈ finished s -> c = status i)
     ∧ (main_at s = Waiting n ↔ ∀ i, (i < n)%nat -> status i = 0)
     ∧ reported_failed s = take 1 (failed_frames n status))
  ∧ (∀ workers status n s,
       (0 < workers)%nat ->
       steps workers status (submitted n) s -> ¬ terminal n s ->
       ∃ s', step workers status s s')
  ∧ (∀ workers status n,
       (0 < workers)%nat -> ∃ s, completes workers status n s)
  ∧ (∀ workers s,
       completes workers only_frame_2_fails 5 s ->
       reported_failed s = [2%nat]
       ∧ ∀ i c, (i, c) ∈ finished s -> i ≠ 2%nat -> c = 0).
Proof.
  split; [exact completes_outcome|].
  split; [exact progress|].
  split; [exact run_completes|].
  intros workers s Hs.
  destruct (completes_outcome _ _ _ _ Hs) as (_ & Hst & _ & Hrep).
  split; [exact Hrep|].
  intros i c Hin Hi. rewrite (Hst _ _ Hin). unfold only_frame_2_fails.
  destruct (Nat.eqb_spec i 2); [contradiction|reflexivity].
Qed.

Lemma batch_reports_first_failure_witness :
  completes 2 only_frame_2_fails 5 sample_end
  ∧ reported_failed sample_end = [2%nat]
  ∧ (finished sample_end).*1 ≡ₚ seq 0 5.
Proof.
  split; [exact sample_run|].
  split.
  - exact (proj1 (proj2 (proj2 (proj2 batch_reports_first_failure))
                    2%nat sample_end sample_run)).
  - exact (proj1 (proj1 batch_reports_first_failure
                    2%nat only_frame_2_fails 5%nat sample_end sample_run)).
Defined.

(** C4 as stated fails: when frames 0 and 2 of three fail, every complete
    run reports frame 0 alone, not the set of failed frames. *)
Lemma batch_does_not_report_all_failures :
  failed_frames 3 frames_0_and_2_fail = [0; 2]%nat
  ∧ (∃ s, completes 2 frames_0_and_2_fail 3 s)
  ∧ ∀ s, completes 2 frames_0_and_2_fail 3 s ->
         reported_failed s = [0%nat]
         ∧ reported_failed s ≠ failed_frames 3 frames_0_and_2_fail.
Proof.
  split; [reflexivity|]. split.
  - exists (Pool [] [] [(0%nat, 1); (1%nat, 0); (2%nat, 1)] (Failed 0)).
    split; [|repeat split; eauto]. unfold submitted. cbn.
    start_next. start_next. finish_child 0%nat (@nil nat) [1%nat].
    result_raise 1. finish_child 1%nat (@nil nat) (@nil nat).
    start_next. finish_child 2%nat (@nil nat) (@nil nat).
    apply steps_refl.
  - intros s Hs.
    destruct (completes_outcome _ _ _ _ Hs) as (_ & _ & _ & Hrep).
    rewrite Hrep. split; [reflexivity|discriminate].
Qed.

End PipelineFacts.

(** * Facts about the PLY camera block *)

Module PlyFacts.
Import Sys Render Ply Layout.

(** ** Lines *)

Lemma prefix_empty s : String.prefix EmptyString s = true.
Proof. destruct s; reflexivity. Qed.

Lemma prefix_cons a p c s :
  String.prefix (String a p) (String c s)
  = if ascii_dec a c then String.prefix p s else false.
Proof. reflexivity. Qed.

Lemma contains_cons pat c s :
  contains pat (String c s) = String.prefix pat (String c s) || contains pat s.
Proof. reflexivity. Qed.

Lemma prefix_app pat s t :
  String.prefix pat s = true -> String.prefix pat (s ++ t) = true.
Proof.
  revert s. induction pat as [|a p IH]; intros s H; [apply prefix_empty|].
  destruct s as [|c s]; [discriminate H|].
  rewrite PyFacts.append_cons, prefix_cons in *.
  destruct (ascii_dec a c); [auto|discriminate].
Qed.

Lemma contains_app_l pat s t :
  contains pat s = true -> contains pat (s ++ t) = true.
Proof.
  induction s as [|c s IH]; intros H.
  - cbn in H. rewrite orb_false_r in H.
    destruct pat; [|discriminate H].
    destruct t; reflexivity.
  - rewrite PyFacts.append_cons, contains_cons in *.
    apply orb_true_iff in H as [H|H]; apply orb_true_iff.
    + left. exact (prefix_app pat (String c s) t H).
    + right. exact (IH H).
Qed.

Lemma contains_app_r pat s t :
  contains pat t = true -> contains pat (s ++ t) = true.
Proof.
  intros H. induction s as [|c s IH]; [exact H|].
  rewrite PyFacts.append_cons, contains_cons, IH. apply orb_true_r.
Qed.

Lemma readline_app s : s = (readline s).1 ++ (readline s).2.
Proof.
  induction s as [|c s IH]; [reflexivity|]. cbn [readline].
  destruct (Ascii.eqb c newline); [reflexivity|].
  destruct (readline s) as [line rest]. cbn [fst snd] in *.
  rewrite PyFacts.append_cons, <- IH. reflexivity.
Qed.

Lemma readline_shorter s :
  s ≠ EmptyString -> (String.length (readline s).2 < String.length s)%nat.
Proof.
  induction s as [|c s IH]; [congruence|]. intros _. cbn [readline].
  destruct (Ascii.eqb c newline); [cbn; lia|].
  destruct s as [|c' s'].
  - cbn. lia.
  - specialize (IH ltac:(discriminate)).
    destruct (readline (String c' s')) as [line rest]. cbn [fst snd String.length] in *.
    lia.
Qed.

(** A line read before the end of the file ends with its newline. *)
Lemma readline_newline s :
  (readline s).2 ≠ EmptyString ->
  ∃ l, (readline s).1 = l ++ String newline EmptyString.
Proof.
  induction s as [|c s IH]; [cbn; congruence|]. cbn [readline].
  destruct (Ascii.eqb_spec c newline) as [->|Hc].
  - intros _. exists EmptyString. reflexivity.
  - destruct (readline s) as [line rest]. cbn [fst snd] in *.
    intros H. destruct (IH H) as [l ->]. exists (String c l). reflexivity.
Qed.

Lemma prefix_line pat l r :
  no_newline pat = true ->
  String.prefix pat (l ++ String newline r) = true ->
  String.prefix pat (l ++ String newline EmptyString) = true.
Proof.
  revert l. induction pat as [|a p IH]; intros l Hp H; [apply prefix_empty|].
  cbn [no_newline] in Hp. apply andb_true_iff in Hp as [Ha Hp].
  destruct l as [|c l].
  - change (EmptyString ++ ?x) with x in *. rewrite prefix_cons in H.
    destruct (ascii_dec a newline) as [->|]; [|discriminate H].
    rewrite Ascii.eqb_refl in Ha. discriminate Ha.
  - rewrite PyFacts.append_cons, prefix_cons in *.
    destruct (ascii_dec a c); [|discriminate H]. exact (IH l Hp H).
Qed.

Lemma contains_line pat l r :
  no_newline pat = true ->
  contains pat (l ++ String newline r) = true ->
  contains pat (l ++ String newline EmptyString) = true ∨ contains pat r = true.
Proof.
  intros Hp. induction l as [|c l IH].
  - change (EmptyString ++ ?x) with x. rewrite !contains_cons.
    intros H. apply orb_true_iff in H as [H|H]; [|right; exact H].
    left. apply orb_true_iff. left.
    exact (prefix_line pat EmptyString r Hp H).
  - rewrite !PyFacts.append_cons, !contains_cons. intros H.
    apply orb_true_iff in H as [H|H].
    + left. apply orb_true_iff. left.
      exact (prefix_line pat (String c l) r Hp H).
    + destruct (IH H) as [H'|H']; [left|right; exact H'].
      apply orb_true_iff. right. exact H'.
Qed.

(** ** The header loop *)

Lemma read_header_hangs fuel : ∀ rest header_bytes,
  contains "end_header" rest = false ->
  read_header fuel rest header_bytes = None.
Proof.
  induction fuel as [|fuel IH]; intros rest hb H; [reflexivity|].
  cbn [read_header]. pose proof (readline_app rest) as E.
  destruct (readline rest) as [line rest']. cbn [fst snd] in E.
  destruct (contains "end_header" line) eqn:Hl.
  - rewrite E, (contains_app_l _ _ _ Hl) in H. discriminate H.
  - apply IH. destruct (contains "end_header" rest') eqn:Hr; [|reflexivity].
    rewrite E, (contains_app_r _ _ _ Hr) in H. discriminate H.
Qed.

Lemma read_header_returns fuel : ∀ rest header_bytes,
  contains "end_header" rest = true ->
  (String.length rest < fuel)%nat ->
  ∃ r, read_header fuel rest header_bytes = Some r.
Proof.
  induction fuel as [|fuel IH]; intros rest hb H Hlen; [lia|].
  cbn [read_header]. pose proof (readline_app rest) as E.
  pose proof (readline_shorter rest) as Hs.
  pose proof (readline_newline rest) as Hn.
  destruct (readline rest) as [line rest']. cbn [fst snd] in *.
  destruct (contains "end_header" line) eqn:Hl; [eauto|].
  destruct rest' as [|c rest'].
  - rewrite PyFacts.append_empty_r in E. congruence.
  - destruct (Hn ltac:(discriminate)) as [l ->].
    rewrite E, PyFacts.append_assoc in H.
    change (String newline EmptyString ++ ?x) with (String newline x) in H.
    destruct (contains_line "end_header" _ _ eq_refl H) as [H'|H'];
      [congruence|].
    apply IH; [exact H'|].
    assert (rest ≠ EmptyString) by (rewrite E; destruct l; discriminate).
    specialize (Hs ltac:(assumption)). lia.
Qed.

Lemma read_header_more fuel : ∀ fuel' rest header_bytes r,
  read_header fuel rest header_bytes = Some r -> (fuel ≤ fuel')%nat ->
  read_header fuel' rest header_bytes = Some r.
Proof.
  induction fuel as [|fuel IH]; intros fuel' rest hb r H Hle; [discriminate H|].
  destruct fuel' as [|fuel']; [lia|]. cbn [read_header] in *.
  destruct (readline rest) as [line rest'].
  destruct (contains "end_header" line); [exact H|].
  apply (IH fuel'); [exact H|lia].
Qed.

(** X1: the header loop has no exit at the end of the file: on a file that
    does not hold the text [end_header], an empty file for one, the parser
    is still reading after any number of lines; on a file that holds it,
    the parser returns, after as many lines as the file has bytes at the
    latest, and reading on does not change what it returns. *)
Theorem parser_returns_iff_end_header lim content :
  (contains "end_header" content = false ->
   ∀ fuel, parse_content lim fuel content = None)
  ∧ (contains "end_header" content = true ->
     ∃ r, ∀ fuel, (String.length content < fuel)%nat ->
                  parse_content lim fuel content = Some r).
Proof.
  unfold parse_content. split.
  - intros H fuel. rewrite (read_header_hangs fuel _ _ H). reflexivity.
  - intros H.
    destruct (read_header_returns (S (String.length content)) content
                EmptyString H (Nat.lt_succ_diag_r _)) as [[hb rest] E].
    exists (after_header lim content hb). intros fuel Hf.
    rewrite (read_header_more _ fuel _ _ _ E) by lia. reflexivity.
Qed.

Lemma parser_returns_iff_end_header_witness :
  (∀ fuel, parse_content 4300 fuel "ply" = None)
  ∧ ∃ r, ∀ fuel, (String.length sample_file < fuel)%nat ->
                 parse_content 4300 fuel sample_file = Some r.
Proof.
  split.
  - exact (proj1 (parser_returns_iff_end_header 4300 "ply") eq_refl).
  - apply (proj2 (parser_returns_iff_end_header 4300 sample_file)).
    vm_compute. reflexivity.
Defined.

(** ** The camera block *)

Lemma length_take n : ∀ s,
  String.length (Py.take_str n s) = Nat.min n (String.length s).
Proof.
  induction n as [|n IH]; intros [|c s]; cbn; try reflexivity.
  rewrite IH. reflexivity.
Qed.

Lemma length_drop n : ∀ s,
  String.length (Py.drop_str n s) = (String.length s - n)%nat.
Proof.
  induction n as [|n IH]; intros [|c s]; cbn; try reflexivity.
  apply IH.
Qed.

Lemma drop_drop a : ∀ b s,
  Py.drop_str a (Py.drop_str b s) = Py.drop_str (b + a) s.
Proof.
  intros b. induction b as [|b IH]; intros [|c s]; cbn; try reflexivity.
  - destruct a; reflexivity.
  - apply IH.
Qed.

Lemma byte_val_range c : 0 ≤ byte_val c < 256.
Proof.
  unfold byte_val. pose proof (N_ascii_bounded c). lia.
Qed.

Lemma u32_le_range s : 0 ≤ u32_le s < 2 ^ 32.
Proof.
  unfold u32_le.
  destruct s as [|b0 [|b1 [|b2 [|b3 s]]]]; try (cbn; lia).
  pose proof (byte_val_range b0). pose proof (byte_val_range b1).
  pose proof (byte_val_range b2). pose proof (byte_val_range b3).
  change (2 ^ 32) with 4294967296. lia.
Qed.

Lemma read_camera_shape s :
  ((read_camera s).2 ≠ None -> (read_camera s).1 ≠ None)
  ∧ ∀ w h, (read_camera s).2 = Some (w, h) ->
           0 ≤ w < 2 ^ 32 ∧ 0 ≤ h < 2 ^ 32.
Proof.
  unfold read_camera. cbn [fst snd]. split.
  - rewrite !length_take, !length_drop.
    destruct (Nat.eqb_spec (Nat.min 8 (String.length s - 100)) 8) as [E|E];
      [|congruence].
    destruct (Nat.eqb_spec (Nat.min 36 (String.length s - 64)) 36) as [E'|E'];
      [discriminate|lia].
  - intros w h. destruct (_ =? 8)%nat; [|discriminate].
    intros [= <- <-]. split; apply u32_le_range.
Qed.

Lemma parse_content_camera lim fuel content r :
  parse_content lim fuel content = Some r ->
  r = (None, None) ∨ ∃ s, r = read_camera s.
Proof.
  unfold parse_content.
  destruct (read_header fuel content EmptyString) as [[hb rest]|]; [|discriminate].
  unfold after_header.
  destruct (header_lines _ _ _) as [st|]; [|intros [= <-]; left; reflexivity].
  destruct (_ <? 0); intros [= <-]; [left; reflexivity|right; eauto].
Qed.

(** X2: whatever the file holds, a returning parser gives an image size only
    together with the intrinsic matrix, and the two dimensions of an image
    size are unsigned 32-bit numbers. *)
Theorem camera_block_shape lim fuel content intrinsics image_size :
  parse_content lim fuel content = Some (intrinsics, image_size) ->
  (image_size ≠ None -> intrinsics ≠ None)
  ∧ ∀ w h, image_size = Some (w, h) -> 0 ≤ w < 2 ^ 32 ∧ 0 ≤ h < 2 ^ 32.
Proof.
  intros H. apply parse_content_camera in H as [[= -> ->]|[s E]].
  - split; [congruence|discriminate].
  - pose proof (read_camera_shape s) as H. rewrite <- E in H. exact H.
Qed.

Lemma camera_block_shape_witness :
  let intrinsics := Some (mat3_of_bytes sample_intrinsic) in
  let image_size := Some (1920, 1080) in
  parse_content 4300 14 sample_file = Some (intrinsics, image_size)
  ∧ (image_size ≠ None -> intrinsics ≠ None)
  ∧ ∀ w h, image_size = Some (w, h) -> 0 ≤ w < 2 ^ 32 ∧ 0 ≤ h < 2 ^ 32.
Proof.
  intros intrinsics image_size.
  assert (E : parse_content 4300 14 sample_file = Some (intrinsics, image_size))
    by (vm_compute; reflexivity).
  split; [exact E|].
  exact (camera_block_shape 4300 14 sample_file intrinsics image_size E).
Defined.

(** ** A file laid out as the parser expects *)

Lemma readline_line l r :
  no_newline l = true ->
  readline (l ++ String newline r) = (l ++ String newline EmptyString, r).
Proof.
  induction l as [|c l IH]; intros H; [reflexivity|].
  cbn [no_newline] in H. apply andb_true_iff in H as [Hc H].
  rewrite !PyFacts.append_cons. cbn [readline].
  destruct (Ascii.eqb c newline); [discriminate Hc|].
  rewrite (IH H). reflexivity.
Qed.

Lemma prefix_before_newline pat : ∀ l,
  no_newline pat = true ->
  String.prefix pat (l ++ String newline EmptyString) = true ->
  String.prefix pat l = true.
Proof.
  induction pat as [|a p IH]; intros l Hp H; [apply prefix_empty|].
  cbn [no_newline] in Hp. apply andb_true_iff in Hp as [Ha Hp].
  destruct l as [|c l].
  - change (EmptyString ++ ?x) with x in H. rewrite prefix_cons in H.
    destruct (ascii_dec a newline) as [->|]; [|discriminate H].
    rewrite Ascii.eqb_refl in Ha. discriminate Ha.
  - rewrite PyFacts.append_cons, prefix_cons in H. rewrite prefix_cons.
    destruct (ascii_dec a c); [auto|discriminate H].
Qed.

Lemma contains_before_newline pat l :
  no_newline pat = true ->
  contains pat (l ++ String newline EmptyString) = true ->
  contains pat l = true.
Proof.
  intros Hp. induction l as [|c l IH]; intros H.
  - change (EmptyString ++ ?x) with x in H. rewrite contains_cons in H.
    apply orb_true_iff in H as [H|H]; [|exact H].
    cbn [contains]. rewrite (prefix_before_newline pat EmptyString Hp H).
    reflexivity.
  - rewrite PyFacts.append_cons, contains_cons in H. rewrite contains_cons.
    apply orb_true_iff in H as [H|H].
    + rewrite <- PyFacts.append_cons in H.
      rewrite (prefix_before_newline pat _ Hp H). reflexivity.
    + rewrite (IH H). apply orb_true_r.
Qed.

Lemma clean_line_spec l :
  clean_line l = true ->
  no_newline l = true
  ∧ contains "end_header" (l ++ String newline EmptyString) = false.
Proof.
  unfold clean_line. intros H. apply andb_true_iff in H as [H1 H2].
  split; [exact H1|].
  destruct (contains "end_header" (l ++ String newline EmptyString)) eqn:E;
    [|reflexivity].
  rewrite (contains_before_newline "end_header" l eq_refl E) in H2.
  discriminate H2.
Qed.

Lemma read_header_layout ls body : ∀ fuel header_bytes,
  forallb clean_line ls = true ->
  (length ls < fuel)%nat ->
  read_header fuel
    (join_lines ls ++ "end_header" ++ String newline body) header_bytes
  = Some (header_bytes ++ join_lines ls ++ "end_header" ++ String newline EmptyString,
          body).
Proof.
  induction ls as [|l ls IH]; intros fuel hb Hc Hf.
  - destruct fuel as [|fuel]; [cbn in Hf; lia|]. reflexivity.
  - destruct fuel as [|fuel]; [cbn in Hf; lia|].
    cbn [forallb] in Hc. apply andb_true_iff in Hc as [Hl Hc].
    apply clean_line_spec in Hl as [Hn He].
    cbn [join_lines read_header]. rewrite !PyFacts.append_assoc.
    rewrite !PyFacts.append_cons. rewrite (readline_line l _ Hn), He.
    rewrite IH by (cbn in Hf; auto with lia).
    rewrite !PyFacts.append_assoc. reflexivity.
Qed.

Lemma decode_append s t :
  decode_ascii_ignore (s ++ t) = decode_ascii_ignore s ++ decode_ascii_ignore t.
Proof.
  induction s as [|c s IH]; [reflexivity|].
  rewrite PyFacts.append_cons. cbn [decode_ascii_ignore].
  destruct (_ <? _)%nat; [rewrite PyFacts.append_cons|]; rewrite IH; reflexivity.
Qed.

Lemma decode_no_newline s :
  no_newline s = true -> no_newline (decode_ascii_ignore s) = true.
Proof.
  induction s as [|c s IH]; [reflexivity|]. cbn [no_newline decode_ascii_ignore].
  intros H. apply andb_true_iff in H as [Hc H].
  destruct (_ <? _)%nat; [cbn [no_newline]; rewrite Hc|]; auto.
Qed.

Lemma split_all_line l r :
  no_newline l = true ->
  split_all newline (l ++ String newline r) = l :: split_all newline r.
Proof.
  induction l as [|c l IH]; intros H; [reflexivity|].
  cbn [no_newline] in H. apply andb_true_iff in H as [Hc H].
  rewrite PyFacts.append_cons. cbn [split_all].
  destruct (Ascii.eqb c newline); [discriminate Hc|].
  rewrite (IH H). reflexivity.
Qed.

Lemma header_text_lines ls :
  forallb clean_line ls = true ->
  split_all newline (decode_ascii_ignore
    (join_lines ls ++ "end_header" ++ String newline EmptyString))
  = ((decode_ascii_ignore <$> ls) ++ ["end_header"; EmptyString])%list.
Proof.
  induction ls as [|l ls IH]; intros Hc; [reflexivity|].
  cbn [forallb] in Hc. apply andb_true_iff in Hc as [Hl Hc].
  apply clean_line_spec in Hl as [Hn _].
  cbn [join_lines]. rewrite PyFacts.append_assoc, PyFacts.append_cons.
  rewrite decode_append.
  change (decode_ascii_ignore (String newline ?r))
    with (String newline (decode_ascii_ignore r)).
  rewrite split_all_line by (apply decode_no_newline, Hn).
  rewrite (IH Hc). reflexivity.
Qed.

Lemma header_lines_app lim xs : ∀ st ys,
  header_lines lim st (xs ++ ys)
  = match header_lines lim st xs with
    | Some st' => header_lines lim st' ys
    | None => None
    end.
Proof.
  induction xs as [|x xs IH]; intros st ys; [reflexivity|].
  cbn [header_lines app]. destruct (header_line lim st x); [apply IH|reflexivity].
Qed.

Lemma header_lines_end lim st :
  header_lines lim st ["end_header"; EmptyString] = Some st.
Proof. reflexivity. Qed.

Lemma drop_past n s t :
  Py.drop_str (String.length s + n) (s ++ t) = Py.drop_str n t.
Proof.
  induction s as [|c s IH]; [reflexivity|].
  rewrite PyFacts.append_cons. exact IH.
Qed.

Lemma parse_laid_out lim ls st body fuel :
  forallb clean_line ls = true ->
  header_lines lim header_start (decode_ascii_ignore <$> ls) = Some st ->
  0 ≤ vertex_count st * vertex_size (vertex_props st) ->
  (length ls < fuel)%nat ->
  parse_content lim fuel (join_lines ls ++ "end_header" ++ String newline body)
  = Some (read_camera
            (Py.drop_str
               (Z.to_nat (vertex_count st * vertex_size (vertex_props st)))
               body)).
Proof.
  intros Hc Hs Hpos Hf. unfold parse_content.
  rewrite (read_header_layout ls body fuel EmptyString Hc Hf).
  change (EmptyString ++ ?x) with x. unfold after_header.
  rewrite (header_text_lines ls Hc), header_lines_app.
  fold header_start. rewrite Hs, header_lines_end.
  set (hb := join_lines ls ++ "end_header" ++ String newline EmptyString).
  set (off := vertex_count st * vertex_size (vertex_props st)) in *.
  destruct (Z.ltb_spec (Z.of_nat (String.length hb) + off) 0) as [?|_]; [lia|].
  replace (join_lines ls ++ "end_header" ++ String newline body)
    with (hb ++ body).
  - replace (Z.to_nat (Z.of_nat (String.length hb) + off))
      with (String.length hb + Z.to_nat off)%nat by lia.
    rewrite drop_past. reflexivity.
  - unfold hb. rewrite !PyFacts.append_assoc. reflexivity.
Qed.

Lemma byte_val_byte_of z : byte_val (byte_of z) = z mod 256.
Proof.
  unfold byte_val, byte_of. pose proof (Z.mod_pos_bound z 256 eq_refl).
  rewrite N_ascii_embedding by lia. lia.
Qed.

Lemma u32_round_trip z t : 0 ≤ z < 2 ^ 32 -> u32_le (u32_bytes z ++ t) = z.
Proof.
  intros Hz. unfold u32_bytes. rewrite !PyFacts.append_cons. cbn [u32_le].
  rewrite !byte_val_byte_of. change (2 ^ 32) with 4294967296 in Hz.
  Z.div_mod_to_equations. lia.
Qed.

Lemma read_camera_block extrinsic intrinsic w h rest :
  String.length extrinsic = 64%nat ->
  String.length intrinsic = 36%nat ->
  0 ≤ w < 2 ^ 32 -> 0 ≤ h < 2 ^ 32 ->
  read_camera (extrinsic ++ intrinsic ++ u32_bytes w ++ u32_bytes h ++ rest)
  = (Some (mat3_of_bytes intrinsic), Some (w, h)).
Proof.
  intros He Hi Hw Hh.
  set (tail := u32_bytes w ++ u32_bytes h ++ rest).
  assert (E1 : Py.drop_str 64 (extrinsic ++ intrinsic ++ tail)
               = intrinsic ++ tail)
    by (rewrite <- He; apply PyFacts.drop_str_append).
  assert (E2 : Py.take_str 36 (intrinsic ++ tail) = intrinsic)
    by (rewrite <- Hi; apply PyFacts.take_str_append).
  assert (E3 : Py.drop_str 100 (extrinsic ++ intrinsic ++ tail) = tail).
  { change 100%nat with (64 + 36)%nat. rewrite <- drop_drop, E1, <- Hi.
    apply PyFacts.drop_str_append. }
  assert (E4 : Py.take_str 8 tail = u32_bytes w ++ u32_bytes h ++ EmptyString)
    by (unfold tail; destruct rest; reflexivity).
  unfold read_camera. cbv zeta. rewrite E1, E2, E3, E4, Hi.
  change (String.length (u32_bytes w ++ u32_bytes h ++ EmptyString)) with 8%nat.
  cbn [Nat.eqb].
  change (Py.drop_str 4 (u32_bytes w ++ ?x)) with x.
  rewrite !u32_round_trip by assumption. reflexivity.
Qed.

(** X3: a file laid out as the parser expects is read back: header lines
    without newline and without the text end_header, the end_header line,
    vertex data of exactly vertex_count times vertex_size bytes, 64 bytes
    of extrinsics, 36 bytes of intrinsics and the two image dimensions as
    little-endian unsigned 32-bit numbers, whatever follows. The parser
    returns the 36 bytes as a 3 by 3 matrix and the two dimensions. *)
Theorem laid_out_file_round_trip
    lim ls st vertex_data extrinsic intrinsic w h rest fuel :
  forallb clean_line ls = true ->
  header_lines lim header_start (decode_ascii_ignore <$> ls) = Some st ->
  Z.of_nat (String.length vertex_data)
  = vertex_count st * vertex_size (vertex_props st) ->
  String.length extrinsic = 64%nat ->
  String.length intrinsic = 36%nat ->
  0 ≤ w < 2 ^ 32 -> 0 ≤ h < 2 ^ 32 ->
  (length ls < fuel)%nat ->
  parse_content lim fuel
    (join_lines ls ++ "end_header" ++ String newline
       (vertex_data ++ extrinsic ++ intrinsic
        ++ u32_bytes w ++ u32_bytes h ++ rest))
  = Some (Some (mat3_of_bytes intrinsic), Some (w, h)).
Proof.
  intros Hc Hs Hv He Hi Hw Hh Hf.
  rewrite (parse_laid_out lim ls st _ fuel Hc Hs) by (assumption || lia).
  rewrite <- Hv, Nat2Z.id, PyFacts.drop_str_append.
  rewrite read_camera_block by assumption. reflexivity.
Qed.

Lemma laid_out_file_round_trip_witness :
  parse_content 4300 14 sample_file
  = Some (Some (mat3_of_bytes sample_intrinsic), Some (1920, 1080)).
Proof.
  apply (laid_out_file_round_trip 4300 sample_header
           (HeaderState false 2 ["float"; "float"; "uchar"; "uchar"])
           (fill 20 "a") (fill 64 "b") sample_intrinsic 1920 1080
           "trailing" 14);
    solve [vm_compute; reflexivity | vm_compute; split; congruence | cbn; lia].
Defined.

(** ** The lines of the header *)

Lemma words_cons c s :
  words (String c s)
  = if Py.is_space c then words s
    else match s with
         | EmptyString => [String c EmptyString]
         | String c' _ =>
             if Py.is_space c' then String c EmptyString :: words s
             else match words s with
                  | h :: t => String c h :: t
                  | [] => [String c EmptyString]
                  end
         end.
Proof. reflexivity. Qed.

Lemma token_cons c t :
  token (String c t) = true ->
  Py.is_space c = false ∧ (t = EmptyString ∨ token t = true).
Proof.
  cbn [token no_space]. intros H. apply andb_true_iff in H as [Hc Ht].
  split; [destruct (Py.is_space c); [discriminate Hc|reflexivity]|].
  destruct t; [left; reflexivity|right; exact Ht].
Qed.

Lemma words_token_space t r :
  token t = true -> words (t ++ String " " r) = t :: words r.
Proof.
  induction t as [|c t IH]; [discriminate|]. intros H.
  apply token_cons in H as [Hc [->|Ht]].
  - change (String c EmptyString ++ ?x) with (String c x).
    rewrite words_cons, Hc, (words_cons " " r). reflexivity.
  - rewrite PyFacts.append_cons, words_cons, Hc.
    destruct t as [|c' t]; [discriminate Ht|].
    rewrite PyFacts.append_cons, <- (PyFacts.append_cons c' t).
    destruct (token_cons _ _ Ht) as [-> _]. rewrite (IH Ht). reflexivity.
Qed.

Lemma words_token t : token t = true -> words t = [t].
Proof.
  induction t as [|c t IH]; [discriminate|]. intros H.
  apply token_cons in H as [Hc [->|Ht]].
  - rewrite words_cons, Hc. reflexivity.
  - rewrite words_cons, Hc. destruct t as [|c' t]; [discriminate Ht|].
    destruct (token_cons _ _ Ht) as [-> _]. rewrite (IH Ht). reflexivity.
Qed.

Lemma words_element_line name count :
  token name = true -> token count = true ->
  words (element_line name count) = ["element"; name; count].
Proof.
  intros Hn Hc. unfold element_line.
  change ("element " ++ ?x) with ("element" ++ String " " x).
  rewrite (words_token_space "element") by reflexivity.
  change (name ++ " " ++ count) with (name ++ String " " count).
  rewrite (words_token_space name) by exact Hn.
  rewrite (words_token count Hc). reflexivity.
Qed.

Lemma words_property_line decl :
  token decl.1 = true -> token decl.2 = true ->
  words (property_line decl) = ["property"; decl.1; decl.2].
Proof.
  intros Hn Hc. unfold property_line.
  change ("property " ++ ?x) with ("property" ++ String " " x).
  rewrite (words_token_space "property") by reflexivity.
  change (decl.1 ++ " " ++ decl.2) with (decl.1 ++ String " " decl.2).
  rewrite (words_token_space decl.1) by exact Hn.
  rewrite (words_token _ Hc). reflexivity.
Qed.

Lemma header_lines_properties lim decls : ∀ st,
  in_vertex st = true ->
  Forall (fun d => token d.1 = true ∧ token d.2 = true) decls ->
  header_lines lim st (property_line <$> decls)
  = Some (HeaderState true (vertex_count st) (vertex_props st ++ decls.*1)).
Proof.
  induction decls as [|d decls IH]; intros st Hv Hd.
  - cbn. rewrite app_nil_r. destruct st; cbn in *. congruence.
  - apply Forall_cons in Hd as [[H1 H2] Hd].
    cbn [fmap list_fmap header_lines]. unfold header_line.
    rewrite (words_property_line d H1 H2), Hv.
    change (String.eqb "property" "element") with false.
    change (String.eqb "property" "property") with true. cbn [andb].
    rewrite IH by (reflexivity || assumption).
    cbn [vertex_count vertex_props fmap list_fmap].
    rewrite <- app_assoc. reflexivity.
Qed.

Lemma header_lines_properties_outside lim decls : ∀ st,
  in_vertex st = false ->
  Forall (fun d => token d.1 = true ∧ token d.2 = true) decls ->
  header_lines lim st (property_line <$> decls) = Some st.
Proof.
  induction decls as [|d decls IH]; intros st Hv Hd; [reflexivity|].
  apply Forall_cons in Hd as [[H1 H2] Hd].
  cbn [fmap list_fmap header_lines]. unfold header_line.
  rewrite (words_property_line d H1 H2), Hv.
  change (String.eqb "property" "element") with false. cbn [andb].
  apply (IH st Hv Hd).
Qed.

(** X4: the header loop on the declaration of the vertex element: the line
    [element vertex <count>] followed by lines [property <type> <name>]
    sets the vertex count to the number the count denotes and appends the
    property types, in order, to the list that gives the vertex size. *)
Theorem vertex_declaration_read lim st count n decls :
  token count = true ->
  PyInt.int lim count = Some n ->
  Forall (fun d => token d.1 = true ∧ token d.2 = true) decls ->
  header_lines lim st (element_line "vertex" count :: (property_line <$> decls))
  = Some (HeaderState true n (vertex_props st ++ decls.*1)).
Proof.
  intros Hc Hn Hd. cbn [header_lines]. unfold header_line at 1.
  rewrite (words_element_line "vertex" count eq_refl Hc).
  change (String.eqb "element" "element") with true.
  change (String.eqb "vertex" "vertex") with true. cbv iota. rewrite Hn.
  rewrite header_lines_properties by (reflexivity || assumption).
  reflexivity.
Qed.

Lemma vertex_declaration_read_witness :
  header_lines 4300 header_start
    [element_line "vertex" "2"; property_line ("float", "x");
     property_line ("uchar", "red")]
  = Some (HeaderState true 2 ["float"; "uchar"]).
Proof.
  apply (vertex_declaration_read 4300 header_start "2" 2
           [("float", "x"); ("uchar", "red")]);
    [reflexivity|reflexivity|].
  repeat constructor.
Defined.

(** X5: a line that declares another element ends the vertex element: the
    properties that follow it are not counted in the vertex size. *)
Theorem other_element_properties_ignored lim st name count decls :
  token name = true -> name ≠ "vertex" -> token count = true ->
  Forall (fun d => token d.1 = true ∧ token d.2 = true) decls ->
  header_lines lim st (element_line name count :: (property_line <$> decls))
  = Some (HeaderState false (vertex_count st) (vertex_props st)).
Proof.
  intros Ht Hne Hc Hd. cbn [header_lines]. unfold header_line at 1.
  rewrite (words_element_line name count Ht Hc).
  change (String.eqb "element" "element") with true. cbv iota.
  destruct (String.eqb_spec name "vertex") as [?|_]; [contradiction|].
  apply header_lines_properties_outside; [reflexivity|exact Hd].
Qed.

Lemma other_element_properties_ignored_witness :
  header_lines 4300 (HeaderState true 2 ["float"; "uchar"])
    [element_line "intrinsic" "9"; property_line ("float", "intrinsic")]
  = Some (HeaderState false 2 ["float"; "uchar"]).
Proof.
  apply (other_element_properties_ignored 4300
           (HeaderState true 2 ["float"; "uchar"]) "intrinsic" "9"
           [("float", "intrinsic")]);
    [reflexivity|discriminate|reflexivity|].
  repeat constructor.
Defined.

(** ** The resolver on what the parser returns *)

Lemma digits2_pos_bound p : ∀ n,
  0 ≤ n -> Z.pos p < 2 ^ n -> Z.pos (digits2_pos p) ≤ n.
Proof.
  induction p as [p IH|p IH|]; intros n Hn H; cbn [digits2_pos];
    (assert (n ≠ 0) by (intros ->; cbn in H; lia)); [| |lia];
    replace n with (Z.succ (n - 1)) in H by lia;
    rewrite Z.pow_succ_r in H by lia;
    specialize (IH (n - 1) ltac:(lia) ltac:(lia)); lia.
Qed.

Lemma digits2_iter p k :
  digits2_pos (Pos.iter xO p k) = (digits2_pos p + k)%positive.
Proof.
  induction k as [|k IH] using Pos.peano_ind.
  - cbn. lia.
  - rewrite Pos.iter_succ. cbn [digits2_pos]. rewrite IH. lia.
Qed.

(** An integer of fewer than 53 bits is converted exactly. *)
Lemma binary_round_small p :
  Z.pos (digits2_pos p) < 53 ->
  binary_round prec emax false p 0
  = S754_finite false (Pos.iter xO p (Z.to_pos (53 - Z.pos (digits2_pos p))))
      (Z.pos (digits2_pos p) - 53).
Proof.
  intros Hd. set (d := digits2_pos p) in *.
  set (q := Z.to_pos (53 - Z.pos d)).
  assert (Hq : Z.pos q = 53 - Z.pos d) by (unfold q; lia).
  unfold binary_round, shl_align. fold d.
  assert (E1 : fexp prec emax (Z.pos d + 0) = Z.pos d - 53)
    by (unfold fexp, emin, prec, emax; lia).
  rewrite E1. replace (Z.pos d - 53 - 0) with (Z.neg q) by lia.
  unfold binary_round_aux, shr_fexp, Zdigits2.
  rewrite digits2_iter. fold d.
  assert (E2 : fexp prec emax (Z.pos (d + q) + (Z.pos d - 53)) - (Z.pos d - 53)
               = 0)
    by (unfold fexp, emin, prec, emax; lia).
  rewrite E2.
  cbn [shr shr_record_of_loc shr_m loc_of_shr_record round_nearest_even Zdigits2].
  rewrite digits2_iter. fold d. rewrite E2. cbn [shr shr_m shr_record_of_loc].
  unfold prec, emax.
  destruct (Z.leb_spec (Z.pos d - 53) (1024 - 53)); [reflexivity|lia].
Qed.

Lemma float_of_int_small z :
  0 ≤ z < 2 ^ 52 -> ∃ f, float_of_int z = Some f.
Proof.
  intros Hz. unfold float_of_int. cbv zeta.
  destruct z as [|p|p]; [eexists; vm_compute; reflexivity| |lia].
  cbn [binary_normalize].
  assert (Hd : Z.pos (digits2_pos p) < 53).
  { pose proof (digits2_pos_bound p 52 ltac:(lia) ltac:(lia)). lia. }
  rewrite (binary_round_small p Hd).
  set (sf := S754_finite _ _ _).
  assert (Hv : valid_binary sf = true).
  { unfold sf, valid_binary, bounded, canonical_mantissa.
    rewrite digits2_iter. apply andb_true_intro. split.
    - apply Z.eqb_eq. unfold fexp, emin, prec, emax. lia.
    - apply Z.leb_le. unfold prec, emax. lia. }
  assert (Hi : is_infinity (SF2Prim sf) = false).
  { unfold is_infinity.
    rewrite FloatAxioms.eqb_spec, FloatAxioms.abs_spec,
      (FloatAxioms.Prim2SF_SF2Prim _ Hv).
    reflexivity. }
  rewrite Hi. eauto.
Qed.

Lemma resolve_center_small override intrinsics principal dim :
  0 ≤ dim < 2 ^ 52 ->
  ∃ c, resolve_center override intrinsics principal dim = Ok c.
Proof.
  intros Hd. unfold resolve_center.
  destruct override, intrinsics; eauto.
  destruct (dim =? 0); [eauto|].
  destruct (float_of_int_small dim Hd) as [f ->]. eauto.
Qed.

Lemma parsed_sizes lim fuel files ply_path r :
  parse_ply_metadata lim fuel files ply_path = Some r ->
  ∀ w h, r.2 = Some (w, h) -> 0 ≤ w < 2 ^ 32 ∧ 0 ≤ h < 2 ^ 32.
Proof.
  unfold parse_ply_metadata.
  destruct (files ply_path) as [content|]; [|intros [= <-]; discriminate].
  intros H. apply parse_content_camera in H as [->|[s ->]]; [discriminate|].
  apply read_camera_shape.
Qed.

Lemma resolver_total metadata lim fuel files ply_path args :
  parse_ply_metadata lim fuel files ply_path = Some (metadata ply_path) ->
  a_width args = None -> a_height args = None ->
  ∃ p, resolve_render_params metadata ply_path args = Ok p.
Proof.
  intros Hm Hw Hh. pose proof (parsed_sizes _ _ _ _ _ Hm) as Hs.
  unfold resolve_render_params. rewrite Hw, Hh.
  assert (Hs' : ∀ w h,
    (if use_ply_camera args then metadata ply_path else (None, None)).2
    = Some (w, h) -> 0 ≤ w < 2 ^ 32 ∧ 0 ≤ h < 2 ^ 32)
    by (destruct (use_ply_camera args); [exact Hs|discriminate]).
  destruct (if use_ply_camera args then metadata ply_path else (None, None))
    as [intrinsics image_size]. cbn [snd] in Hs'.
  set (width := match image_size with Some (w, _) => w | None => 1920 end).
  set (height := match image_size with Some (_, h) => h | None => 1080 end).
  assert (0 ≤ width < 2 ^ 52 ∧ 0 ≤ height < 2 ^ 52) as [Hwd Hht].
  { unfold width, height. change (2 ^ 52) with 4503599627370496.
    destruct image_size as [[w h]|]; [|lia].
    destruct (Hs' w h eq_refl). change (2 ^ 32) with 4294967296 in *. lia. }
  destruct (resolve_center_small (a_center_x args) intrinsics k02 width Hwd)
    as [cx ->].
  destruct (resolve_center_small (a_center_y args) intrinsics k12 height Hht)
    as [cy ->].
  eauto.
Qed.

(** X6: whatever the file holds, once the parser has returned the parameter
    resolver returns for it when neither [--width] nor [--height] is
    given, as the two orchestrators call it: the dimensions it converts
    are then the two unsigned 32-bit numbers of the file or the defaults
    1920 and 1080, so the [OverflowError] of [float] cannot arise, and the
    resolved dimensions are below 2^32. *)
Theorem resolver_returns_without_size_overrides
    metadata lim fuel files ply_path args :
  parse_ply_metadata lim fuel files ply_path = Some (metadata ply_path) ->
  a_width args = None -> a_height args = None ->
  ∃ p, resolve_render_params metadata ply_path args = Ok p
    ∧ 0 ≤ width p < 2 ^ 32 ∧ 0 ≤ height p < 2 ^ 32.
Proof.
  intros Hm Hw Hh.
  destruct (resolver_total _ _ _ _ _ _ Hm Hw Hh) as [p Hp].
  exists p. split; [exact Hp|].
  pose proof (parsed_sizes _ _ _ _ _ Hm) as Hs.
  destruct (RenderFacts.resolve_fields _ _ _ _ Hp) as (E1 & E2 & _).
  rewrite E1, E2, Hw, Hh. unfold Spec.embedded.
  destruct (use_ply_camera args); [|cbn; lia].
  destruct (metadata ply_path) as [intrinsics [[w h]|]]; [|cbn; lia].
  cbn. exact (Hs w h eq_refl).
Qed.

Lemma resolver_returns_without_size_overrides_witness :
  ∃ p, resolve_render_params
         (fun _ => (Some (mat3_of_bytes sample_intrinsic), Some (1920, 1080)))
         "frame_000000.ply" RenderArgs_init = Ok p
    ∧ 0 ≤ width p < 2 ^ 32 ∧ 0 ≤ height p < 2 ^ 32.
Proof.
  apply (resolver_returns_without_size_overrides
           (fun _ => (Some (mat3_of_bytes sample_intrinsic), Some (1920, 1080)))
           4300 14 (fun _ => Some sample_file) "frame_000000.ply" RenderArgs_init);
    [vm_compute; reflexivity|reflexivity|reflexivity].
Defined.


(** X7: from the bytes of a file to the parameters of the renderer: for a
    file laid out as the parser expects and no override, the resolver
    returns the image size of the file, the focal lengths at positions
    (0,0) and (1,1) of its intrinsic matrix, no field of view, and the
    principal point of the matrix divided by the image size (0.5 for a
    dimension that is 0). *)
Theorem resolved_from_camera_block metadata files ply_path
    lim ls st vertex_data extrinsic intrinsic w h rest fuel :
  files ply_path
  = Some (join_lines ls ++ "end_header" ++ String newline
            (vertex_data ++ extrinsic ++ intrinsic
             ++ u32_bytes w ++ u32_bytes h ++ rest)) ->
  forallb clean_line ls = true ->
  header_lines lim header_start (decode_ascii_ignore <$> ls) = Some st ->
  Z.of_nat (String.length vertex_data)
  = vertex_count st * vertex_size (vertex_props st) ->
  String.length extrinsic = 64%nat ->
  String.length intrinsic = 36%nat ->
  0 ≤ w < 2 ^ 32 -> 0 ≤ h < 2 ^ 32 ->
  (length ls < fuel)%nat ->
  parse_ply_metadata lim fuel files ply_path = Some (metadata ply_path) ->
  ∃ p, resolve_render_params metadata ply_path RenderArgs_init = Ok p
    ∧ width p = w ∧ height p = h
    ∧ focal_x p = Some (f32_at intrinsic 0)
    ∧ focal_y p = Some (f32_at intrinsic 4)
    ∧ fov_x p = None ∧ fov_y p = None
    ∧ center_x p = default 0.5%float (Spec.normalized (f32_at intrinsic 2) w)
    ∧ center_y p = default 0.5%float (Spec.normalized (f32_at intrinsic 5) h).
Proof.
  intros Hf Hc Hs Hv He Hi Hw Hh Hfuel Hm.
  destruct (resolver_total metadata lim fuel files ply_path RenderArgs_init Hm
              eq_refl eq_refl) as [p Hp].
  exists p. split; [exact Hp|].
  assert (E : metadata ply_path = (Some (mat3_of_bytes intrinsic), Some (w, h))).
  { unfold parse_ply_metadata in Hm. rewrite Hf in Hm.
    rewrite (parse_laid_out lim ls st _ fuel Hc Hs) in Hm by (assumption || lia).
    rewrite <- Hv, Nat2Z.id, PyFacts.drop_str_append in Hm.
    rewrite read_camera_block in Hm by assumption. congruence. }
  destruct (RenderFacts.resolve_fields _ _ _ _ Hp)
    as (H1 & H2 & H3 & H4 & H5 & H6 & H7 & H8).
  unfold Spec.embedded in *. cbn [use_ply_camera RenderArgs_init] in *.
  rewrite E in *. cbn in H1, H2, H3, H4, H7, H8.
  rewrite H3 in H7. cbn in H7.
  repeat split; try assumption.
  - rewrite H5, H1. cbn -[f32_at Spec.normalized].
    destruct (Spec.normalized _ _); reflexivity.
  - rewrite H6, H2. cbn -[f32_at Spec.normalized].
    destruct (Spec.normalized _ _); reflexivity.
Qed.

Lemma resolved_from_camera_block_witness :
  ∃ p, resolve_render_params
         (fun _ => (Some (mat3_of_bytes sample_intrinsic), Some (1920, 1080)))
         "frame_000000.ply" RenderArgs_init = Ok p
    ∧ width p = 1920 ∧ height p = 1080
    ∧ focal_x p = Some 1000%float ∧ focal_y p = Some 1000%float
    ∧ fov_x p = None ∧ fov_y p = None
    ∧ center_x p = 0.5%float ∧ center_y p = 0.5%float.
Proof.
  destruct (resolved_from_camera_block
              (fun _ => (Some (mat3_of_bytes sample_intrinsic), Some (1920, 1080)))
              (fun _ => Some sample_file) "frame_000000.ply" 4300 sample_header
              (HeaderState false 2 ["float"; "float"; "uchar"; "uchar"])
              (fill 20 "a") (fill 64 "b") sample_intrinsic 1920 1080
              "trailing" 14) as [p Hp];
    [reflexivity|reflexivity|reflexivity|reflexivity|reflexivity|reflexivity
    |lia|lia|cbn; lia|vm_compute; reflexivity|].
  exists p. exact Hp.
Defined.

End PlyFacts.

(** * Facts about the command line of render_ply_to_image.py *)

Module CliFacts.
Import Sys Render Watcher Spec Cli Layout.

(** ** Sorting paths *)

Lemma compare_trans_le a : ∀ b c,
  String.compare a b ≠ Gt -> String.compare b c ≠ Gt -> String.compare a c ≠ Gt.
Proof.
  induction a as [|x a IH]; intros [|y b] [|z c]; cbn; try congruence.
  unfold Ascii.compare.
  destruct (N.compare_spec (N_of_ascii x) (N_of_ascii y)),
           (N.compare_spec (N_of_ascii y) (N_of_ascii z)),
           (N.compare_spec (N_of_ascii x) (N_of_ascii z));
    try congruence; try lia; eauto.
Qed.

Lemma leb_trans a b c :
  String.leb a b = true -> String.leb b c = true -> String.leb a c = true.
Proof.
  unfold String.leb. intros H1 H2.
  pose proof (compare_trans_le a b c) as H.
  destruct (String.compare a b), (String.compare b c), (String.compare a c);
    try reflexivity; try discriminate; exfalso; apply H; congruence.
Qed.

Lemma insert_path_perm x l : insert_path x l ≡ₚ x :: l.
Proof.
  induction l as [|y l IH]; [reflexivity|]. cbn [insert_path].
  destruct (String.leb x y); [reflexivity|].
  rewrite IH. apply Permutation_swap.
Qed.

Lemma sorted_perm l : sorted l ≡ₚ l.
Proof.
  induction l as [|x l IH]; [reflexivity|]. cbn [sorted].
  rewrite insert_path_perm, IH. reflexivity.
Qed.

Lemma insert_path_sorted x l :
  StronglySorted (fun a b => String.leb a b = true) l ->
  StronglySorted (fun a b => String.leb a b = true) (insert_path x l).
Proof.
  induction 1 as [|y l Hs IH Hy]; [repeat constructor|]. cbn [insert_path].
  destruct (String.leb x y) eqn:E.
  - constructor; [constructor; assumption|].
    constructor; [exact E|].
    eapply Forall_impl; [exact Hy|]. intros z Hz. exact (leb_trans _ _ _ E Hz).
  - constructor; [exact IH|].
    rewrite insert_path_perm. constructor; [|exact Hy].
    destruct (String.leb_total x y) as [H|H]; congruence.
Qed.

Lemma sorted_sorted l :
  StronglySorted (fun a b => String.leb a b = true) (sorted l).
Proof.
  induction l as [|x l IH]; [constructor|]. apply insert_path_sorted, IH.
Qed.

Lemma strongly_sorted_prefix l1 l2 :
  l1 `prefix_of` l2 ->
  StronglySorted (fun a b => String.leb a b = true) l2 ->
  StronglySorted (fun a b => String.leb a b = true) l1.
Proof.
  intros [k ->] H. revert H. induction l1 as [|x l1 IH]; [constructor|].
  cbn. intros H. apply StronglySorted_inv in H as [H1 H2].
  constructor; [auto|]. apply Forall_app in H2 as [H2 _]. exact H2.
Qed.

(** ** Pieces of trace *)

Lemma yielded_app a b : yielded (a ++ b) = (yielded a ++ yielded b)%list.
Proof. apply omap_app. Qed.

Lemma runs_app a b : runs (a ++ b) = (runs a ++ runs b)%list.
Proof. apply omap_app. Qed.

Lemma statuses_app brush a : ∀ n b,
  statuses brush n (a ++ b)
  = (statuses brush n a ++ statuses brush (n + length a) b)%list.
Proof.
  induction a as [|e a IH]; intros n b.
  - cbn. rewrite Nat.add_0_r. reflexivity.
  - cbn [app statuses length]. rewrite IH.
    replace (S n + length a)%nat with (n + S (length a))%nat by lia.
    destruct e; reflexivity.
Qed.

Section WithEnvironment.

Variable parse_ply_metadata : string -> option mat3 * option (Z * Z).
Variable str_float : float -> string.
Variable brush : nat -> list string -> Z * bool.
Variable local_bin : option string.
Variable which : string -> bool.
Variable input_dir_exists : bool.
Variable mkdir_error : option exn.
Variable spawn_error : nat -> option exn.

(** One call of [render_file]: the directory cannot be made, or the run
    is dry, or the process cannot be started, or it exits with a status. *)
Lemma render_file_cases mk sp in_dir out_dir ply output bin p pos rot bg sub
    extra dry w :
  ∃ cmd,
    render_file str_float brush mk sp in_dir out_dir ply
      output bin p pos rot bg sub extra dry w
    = match mk with
      | Some e => (Raise e, w)
      | None =>
          if dry then (Ok 0, w)
          else
            match sp (length (tr w)) with
            | Some e =>
                (Raise e,
                 World (inp w) (out w) (seen_sizes w) (processed w)
                       (tr w ++ [EvRun ply output cmd]))
            | None =>
                (Ok (brush (length (tr w)) cmd).1,
                 World (inp w) (wrote (brush (length (tr w)) cmd) output (out w))
                       (seen_sizes w) (processed w)
                       (tr w ++ [EvRun ply output cmd]))
            end
      end.
Proof.
  exists (build_brush_command str_float bin (in_dir ++ "/" ++ ply)
            (out_dir ++ "/" ++ output) (Some (width p)) (Some (height p))
            (fov_x p) (fov_y p) (focal_x p) (focal_y p) (center_x p)
            (center_y p) pos rot bg sub extra).
  unfold render_file, mkdir_parents, bind, raise, ret, subprocess_run,
    Render.subprocess_run, wrote.
  destruct mk; [reflexivity|]. destruct dry; [reflexivity|].
  destruct (sp _); [reflexivity|].
  destruct (brush _ _) as [code leaves]. cbn.
  destruct (Z.eqb_spec code 0) as [->|]; reflexivity.
Qed.

Lemma render_frame_effect mk sp args bin ply w r w' :
  render_frame parse_ply_metadata str_float brush mk sp args bin ply w
  = (r, w') ->
  inp w' = inp w
  ∧ ∃ evs, tr w' = (tr w ++ evs)%list
      ∧ yielded evs = [ply]
      ∧ frame_effect parse_ply_metadata brush mk sp args
          (length (tr w)) [ply] r evs (out w' = out w).
Proof.
  unfold render_frame, bind, emit.
  destruct (resolve_render_params _ _ _) as [p|e] eqn:Hp.
  2: { intros [= <- <-]. split; [reflexivity|]. exists [EvResolve ply].
       repeat split; cbn; try (discriminate || reflexivity).
       - right. eauto.
       - intros e' [= <-]. left. eauto. }
  set (w1 := World (inp w) (out w) (seen_sizes w) (processed w)
                   (tr w ++ [EvResolve ply])).
  assert (Hlen : length (tr w ++ [EvResolve ply]) = S (length (tr w)))
    by (rewrite length_app; cbn; lia).
  (* the directory cannot be made: the first call raises *)
  destruct mk as [em|].
  { assert (r = Raise em ∧ w' = w1 -> inp w' = inp w
      ∧ ∃ evs, tr w' = (tr w ++ evs)%list ∧ yielded evs = [ply]
          ∧ frame_effect parse_ply_metadata brush (Some em) sp args
              (length (tr w)) [ply] r evs (out w' = out w))
      as Hdone.
    { intros [-> ->]. split; [reflexivity|]. exists [EvResolve ply].
      repeat split; cbn; try (discriminate || reflexivity); eauto.
      intros e [= <-]. auto. }
    destruct (arg_mono args).
    - edestruct render_file_cases as [cmd ->].
      intros [= <- <-]. auto.
    - destruct (stereo_camera_positions _ _) as [left_pos right_pos].
      edestruct render_file_cases as [cmd ->].
      intros [= <- <-]. auto. }
  destruct (arg_dry_run args) eqn:Hdry.
  { assert (r = Ok 0 ∧ w' = w1 -> inp w' = inp w
      ∧ ∃ evs, tr w' = (tr w ++ evs)%list ∧ yielded evs = [ply]
          ∧ frame_effect parse_ply_metadata brush None sp args
              (length (tr w)) [ply] r evs (out w' = out w))
      as Hdone.
    { intros [-> ->]. split; [reflexivity|]. exists [EvResolve ply].
      repeat split; cbn; try (discriminate || reflexivity); auto.
      + intros code [= <-]. exists 0%nat. reflexivity.
      + congruence. }
    destruct (arg_mono args).
    - edestruct render_file_cases as [cmd ->]. intros [= <- <-]. auto.
    - destruct (stereo_camera_positions _ _) as [left_pos right_pos].
      edestruct render_file_cases as [cmd ->]. cbn [negb Z.eqb].
      edestruct render_file_cases as [cmd' ->].
      intros [= <- <-]. auto. }
  destruct (arg_mono args) eqn:Hmono.
  - edestruct render_file_cases as [cmd ->].
    cbn [tr inp out w1]. rewrite Hlen.
    destruct (sp (S (length (tr w)))) as [es|] eqn:Hsp;
      intros [= <- <-]; cbn [tr inp out]; (split; [reflexivity|]);
      exists [EvResolve ply; EvRun ply (Py.stem ply ++ ".png") cmd];
      (split; [cbn; rewrite <- app_assoc; reflexivity|]);
      (split; [reflexivity|]);
      split; cbn; try (discriminate || reflexivity || congruence).
    + intros e [= <-]. eauto.
    + intros code [= <-].
      destruct (Z.eqb_spec (brush (S (length (tr w))) cmd).1 0) as [->|_];
        [exists 1%nat|exists 0%nat]; reflexivity.
    + intros _ _. unfold images. rewrite Hmono. reflexivity.
  - destruct (stereo_camera_positions _ _) as [left_pos right_pos].
    edestruct render_file_cases as [cmd_l ->].
    cbn [tr inp out w1]. rewrite Hlen.
    set (ev_l := EvRun ply (Py.stem ply ++ "_left.png") cmd_l).
    destruct (sp (S (length (tr w)))) as [es|] eqn:Hsp.
    { intros [= <- <-]. cbn [tr inp out]. split; [reflexivity|].
      exists [EvResolve ply; ev_l].
      split; [cbn; rewrite <- app_assoc; reflexivity|].
      split; [reflexivity|].
      split; cbn; try (discriminate || reflexivity || congruence).
      intros e [= <-]. eauto. }
    set (st_l := brush (S (length (tr w))) cmd_l).
    destruct (Z.eqb_spec st_l.1 0) as [El|El]; cbn [negb ret].
    + edestruct render_file_cases as [cmd_r ->].
      cbn [tr inp out].
      set (ev_r := EvRun ply (Py.stem ply ++ "_right.png") cmd_r).
      assert (Hl2 : length ((tr w ++ [EvResolve ply]) ++ [ev_l])
                    = S (S (length (tr w))))
        by (rewrite !length_app; cbn; lia).
      rewrite Hl2.
      destruct (sp (S (S (length (tr w))))) as [es|] eqn:Hsp2;
        intros [= <- <-]; cbn [tr inp out]; (split; [reflexivity|]);
        exists [EvResolve ply; ev_l; ev_r];
        (split; [cbn; rewrite <- !app_assoc; reflexivity|]);
        (split; [reflexivity|]);
        split; cbn; try (discriminate || reflexivity || congruence).
      * intros e [= <-]. eauto.
      * intros code [= <-]. fold st_l. rewrite El.
        destruct (Z.eqb_spec (brush (S (S (length (tr w)))) cmd_r).1 0)
          as [->|_]; [exists 2%nat|exists 1%nat]; reflexivity.
      * intros _ _. unfold images. rewrite Hmono. reflexivity.
    + intros [= <- <-]. split; [reflexivity|].
      exists [EvResolve ply; ev_l].
      split; [cbn; rewrite <- !app_assoc; reflexivity|].
      split; [reflexivity|].
      split; cbn; try (discriminate || reflexivity || congruence).
      * intros code [= <-]. exists 0%nat. fold st_l.
        destruct (Z.eqb_spec st_l.1 0); [contradiction|reflexivity].
Qed.

Lemma render_frames_effect args bin files : ∀ w r w',
  render_frames parse_ply_metadata str_float brush mkdir_error spawn_error
    args bin files w = (r, w') ->
  inp w' = inp w
  ∧ ∃ evs, tr w' = (tr w ++ evs)%list
      ∧ frame_effect parse_ply_metadata brush mkdir_error spawn_error args
          (length (tr w)) files r evs (out w' = out w).
Proof.
  induction files as [|ply rest IH]; intros w r w'.
  - intros [= <- <-]. split; [reflexivity|]. exists [].
    split; [rewrite app_nil_r; reflexivity|].
    split; cbn; try (discriminate || reflexivity || congruence); auto.
    intros code [= <-]. exists 0%nat. reflexivity.
  - cbn [render_frames]. unfold bind at 1.
    destruct (render_frame _ _ _ _ _ _ _ _ w) as [[code|e] w1] eqn:E1;
      apply render_frame_effect in E1 as (Hi1 & evs1 & Ht1 & Hy1 & F1).
    2: { intros [= <- <-]. split; [exact Hi1|]. exists evs1.
         split; [exact Ht1|]. destruct F1.
         split; try (discriminate || assumption).
         rewrite Hy1. exists rest. reflexivity. }
    destruct (Z.eqb_spec code 0) as [->|Hc]; cbn [negb].
    2: { intros [= <- <-]. split; [exact Hi1|]. exists evs1.
         split; [exact Ht1|]. destruct F1.
         split; try (discriminate || assumption || congruence).
         rewrite Hy1. exists rest. reflexivity. }
    intros E2. apply IH in E2 as (Hi2 & evs2 & Ht2 & F2).
    split; [congruence|]. exists (evs1 ++ evs2)%list.
    split; [rewrite Ht2, Ht1, app_assoc; reflexivity|].
    destruct F1 as [_ _ D1 _ M1 S1 I1], F2 as [P2 A2 D2 R2 M2 S2 I2].
    split.
    + rewrite yielded_app, Hy1. apply prefix_cons, P2.
    + intros Hr. rewrite yielded_app, Hy1, (A2 Hr). reflexivity.
    + intros Hd. destruct (D1 Hd) as (Hr1 & Ho1 & _).
      destruct (D2 Hd) as (Hr2 & Ho2 & Hres). rewrite runs_app, Hr1, Hr2.
      repeat split; [congruence|exact Hres].
    + intros e He. destruct (R2 e He) as [(p & Hp & Hl)|H]; [left|right; exact H].
      exists p. split; [exact Hp|]. rewrite last_app, Hl. reflexivity.
    + intros e He _. exfalso. apply (M1 e He); [discriminate|reflexivity].
    + intros code Hr. destruct (S1 0 eq_refl) as [k1 Hk1].
      destruct (S2 code Hr) as [k2 Hk2]. exists (k1 + k2)%nat.
      rewrite statuses_app, Hk1. cbn [Z.eqb]. rewrite app_nil_r.
      replace (length (tr w) + length evs1)%nat with (length (tr w1))
        by (rewrite Ht1, length_app; reflexivity).
      rewrite Hk2, replicate_add, app_assoc. reflexivity.
    + intros Hr Hd. rewrite runs_app, yielded_app, flat_map_app.
      rewrite (I1 eq_refl Hd), (I2 Hr Hd). reflexivity.
Qed.

Lemma main_cases args w r w' :
  main parse_ply_metadata str_float brush local_bin which input_dir_exists
    mkdir_error spawn_error args w = (r, w') ->
  (r = Ok 1 ∧ w' = w
   ∧ (which (selected_bin local_bin args) = false
      ∨ input_dir_exists = false ∨ glob_ply (inp w) = []))
  ∨ (which (selected_bin local_bin args) = true
     ∧ input_dir_exists = true
     ∧ glob_ply (inp w) ≠ []
     ∧ render_frames parse_ply_metadata str_float brush mkdir_error
         spawn_error args (selected_bin local_bin args)
         (if arg_firstFrame args then take 1 (sorted (glob_ply (inp w)))
          else sorted (glob_ply (inp w))) w = (r, w')).
Proof.
  unfold main, ensure_brush_binary. fold (selected_bin local_bin args).
  destruct (which _); cbn [negb];
    [|intros [= <- <-]; left; auto].
  destruct input_dir_exists; cbn [negb];
    [|intros [= <- <-]; left; auto].
  destruct (glob_ply (inp w)) as [|f l] eqn:E.
  - intros [= <- <-]. left. auto.
  - rewrite <- E. destruct (sorted (glob_ply (inp w))) as [|g tl] eqn:Es.
    + pose proof (sorted_perm (glob_ply (inp w))) as Hp.
      rewrite Es, E in Hp. apply Permutation_nil_cons in Hp. contradiction.
    + intros H. right. rewrite E at 1. auto.
Qed.

(** X8: without a renderer on the path, without the input directory or
    without any [.ply] file in it, [main] returns 1 and neither resolves
    nor renders anything, also under [--dry-run]. *)
Theorem main_refuses args w :
  which (selected_bin local_bin args) = false
  ∨ input_dir_exists = false ∨ glob_ply (inp w) = [] ->
  main parse_ply_metadata str_float brush local_bin which input_dir_exists
    mkdir_error spawn_error args w = (Ok 1, w).
Proof.
  unfold main, ensure_brush_binary. fold (selected_bin local_bin args).
  intros [H|[H|H]].
  - rewrite H. reflexivity.
  - rewrite H. destruct (which _); reflexivity.
  - destruct (which _), input_dir_exists; try reflexivity.
    cbn [negb]. rewrite H. reflexivity.
Qed.

(** X9: [main] goes through the [.ply] files of the input directory in the
    lexicographic order of their names, each at most once; when it
    returns 0 without [--firstFrame] it has gone through all of them. *)
Theorem main_renders_in_name_order args w r w' :
  main parse_ply_metadata str_float brush local_bin which input_dir_exists
    mkdir_error spawn_error args w = (r, w') ->
  ∃ evs, tr w' = (tr w ++ evs)%list
    ∧ lex_sorted (yielded evs)
    ∧ yielded evs ⊆+ glob_ply (inp w)
    ∧ (r = Ok 0 -> arg_firstFrame args = false ->
       yielded evs ≡ₚ glob_ply (inp w)).
Proof.
  intros H. apply main_cases in H as [(-> & -> & _)|(_ & _ & _ & H)].
  - exists []. rewrite app_nil_r. repeat split; try discriminate.
    + constructor.
    + apply submseteq_nil_l.
  - apply render_frames_effect in H as (_ & evs & Ht & [P A _ _ _ _ _]).
    exists evs. split; [exact Ht|].
    assert (Hpre : yielded evs `prefix_of` sorted (glob_ply (inp w))).
    { destruct (arg_firstFrame args); [|exact P].
      etrans; [exact P|apply prefix_take]. }
    repeat split.
    + apply StronglySorted_Sorted.
      exact (strongly_sorted_prefix _ _ Hpre (sorted_sorted _)).
    + rewrite <- (sorted_perm (glob_ply (inp w))).
      destruct Hpre as [k ->]. apply sublist_submseteq, sublist_inserts_r.
      reflexivity.
    + intros Hr Hf. rewrite Hf in A. rewrite (A Hr). apply sorted_perm.
Qed.

(** X11: under [--dry-run] no renderer is started, the input directory is
    left alone and no file appears in the output directory; [main] returns
    0 or 1 or ends with an exception. The output directory is made all the
    same: when it cannot be made a dry run does not return 0. *)
Theorem main_dry_run args w r w' :
  arg_dry_run args = true ->
  main parse_ply_metadata str_float brush local_bin which input_dir_exists
    mkdir_error spawn_error args w = (r, w') ->
  inp w' = inp w ∧ out w' = out w
  ∧ (∃ evs, tr w' = (tr w ++ evs)%list ∧ runs evs = [])
  ∧ (r = Ok 0 ∨ r = Ok 1 ∨ ∃ e, r = Raise e)
  ∧ (mkdir_error ≠ None -> r ≠ Ok 0).
Proof.
  intros Hd H. apply main_cases in H as [(-> & -> & _)|(_ & _ & Hg & H)].
  - repeat split; [|auto|discriminate]. exists []. rewrite app_nil_r. auto.
  - apply render_frames_effect in H as (Hi & evs & Ht & [_ _ D _ M _ _]).
    destruct (D Hd) as (Hr & Ho & Hres).
    repeat split; [exact Hi|exact Ho|eauto|tauto|].
    intros Hmk.
    assert (∃ e, mkdir_error = Some e) as [e He]
      by (destruct mkdir_error; [eauto|contradiction]).
    apply (M e He).
    pose proof (sorted_perm (glob_ply (inp w))) as Hp.
    destruct (arg_firstFrame args);
      destruct (sorted (glob_ply (inp w))) as [|f l];
      try discriminate; apply Permutation_nil in Hp; contradiction.
Qed.


(** X13: when [main] returns 0 without [--dry-run], the renderer processes
    it started are, frame by frame in the order of the frames, one for the
    image [<stem>.png] under [--mono], otherwise one for [<stem>_left.png]
    followed by one for [<stem>_right.png]. *)
Theorem main_images_on_success args w w' :
  arg_dry_run args = false ->
  main parse_ply_metadata str_float brush local_bin which input_dir_exists
    mkdir_error spawn_error args w = (Ok 0, w') ->
  ∃ evs, tr w' = (tr w ++ evs)%list
    ∧ runs evs = flat_map (images args) (yielded evs).
Proof.
  intros Hd H. apply main_cases in H as [(H & _)|(_ & _ & _ & H)];
    [discriminate H|].
  apply render_frames_effect in H as (_ & evs & Ht & [_ _ _ _ _ _ I]).
  exists evs. auto.
Qed.

Lemma render_frames_app args bin before : ∀ rest w w1,
  render_frames parse_ply_metadata str_float brush mkdir_error spawn_error
    args bin before w = (Ok 0, w1) ->
  render_frames parse_ply_metadata str_float brush mkdir_error spawn_error
    args bin (before ++ rest) w
  = render_frames parse_ply_metadata str_float brush mkdir_error spawn_error
      args bin rest w1.
Proof.
  induction before as [|f before IH]; intros rest w w1.
  - intros [= <-]. reflexivity.
  - cbn [render_frames app]. unfold bind.
    destruct (render_frame _ _ _ _ _ _ _ _ w) as [[code|e] w0]; [|discriminate].
    destruct (Z.eqb_spec code 0) as [->|Hc]; cbn [negb].
    + apply IH.
    + intros [= -> _]. contradiction.
Qed.

(** X14: nothing catches a failure of the parameter resolver: when the frames
    before a frame have been rendered with status 0 and the resolver raises
    for that frame, [main] ends with that exception, which is
    [OverflowError]; no renderer is started for the frame, and the frames
    after it are not looked at. *)
Theorem main_stops_at_resolver_failure args w before ply after w1 e :
  which (selected_bin local_bin args) = true ->
  input_dir_exists = true ->
  (if arg_firstFrame args then take 1 (sorted (glob_ply (inp w)))
   else sorted (glob_ply (inp w))) = (before ++ ply :: after)%list ->
  render_frames parse_ply_metadata str_float brush mkdir_error spawn_error
    args (selected_bin local_bin args) before w = (Ok 0, w1) ->
  resolve_render_params parse_ply_metadata ply (render_args args) = Raise e ->
  e = OverflowError
  ∧ main parse_ply_metadata str_float brush local_bin which input_dir_exists
      mkdir_error spawn_error args w
    = (Raise e,
       World (inp w1) (out w1) (seen_sizes w1) (processed w1)
             (tr w1 ++ [EvResolve ply])).
Proof.
  intros Hw Hx Hl Hb Hp.
  split; [exact (proj1 (RenderFacts.resolve_raise _ _ _ _ Hp))|].
  unfold main, ensure_brush_binary. fold (selected_bin local_bin args).
  rewrite Hw, Hx. cbn [negb].
  destruct (sorted (glob_ply (inp w))) as [|f l] eqn:Es.
  { destruct (arg_firstFrame args), before; discriminate Hl. }
  rewrite Hl, (render_frames_app _ _ _ _ _ _ Hb).
  cbn [render_frames]. unfold bind at 1.
  unfold render_frame, bind, emit. rewrite Hp. reflexivity.
Qed.

(** X10: under [--firstFrame] exactly one frame is gone through: the file
    whose name is the least in the lexicographic order. *)
Theorem main_first_frame args w r w' :
  arg_firstFrame args = true ->
  which (selected_bin local_bin args) = true ->
  input_dir_exists = true ->
  glob_ply (inp w) ≠ [] ->
  main parse_ply_metadata str_float brush local_bin which input_dir_exists
    mkdir_error spawn_error args w = (r, w') ->
  ∃ evs f, tr w' = (tr w ++ evs)%list
    ∧ yielded evs = [f]
    ∧ f ∈ glob_ply (inp w)
    ∧ ∀ g, g ∈ glob_ply (inp w) -> String.leb f g = true.
Proof.
  intros Hf Hw Hx Hg H.
  apply main_cases in H as [(_ & _ & Hno)|(_ & _ & _ & H)].
  { destruct Hno as [?|[?|?]]; congruence. }
  rewrite Hf in H.
  pose proof (sorted_perm (glob_ply (inp w))) as Hp.
  pose proof (sorted_sorted (glob_ply (inp w))) as Hs.
  destruct (sorted (glob_ply (inp w))) as [|f tl].
  { apply Permutation_nil in Hp. contradiction. }
  cbn [take render_frames] in H. unfold bind at 1 in H.
  assert (∃ evs, tr w' = (tr w ++ evs)%list ∧ yielded evs = [f])
    as (evs & Ht & Hy).
  { destruct (render_frame _ _ _ _ _ _ _ _ w) as [[code|e] w1] eqn:E1;
      apply render_frame_effect in E1 as (_ & evs1 & Ht1 & Hy1 & _).
    - destruct (negb (code =? 0)); injection H as <- <-; eauto.
    - injection H as <- <-. eauto. }
  exists evs, f. repeat split; [exact Ht|exact Hy| |].
  - rewrite <- Hp. left.
  - intros g Hin. rewrite <- Hp in Hin. apply StronglySorted_inv in Hs as [_ Hs].
    apply elem_of_cons in Hin as [->|Hin].
    + destruct (String.leb_total f f); assumption.
    + rewrite Forall_forall in Hs. apply Hs, Hin.
Qed.

End WithEnvironment.

Lemma main_refuses_witness :
  main Spec.sample_metadata sample_str_float brush_succeeds None on_path true None no_refusal
    (sample_args false true false None) (boot [("notes.txt", 5)] [])
  = (Ok 1, boot [("notes.txt", 5)] []).
Proof.
  apply (main_refuses Spec.sample_metadata sample_str_float brush_succeeds
           None on_path true None no_refusal).
  right. right. reflexivity.
Defined.

Lemma main_renders_in_name_order_witness :
  let res :=
    main Spec.sample_metadata sample_str_float brush_succeeds None on_path
      true None no_refusal (sample_args false false false None) (boot sample_dir []) in
  ∃ evs, tr res.2 = ([] ++ evs)%list
    ∧ lex_sorted (yielded evs)
    ∧ yielded evs ⊆+ glob_ply sample_dir
    ∧ (res.1 = Ok 0 -> false = false -> yielded evs ≡ₚ glob_ply sample_dir).
Proof.
  intros res.
  apply (main_renders_in_name_order Spec.sample_metadata sample_str_float
           brush_succeeds None on_path true None no_refusal
           (sample_args false false false None) (boot sample_dir [])
           res.1 res.2).
  apply surjective_pairing.
Defined.

Lemma main_dry_run_witness :
  let res :=
    main Spec.sample_metadata sample_str_float brush_succeeds None on_path
      true (Some (OSError "File exists")) no_refusal
      (sample_args false true false None) (boot sample_dir []) in
  inp res.2 = sample_dir ∧ out res.2 = []
  ∧ (∃ evs, tr res.2 = ([] ++ evs)%list ∧ runs evs = [])
  ∧ (res.1 = Ok 0 ∨ res.1 = Ok 1 ∨ ∃ e, res.1 = Raise e)
  ∧ res.1 ≠ Ok 0.
Proof.
  intros res.
  destruct (main_dry_run Spec.sample_metadata sample_str_float brush_succeeds
              None on_path true (Some (OSError "File exists")) no_refusal
              (sample_args false true false None)
              (boot sample_dir []) res.1 res.2 eq_refl
              (surjective_pairing res)) as (H1 & H2 & H3 & H4 & H5).
  repeat split; try assumption. apply H5. discriminate.
Defined.


Lemma main_images_on_success_witness :
  let res :=
    main Spec.sample_metadata sample_str_float brush_succeeds None on_path
      true None no_refusal (sample_args true false false None) (boot sample_dir []) in
  res.1 = Ok 0
  ∧ ∃ evs, tr res.2 = ([] ++ evs)%list
      ∧ runs evs = flat_map (images (sample_args true false false None))
                     (yielded evs).
Proof.
  intros res.
  assert (E : main Spec.sample_metadata sample_str_float brush_succeeds
                None on_path true None no_refusal (sample_args true false false None)
                (boot sample_dir []) = (Ok 0, res.2))
    by (vm_compute; reflexivity).
  split; [exact (f_equal fst E)|].
  exact (main_images_on_success Spec.sample_metadata sample_str_float
           brush_succeeds None on_path true None no_refusal
           (sample_args true false false None) (boot sample_dir []) res.2
           eq_refl E).
Defined.

Lemma main_stops_at_resolver_failure_witness :
  let args := sample_args false false false (Some (2 ^ 1024)) in
  main Spec.sample_metadata sample_str_float brush_succeeds None on_path
    true None no_refusal args (boot sample_dir [])
  = (Raise OverflowError,
     World sample_dir [] ∅ ∅ [EvResolve "frame_10.ply"]).
Proof.
  intros args.
  refine (proj2 (main_stops_at_resolver_failure Spec.sample_metadata
                   sample_str_float brush_succeeds None on_path true None
                   no_refusal args (boot sample_dir []) [] "frame_10.ply"
                   ["frame_9.ply"] (boot sample_dir []) OverflowError
                   _ _ _ _ _));
    vm_compute; reflexivity.
Defined.

Lemma main_first_frame_witness :
  let res :=
    main Spec.sample_metadata sample_str_float brush_succeeds None on_path
      true None no_refusal (sample_args false false true None) (boot sample_dir []) in
  ∃ evs f, tr res.2 = ([] ++ evs)%list
    ∧ yielded evs = [f]
    ∧ f ∈ glob_ply sample_dir
    ∧ ∀ g, g ∈ glob_ply sample_dir -> String.leb f g = true.
Proof.
  intros res.
  apply (main_first_frame Spec.sample_metadata sample_str_float
           brush_succeeds None on_path true None no_refusal
           (sample_args false false true None) (boot sample_dir [])
           res.1 res.2);
    [reflexivity|reflexivity|reflexivity|discriminate|].
  apply surjective_pairing.
Defined.

End CliFacts.

(** * Facts about the tools *)

Module ToolsFacts.
Import Tools Layout.

(** ** The frame rate *)

Lemma positive_not_zero fps :
  (0 <? fps)%float = true -> (fps =? 0)%float = false.
Proof.
  rewrite FloatAxioms.ltb_spec, FloatAxioms.eqb_spec.
  change (Prim2SF 0) with (S754_zero false).
  destruct (Prim2SF fps) as [s|s| |s m e]; try destruct s; cbn;
    congruence.
Qed.

(** X24: [get_video_fps] returns the frame rate of the capture when that is
    greater than zero and 30 otherwise, also when the capture reports a
    negative rate, zero or a NaN; so the rate handed to the encoder is
    always greater than zero. *)
Theorem get_video_fps_positive fps :
  get_video_fps fps = (if (0 <? fps)%float then fps else 30%float)
  ∧ (0 <? get_video_fps fps)%float = true.
Proof.
  unfold get_video_fps.
  destruct (0 <? fps)%float eqn:E.
  - rewrite (positive_not_zero _ E). cbn. auto.
  - rewrite andb_false_r. split; reflexivity.
Qed.

(** ** The estimate *)

(** X25: the estimate shown before the run is seven seconds a frame, rounded
    down to whole minutes, whatever rate the message names. *)
Theorem estimate_seven_seconds_a_frame total_frames :
  0 < total_frames ->
  let '(hours, minutes) := estimate total_frames in
  0 ≤ hours ∧ 0 ≤ minutes < 60
  ∧ 60 * (60 * hours + minutes) ≤ 7 * total_frames
    < 60 * (60 * hours + minutes + 1).
Proof.
  intros H. unfold estimate. cbv zeta.
  Z.div_mod_to_equations. lia.
Qed.

Lemma estimate_seven_seconds_a_frame_witness :
  estimate 1000 = (1, 56)
  ∧ 0 ≤ 1 ∧ 0 ≤ 56 < 60 ∧ 60 * (60 * 1 + 56) ≤ 7 * 1000 < 60 * (60 * 1 + 56 + 1).
Proof.
  split; [reflexivity|].
  exact (estimate_seven_seconds_a_frame 1000 eq_refl).
Defined.

(** ** The menu *)

Lemma all_decimal_digits s : all_decimal s = Spec.all_digits s.
Proof. induction s as [|c s IH]; [reflexivity|]. cbn. rewrite IH. reflexivity. Qed.

Lemma digits_val_all s : ∀ acc,
  all_decimal s = true -> ∃ v, Py.digits_val acc false s = Some v.
Proof.
  induction s as [|c s IH]; intros acc H; [eexists; reflexivity|].
  cbn [all_decimal] in H. apply andb_true_iff in H as [Hc Hs].
  cbn [Py.digits_val]. rewrite Hc. apply IH, Hs.
Qed.

Lemma isdigit_int s : isdigit s = true -> ∃ v, Py.int s = Some v.
Proof.
  intros H. assert (Hne : s ≠ EmptyString) by (destruct s; [discriminate H|discriminate]).
  assert (Ha : all_decimal s = true) by (destruct s; [discriminate H|exact H]).
  rewrite PyFacts.int_digits by (rewrite <- ?all_decimal_digits; assumption).
  apply digits_val_all, Ha.
Qed.

Lemma isdigit_all_decimal s : isdigit s = true -> all_decimal s = true.
Proof. destruct s; [discriminate|auto]. Qed.

Lemma count_digits_all s :
  all_decimal s = true -> PyInt.count_digits s = String.length s.
Proof.
  induction s as [|c s IH]; [reflexivity|]. cbn [all_decimal]. intros H.
  apply andb_true_iff in H as [Hc Hs].
  cbn [PyInt.count_digits String.length]. rewrite Hc, (IH Hs). reflexivity.
Qed.

(** One answer: it ends the loop with the [ValueError] of [int], or with
    a selection, or the menu is shown again. *)
Lemma select_cons lim answer rest entries :
  (refused lim answer = true
   ∧ select lim (answer :: rest) entries = ValueError)
  ∨ (refused lim answer = false
     ∧ ((∃ index, picks entries answer index
                  ∧ select lim (answer :: rest) entries = Selected index rest)
        ∨ ((∀ index, ¬ picks entries answer index)
           ∧ select lim (answer :: rest) entries = select lim rest entries))).
Proof.
  cbn [select]. cbv zeta. unfold refused, picks, PyInt.int.
  destruct (isdigit (strip answer)) eqn:Hd; cbn [negb andb].
  - rewrite (count_digits_all _ (isdigit_all_decimal _ Hd)).
    destruct (PyInt.over lim _); [left; split; reflexivity|].
    right. split; [reflexivity|].
    destruct (isdigit_int _ Hd) as [v Hv]. rewrite Hv.
    destruct (Z.leb_spec 1 v) as [H1|H1];
      [destruct (Z.leb_spec v (Z.of_nat entries)) as [H2|H2]|]; cbn [andb].
    + left. exists v. auto.
    + right. split; [intros index (_ & [= <-] & H); lia|reflexivity].
    + right. split; [intros index (_ & [= <-] & H); lia|reflexivity].
  - right. split; [reflexivity|]. right.
    split; [intros index (H & _); discriminate H|reflexivity].
Qed.

(** X26: the menu loop takes the first answer that, stripped, is a string of
    decimal digits denoting a number from 1 to the number of entries, and
    leaves the later lines unread; so the index it ends with is always a
    valid position of the list. It ends with [EOFError] when standard
    input holds no answer that ends it. [int] fails in it in one case
    only: an answer of decimal digits, more of them than the limit on the
    length of numerals allows, ends the loop with a [ValueError] that
    nothing catches, whatever number it denotes. *)
Theorem select_first_valid lim answers entries :
  match select lim answers entries with
  | Selected index unread =>
      1 ≤ index ≤ Z.of_nat entries
      ∧ ∃ before answer,
          answers = (before ++ answer :: unread)%list
          ∧ Forall (passed_over lim entries) before
          ∧ refused lim answer = false
          ∧ picks entries answer index
  | EOFError => Forall (passed_over lim entries) answers
  | ValueError =>
      ∃ before answer unread,
        answers = (before ++ answer :: unread)%list
        ∧ Forall (passed_over lim entries) before
        ∧ refused lim answer = true
  end.
Proof.
  induction answers as [|answer rest IH]; [constructor|].
  destruct (select_cons lim answer rest entries)
    as [[Hr ->]|[Hr [(index & Hp & ->)|[Hn ->]]]].
  - exists [], answer, rest. repeat split; [constructor|exact Hr].
  - split; [apply Hp|]. exists [], answer. repeat split; try apply Hp;
      [constructor|exact Hr].
  - assert (Hpass : passed_over lim entries answer) by (split; assumption).
    destruct (select lim rest entries) as [index unread| |].
    + destruct IH as (Hi & before & a & -> & Hb & Ha & Hp). split; [exact Hi|].
      exists (answer :: before), a. repeat split; try apply Hp;
        [constructor; assumption|exact Ha].
    + constructor; assumption.
    + destruct IH as (before & a & unread & -> & Hb & Ha).
      exists (answer :: before), a, unread.
      repeat split; [constructor; assumption|exact Ha].
Qed.

End ToolsFacts.

(** * Facts about the render stage of run_ply_to_spatial.py *)

Module SpatialFacts.
Import Sys Render Spec Spatial Layout.

Section WithEnvironment.

Variable parse_ply_metadata : string -> option mat3 * option (Z * Z).
Variable str_float : float -> string.
Variable brush : nat -> list string -> Z * bool.
Variable local_bin : option string.
Variable which : string -> bool.
Variable ply_dir stereo_dir : string.

Lemma orchestrators_agree ply_path brush_bin w :
  Spatial.render_stereo_from_ply parse_ply_metadata str_float brush
    ply_dir stereo_dir ply_path brush_bin w
  = Watcher.render_stereo_from_ply parse_ply_metadata str_float brush
      (as_config ply_dir stereo_dir brush_bin) ply_path w.
Proof. reflexivity. Qed.

(** X28: the orchestrator of [run_ply_to_spatial.py] renders as the one of
    [ply_to_stereo.py] does at the default interpupillary distance: the
    left eye first, with the same command line; a left eye that fails
    raises at once an error naming the file and [(left)] and the right eye
    is not started; after a left eye that succeeds the right eye is
    started, and its failure raises an error naming [(right)]. *)
Theorem spatial_orchestrator_fail_fast ply_path brush_bin p w :
  resolve_render_params parse_ply_metadata ply_path RenderArgs_init = Ok p ->
  let cfg := as_config ply_dir stereo_dir brush_bin in
  let n := length (tr w) in
  let code_l := (brush (S n) (left_cmd str_float cfg ply_path p)).1 in
  let code_r := (brush (S (S n)) (right_cmd str_float cfg ply_path p)).1 in
  let ev_l := EvRun ply_path (Py.stem ply_path ++ "_left.png")
                (left_cmd str_float cfg ply_path p) in
  let ev_r := EvRun ply_path (Py.stem ply_path ++ "_right.png")
                (right_cmd str_float cfg ply_path p) in
  let res := Spatial.render_stereo_from_ply parse_ply_metadata str_float brush
               ply_dir stereo_dir ply_path brush_bin w in
  (code_l ≠ 0 ->
   res.1 = Raise (RuntimeError ("brush-render failed for " ++ ply_path ++ " (left)"))
   ∧ tr res.2 = (tr w ++ [EvResolve ply_path; ev_l])%list)
  ∧ (code_l = 0 ->
     tr res.2 = (tr w ++ [EvResolve ply_path; ev_l; ev_r])%list
     ∧ (code_r ≠ 0 ->
        res.1 = Raise (RuntimeError ("brush-render failed for " ++ ply_path ++ " (right)")))
     ∧ (code_r = 0 -> res.1 = Ok tt)).
Proof.
  intros Hp. cbv zeta. rewrite orchestrators_agree.
  rewrite (WatcherFacts.render_stereo_from_ply_eval _ _ _ _ _ _ w Hp). cbv zeta.
  destruct (Z.eqb_spec
              (brush (S (length (tr w)))
                 (left_cmd str_float (as_config ply_dir stereo_dir brush_bin)
                    ply_path p)).1 0) as [El|El]; cbn [negb].
  - split; [intros H; contradiction|]. intros _.
    destruct (Z.eqb_spec
                (brush (S (S (length (tr w))))
                   (right_cmd str_float (as_config ply_dir stereo_dir brush_bin)
                      ply_path p)).1 0) as [Er|Er]; cbn [negb fst snd tr];
      (split; [reflexivity|]); split; intros H; try reflexivity; contradiction.
  - split; [intros _; split; reflexivity|]. intros H; contradiction.
Qed.

Lemma ply_index_agrees name : Spatial.ply_index name = Watcher.ply_index name.
Proof. reflexivity. Qed.

Lemma render_all_effect files brush_bin : ∀ w r w',
  render_all parse_ply_metadata str_float brush ply_dir stereo_dir files
    brush_bin w = (r, w') ->
  inp w' = inp w
  ∧ ∃ evs, tr w' = (tr w ++ evs)%list
      ∧ yielded evs `prefix_of` files
      ∧ (r = Ok tt -> yielded evs = files)
      ∧ (∀ e, r = Raise e ->
           ∃ before ply after w1,
             files = (before ++ ply :: after)%list
             ∧ yielded evs = (before ++ [ply])%list
             ∧ render_all parse_ply_metadata str_float brush ply_dir
                 stereo_dir before brush_bin w = (Ok tt, w1)
             ∧ Spatial.render_stereo_from_ply parse_ply_metadata str_float
                 brush ply_dir stereo_dir ply brush_bin w1 = (Raise e, w')).
Proof.
  induction files as [|ply rest IH]; intros w r w'.
  - intros [= <- <-]. split; [reflexivity|]. exists [].
    rewrite app_nil_r. repeat split; try discriminate. reflexivity.
  - cbn [render_all]. unfold bind at 1.
    pose proof (WatcherFacts.render_stereo_from_ply_effect parse_ply_metadata
                  str_float brush (as_config ply_dir stereo_dir brush_bin)
                  ply w) as H.
    cbv zeta in H. rewrite <- orchestrators_agree in H.
    destruct (Spatial.render_stereo_from_ply _ _ _ _ _ ply brush_bin w)
      as [[[]|e] w1] eqn:E1;
      cbn [fst snd] in H; destruct H as (evs1 & T1 & _ & Y1 & I1 & _).
    + intros E. apply IH in E as (I2 & evs2 & T2 & P2 & A2 & R2).
      split; [congruence|]. exists (evs1 ++ evs2)%list.
      split; [rewrite T2, T1, app_assoc; reflexivity|].
      unfold yielded in *. rewrite omap_app, Y1. cbn [app].
      repeat split.
      * apply prefix_cons, P2.
      * intros Hr. rewrite (A2 Hr). reflexivity.
      * intros e He.
        destruct (R2 e He) as (before & f & after & w2 & -> & Hy & Hb & Hf).
        exists (ply :: before), f, after, w2. rewrite Hy.
        repeat split; [|exact Hf].
        cbn [render_all]. unfold bind at 1. rewrite E1. exact Hb.
    + intros [= <- <-]. split; [exact I1|]. exists evs1.
      split; [exact T1|]. rewrite Y1. repeat split; try discriminate.
      * exists rest. reflexivity.
      * intros e' [= <-]. exists [], ply, rest, w. auto.
Qed.

(** X29: the render stage goes through the [.ply] files in the order of their
    frame numbers and stops at the first frame whose orchestrator raises:
    the frames before it have been rendered, the exception is the one of
    that frame, and the frames after it are not looked at. When it goes on
    to the encoding without having been told to keep the existing images,
    every file of the directory has been rendered; told to keep them, it
    renders nothing. *)
Theorem render_stage_renders_every_frame use_existing_stereo w r w' :
  render_stage parse_ply_metadata str_float brush local_bin which
    ply_dir stereo_dir use_existing_stereo w = (r, w') ->
  let listing :=
    Watcher.sorted_by Spatial.ply_index (Watcher.glob_ply (inp w)) in
  listing ≡ₚ Watcher.glob_ply (inp w)
  ∧ StronglySorted (key_le Spatial.ply_index) listing
  ∧ ∃ evs, tr w' = (tr w ++ evs)%list
      ∧ inp w' = inp w
      ∧ yielded evs `prefix_of` listing
      ∧ (use_existing_stereo = true -> evs = [])
      ∧ (r = Ok Encoding -> use_existing_stereo = false ->
         yielded evs = listing)
      ∧ (∀ e, r = Raise e ->
           ∃ before ply after w1,
             listing = (before ++ ply :: after)%list
             ∧ yielded evs = (before ++ [ply])%list
             ∧ render_all parse_ply_metadata str_float brush ply_dir
                 stereo_dir before (resolve_brush_bin local_bin) w
               = (Ok tt, w1)
             ∧ Spatial.render_stereo_from_ply parse_ply_metadata str_float
                 brush ply_dir stereo_dir ply (resolve_brush_bin local_bin) w1
               = (Raise e, w')).
Proof.
  intros H listing.
  split; [apply WatcherFacts.sorted_by_perm|].
  split; [apply WatcherFacts.sorted_by_sorted|].
  revert H. subst listing. unfold render_stage.
  assert (Hnone : ∀ st files,
    (st = Returned 1 ∨ use_existing_stereo = true) ->
    ∃ evs, tr w = (tr w ++ evs)%list ∧ inp w = inp w
      ∧ yielded evs `prefix_of` files
      ∧ (use_existing_stereo = true -> evs = [])
      ∧ (Ok st = Ok Encoding -> use_existing_stereo = false ->
         yielded evs = files)
      ∧ (∀ e, Ok st = Raise e ->
           ∃ before ply after w1,
             files = (before ++ ply :: after)%list
             ∧ yielded evs = (before ++ [ply])%list
             ∧ render_all parse_ply_metadata str_float brush ply_dir
                 stereo_dir before (resolve_brush_bin local_bin) w
               = (Ok tt, w1)
             ∧ Spatial.render_stereo_from_ply parse_ply_metadata str_float
                 brush ply_dir stereo_dir ply (resolve_brush_bin local_bin) w1
               = (Raise e, w))).
  { intros st files Hst. exists []. rewrite app_nil_r.
    split; [reflexivity|]. split; [reflexivity|].
    split; [apply prefix_nil|]. split; [reflexivity|].
    split; [|discriminate].
    intros [= ->] Hu. destruct Hst as [Hst|Hst]; [discriminate Hst|congruence]. }
  destruct (which _); cbn [negb].
  2: { intros [= <- <-]. apply Hnone. auto. }
  destruct (Watcher.sorted_by Spatial.ply_index (Watcher.glob_ply (inp w)))
    as [|f files] eqn:E.
  { intros [= <- <-]. apply Hnone. auto. }
  destruct use_existing_stereo.
  { intros [= <- <-]. apply Hnone. auto. }
  unfold bind at 1.
  destruct (render_all _ _ _ _ _ _ _ w) as [[[]|e] w1] eqn:Er;
    apply render_all_effect in Er as (I1 & evs & T1 & P1 & A1 & R1);
    intros [= <- <-]; exists evs;
    (split; [exact T1|]); (split; [exact I1|]); (split; [exact P1|]).
  - repeat split; try discriminate. intros _ _. exact (A1 eq_refl).
  - repeat split; try discriminate. intros e' [= <-]. exact (R1 e eq_refl).
Qed.

End WithEnvironment.

Lemma spatial_orchestrator_fail_fast_witness :
  let res :=
    Spatial.render_stereo_from_ply no_metadata sample_str_float
      (brush_fails_at 2) "ply" "stereo_frames" "frame_000000.ply"
      "brush-render" (Watcher.boot [("frame_000000.ply", 100)] []) in
  res.1 = Raise (RuntimeError "brush-render failed for frame_000000.ply (right)")
  ∧ length (tr res.2) = 3%nat.
Proof.
  intros res.
  destruct (proj2 (spatial_orchestrator_fail_fast no_metadata sample_str_float
                     (brush_fails_at 2) "ply" "stereo_frames"
                     "frame_000000.ply" "brush-render" sample_params
                     (Watcher.boot [("frame_000000.ply", 100)] []) eq_refl))
    as (H1 & H2 & _).
  - reflexivity.
  - split; [apply H2; discriminate|]. fold res in H1. rewrite H1. reflexivity.
Defined.

Lemma render_stage_renders_every_frame_witness :
  let w := Watcher.boot [("frame_10.ply", 100); ("frame_9.ply", 100)] [] in
  let listing := ["frame_9.ply"; "frame_10.ply"] in
  let res :=
    render_stage no_metadata sample_str_float (brush_fails_at 4) None on_path
      "ply" "stereo_frames" false w in
  res.1 = Raise (RuntimeError "brush-render failed for frame_10.ply (left)")
  ∧ out res.2 = ["frame_9_left.png"; "frame_9_right.png"]
  ∧ ∃ evs, tr res.2 = ([] ++ evs)%list
      ∧ inp res.2 = inp w
      ∧ yielded evs `prefix_of` listing
      ∧ (false = true -> evs = [])
      ∧ (res.1 = Ok Encoding -> false = false -> yielded evs = listing)
      ∧ (∀ e, res.1 = Raise e ->
           ∃ before ply after w1,
             listing = (before ++ ply :: after)%list
             ∧ yielded evs = (before ++ [ply])%list
             ∧ render_all no_metadata sample_str_float (brush_fails_at 4)
                 "ply" "stereo_frames" before "brush-render" w
               = (Ok tt, w1)
             ∧ Spatial.render_stereo_from_ply no_metadata sample_str_float
                 (brush_fails_at 4) "ply" "stereo_frames" ply "brush-render"
                 w1
               = (Raise e, res.2)).
Proof.
  intros w listing res.
  split; [vm_compute; reflexivity|]. split; [vm_compute; reflexivity|].
  exact (proj2 (proj2
    (render_stage_renders_every_frame no_metadata sample_str_float
       (brush_fails_at 4) None on_path "ply" "stereo_frames" false w
       res.1 res.2 (surjective_pairing res)))).
Defined.

End SpatialFacts.

(** * Facts about the frame extraction of video_to_splats.py *)

Module SplatsFacts.
Import Splats Layout.

Section Extract.

Context {A : Type}.
Variable interval : Z.
Variable max_frames : option Z.
Hypothesis interval_positive : 0 < interval.

Lemma on_the_grid fc e :
  fc mod interval = 0 -> 0 ≤ e * interval - fc < interval -> fc = e * interval.
Proof.
  intros Hm He. pose proof (Z.div_mod fc interval ltac:(lia)) as E.
  rewrite Hm, Z.add_0_r in E. generalize dependent (fc / interval).
  intros q E. subst fc. assert (e - q = 0) by nia. nia.
Qed.

Lemma off_the_grid fc e :
  fc mod interval ≠ 0 -> 0 ≤ e * interval - fc < interval ->
  0 < e * interval - fc.
Proof.
  intros Hm He. destruct (decide (e * interval - fc = 0)) as [E|]; [|lia].
  exfalso. apply Hm. replace fc with (e * interval) by lia.
  apply Z.mod_mul. lia.
Qed.

Lemma ceiling fc e :
  0 ≤ e * interval - fc < interval -> (fc + interval - 1) / interval = e.
Proof.
  intros He. symmetry.
  apply (Z.div_unique _ _ _ (interval - 1 - (e * interval - fc))); lia.
Qed.

Lemma extract_loop_spec rest : ∀ fc ec (acc : list (string * A)),
  0 ≤ fc ->
  0 ≤ ec * interval - fc < interval ->
  (∀ m, max_frames = Some m -> ec < Z.max 1 m) ->
  ∃ saved,
    extract_loop interval max_frames rest fc ec acc = Some (acc ++ saved)%list
    ∧ (∀ k, (k < length saved)%nat ->
         ∃ frame,
           saved !! k
           = Some ("frame_" ++ Py.format_06d (ec + Z.of_nat k) ++ ".png", frame)
           ∧ rest !! Z.to_nat ((ec + Z.of_nat k) * interval - fc) = Some frame)
    ∧ Z.of_nat (length saved)
      = kept (fc + Z.of_nat (length rest)) interval max_frames - ec.
Proof.
  induction rest as [|frame rest IH]; intros fc ec acc Hfc0 He Hcap.
  - exists []. rewrite app_nil_r. split; [reflexivity|].
    split; [intros k Hk; cbn in Hk; lia|].
    unfold kept. cbn [length]. rewrite Z.add_0_r, (ceiling fc ec He).
    destruct max_frames as [m|]; [|lia]. specialize (Hcap m eq_refl). lia.
  - cbn [extract_loop].
    destruct (Z.eqb_spec interval 0) as [?|_]; [lia|].
    assert (Hlen : fc + Z.of_nat (length (frame :: rest))
                   = fc + 1 + Z.of_nat (length rest))
      by (cbn [length]; lia).
    rewrite Hlen.
    destruct (Z.eqb_spec (fc mod interval) 0) as [Hm|Hm].
    + pose proof (on_the_grid fc ec Hm He) as Hfc.
      destruct (match max_frames with
                | Some m => m <=? ec + 1
                | None => false
                end) eqn:Hstop.
      * exists [("frame_" ++ Py.format_06d ec ++ ".png", frame)].
        split; [reflexivity|]. split.
        { intros [|k] Hk; [|cbn in Hk; lia]. exists frame.
          rewrite Z.add_0_r. replace (ec * interval - fc) with 0 by lia.
          split; reflexivity. }
        destruct max_frames as [m|]; [|discriminate Hstop].
        apply Z.leb_le in Hstop. specialize (Hcap m eq_refl).
        unfold kept. cbn [length].
        assert (ec + 1 ≤ (fc + 1 + Z.of_nat (length rest) + interval - 1)
                         / interval)
          by (apply Z.div_le_lower_bound; nia).
        assert (0 ≤ ec) by nia. lia.
      * set (entry := ("frame_" ++ Py.format_06d ec ++ ".png", frame)).
        destruct (IH (fc + 1) (ec + 1) (acc ++ [entry])%list)
          as (saved & E & Hk & Hn).
        { lia. }
        { nia. }
        { intros m Hmax. rewrite Hmax in Hstop. apply Z.leb_gt in Hstop. lia. }
        exists (entry :: saved).
        split; [rewrite E, <- app_assoc; reflexivity|]. split.
        { intros [|k] Hlt.
          - exists frame. rewrite Z.add_0_r.
            replace (ec * interval - fc) with 0 by lia. split; reflexivity.
          - destruct (Hk k ltac:(cbn in Hlt; lia)) as (f & H1 & H2).
            exists f. cbn [lookup list_lookup].
            replace (ec + Z.of_nat (S k)) with (ec + 1 + Z.of_nat k) by lia.
            split; [exact H1|].
            replace (Z.to_nat ((ec + 1 + Z.of_nat k) * interval - fc))
              with (S (Z.to_nat ((ec + 1 + Z.of_nat k) * interval - (fc + 1))))
              by nia.
            exact H2. }
        cbn [length]. lia.
    + pose proof (off_the_grid fc ec Hm He) as Hoff.
      destruct (IH (fc + 1) ec acc ltac:(lia) ltac:(lia) Hcap)
        as (saved & E & Hk & Hn).
      exists saved. split; [exact E|]. split; [|exact Hn].
      intros k Hlt. destruct (Hk k Hlt) as (f & H1 & H2). exists f.
      split; [exact H1|].
      replace (Z.to_nat ((ec + Z.of_nat k) * interval - fc))
        with (S (Z.to_nat ((ec + Z.of_nat k) * interval - (fc + 1))))
        by nia.
      exact H2.
Qed.

End Extract.

(** X30: [extract_frames] with a frame interval greater than zero keeps
    every [frame_interval]-th frame of the video, the first one included,
    and stops after [max_frames] of them (after one when [max_frames] is
    smaller than 1); the files are numbered from 0 without a gap, whatever
    the interval, so the k-th file holds the frame at position
    k * [frame_interval]. An interval of zero raises on the first frame. *)
Theorem extract_frames_keeps_every_nth {A : Type}
    (frame_interval : Z) (max_frames : option Z) (frames : list A) :
  (0 < frame_interval ->
   ∃ saved,
     extract_frames frame_interval max_frames frames = Some saved
     ∧ Z.of_nat (length saved)
       = kept (Z.of_nat (length frames)) frame_interval max_frames
     ∧ ∀ k, (k < length saved)%nat ->
         ∃ frame,
           saved !! k
           = Some ("frame_" ++ Py.format_06d (Z.of_nat k) ++ ".png", frame)
           ∧ frames !! (k * Z.to_nat frame_interval)%nat = Some frame)
  ∧ (frame_interval = 0 -> frames ≠ [] ->
     extract_frames frame_interval max_frames frames = None).
Proof.
  split.
  - intros Hi.
    destruct (extract_loop_spec frame_interval max_frames Hi frames 0 0 [])
      as (saved & E & Hk & Hn); [lia|lia|intros m _; lia|].
    exists saved. split; [exact E|].
    split; [rewrite Hn, Z.add_0_l, Z.sub_0_r; reflexivity|].
    intros k Hlt. destruct (Hk k Hlt) as (f & H1 & H2). exists f.
    split; [exact H1|].
    replace (k * Z.to_nat frame_interval)%nat
      with (Z.to_nat ((0 + Z.of_nat k) * frame_interval - 0)) by nia.
    exact H2.
  - intros -> Hne. destruct frames; [contradiction|reflexivity].
Qed.

Lemma extract_frames_keeps_every_nth_witness :
  extract_frames 2 (Some 0) ["a"; "b"; "c"; "d"; "e"]
  = Some [("frame_000000.png", "a")]
  ∧ extract_frames 2 None ["a"; "b"; "c"; "d"; "e"]
    = Some [("frame_000000.png", "a"); ("frame_000001.png", "c");
            ("frame_000002.png", "e")]
  ∧ ∃ saved,
      extract_frames 2 (Some 2) ["a"; "b"; "c"; "d"; "e"] = Some saved
      ∧ Z.of_nat (length saved) = 2
      ∧ ∀ k, (k < length saved)%nat ->
          ∃ frame,
            saved !! k
            = Some ("frame_" ++ Py.format_06d (Z.of_nat k) ++ ".png", frame)
            ∧ ["a"; "b"; "c"; "d"; "e"] !! (k * 2)%nat = Some frame.
Proof.
  split; [reflexivity|]. split; [reflexivity|].
  apply (proj1 (extract_frames_keeps_every_nth 2 (Some 2)
                  ["a"; "b"; "c"; "d"; "e"])).
  lia.
Defined.

End SplatsFacts.

(** * Further facts about ply_to_stereo.py *)

Module WatcherMore.
Import Sys Render Watcher Spec Layout.

Lemma exists_in_create_same name names :
  exists_in (create name names) name = true.
Proof.
  unfold create. destruct (exists_in names name) eqn:E; [exact E|].
  unfold exists_in. rewrite existsb_app. cbn. rewrite String.eqb_refl.
  apply orb_true_r.
Qed.

Lemma exists_in_create_keep name other names :
  exists_in names name = true -> exists_in (create other names) name = true.
Proof.
  intros H. unfold create. destruct (exists_in names other); [exact H|].
  unfold exists_in in *. rewrite existsb_app, H. reflexivity.
Qed.

Lemma exists_in_elem names name : exists_in names name = true -> name ∈ names.
Proof.
  unfold exists_in. intros H. apply existsb_exists in H as (x & Hin & Hx).
  apply String.eqb_eq in Hx. subst x. apply list_elem_of_In, Hin.
Qed.

(** X15: the names of a frame and of its images are read back as the
    counter they were made from: for an integer [i], negative or not, of
    no more than 640 digits, which CPython converts whatever its limit on
    the length of numerals, the index of [frame_<i:06d>.ply] is [i], and
    the watcher reads [i] from the names of the two images the
    orchestrator writes for that file. *)
Theorem frame_names_round_trip i :
  Z.abs i < 10 ^ 640 ->
  ply_index (expected_name i) = i
  ∧ image_index "_left.png" "_left" (left_name (expected_name i)) = Some i
  ∧ image_index "_right.png" "_right" (right_name (expected_name i)) = Some i.
Proof.
  intros _. split; [apply WatcherFacts.ply_index_expected_name|].
  rewrite WatcherFacts.left_name_expected, WatcherFacts.right_name_expected.
  split; [apply WatcherFacts.image_index_left|apply WatcherFacts.image_index_right].
Qed.

(** ** Names in lexicographic order *)

Lemma uint_val_split d : ∀ acc,
  uint_val d acc = acc * 10 ^ Z.of_nat (Decimal.nb_digits d) + uint_val d 0
  ∧ 0 ≤ uint_val d 0 < 10 ^ Z.of_nat (Decimal.nb_digits d).
Proof.
  induction d as [|d IH|d IH|d IH|d IH|d IH|d IH|d IH|d IH|d IH|d IH];
    intros acc; [cbn; lia|..].
  all: cbn [uint_val Decimal.nb_digits];
    rewrite Nat2Z.inj_succ, Z.pow_succ_r by lia;
    match goal with
    | |- uint_val ?u ?a = _ ∧ _ ≤ uint_val ?u ?b < _ =>
        destruct (IH a) as [Ea _]; destruct (IH b) as [Eb B];
        rewrite Ea, Eb;
        generalize dependent (uint_val u 0);
        generalize (10 ^ Z.of_nat (Decimal.nb_digits u))
    end;
    intros; lia.
Qed.

Lemma nzhead_fixed d :
  Decimal.nzhead d = d -> d ≠ Decimal.Nil ->
  10 ^ (Z.of_nat (Decimal.nb_digits d) - 1) ≤ uint_val d 0.
Proof.
  intros H Hne.
  destruct d as [|d|d|d|d|d|d|d|d|d|d]; [contradiction|..].
  1: { exfalso. cbn [Decimal.nzhead] in H.
       pose proof (DecimalFacts.nb_digits_nzhead d) as Hl. rewrite H in Hl.
       cbn in Hl. lia. }
  all: cbn [uint_val Decimal.nb_digits];
    rewrite Nat2Z.inj_succ;
    match goal with
    | |- 10 ^ (Z.succ ?n - 1) ≤ uint_val ?u ?a =>
        replace (Z.succ n - 1) with n by lia;
        destruct (uint_val_split u a) as [-> ?];
        generalize dependent (uint_val u 0);
        generalize dependent (10 ^ n)
    end;
    intros; lia.
Qed.

Lemma length_string_of_uint d :
  String.length (NilEmpty.string_of_uint d) = Decimal.nb_digits d.
Proof. induction d; cbn; congruence. Qed.

Lemma length_digits n k :
  (0 < k)%nat -> Z.of_N n < 10 ^ Z.of_nat k ->
  (String.length (Py.digits n) ≤ k)%nat.
Proof.
  intros Hk Hn. unfold Py.digits. rewrite length_string_of_uint.
  pose proof (DecimalN.Unsigned.to_of (N.to_uint n)) as Hnorm.
  rewrite DecimalN.Unsigned.of_to in Hnorm.
  pose proof (PyFacts.uint_val_N (N.to_uint n)) as Hv.
  rewrite DecimalN.Unsigned.of_to in Hv.
  set (d := N.to_uint n) in *. unfold Decimal.unorm in Hnorm.
  destruct (Decimal.nzhead d) eqn:E;
    [rewrite Hnorm; cbn; lia|..];
    (assert (Hfix : Decimal.nzhead d = d) by congruence);
    (assert (Hne : d ≠ Decimal.Nil) by (rewrite Hnorm; discriminate));
    pose proof (nzhead_fixed d Hfix Hne) as Hlow;
    destruct (Nat.le_gt_cases (Decimal.nb_digits d) k) as [?|Hgt];
      try assumption;
    exfalso;
    (assert (10 ^ Z.of_nat k ≤ 10 ^ (Z.of_nat (Decimal.nb_digits d) - 1))
       by (apply Z.pow_le_mono_r; lia));
    lia.
Qed.

Lemma length_zeros k : String.length (Py.zeros k) = k.
Proof. induction k; cbn; congruence. Qed.

Lemma format_06d_digits i :
  0 ≤ i < 10 ^ 6 ->
  String.length (Py.format_06d i) = 6%nat
  ∧ all_digits (Py.format_06d i) = true
  ∧ dec_val 0 (Py.format_06d i) = i.
Proof.
  intros Hi. unfold Py.format_06d.
  destruct (Z.ltb_spec i 0) as [?|_]; [lia|].
  destruct (PyFacts.padded_digits 5 (Z.to_N i)) as (Ha & _ & Hv).
  assert (Hl : (String.length (Py.digits (Z.to_N i)) ≤ 6)%nat)
    by (apply length_digits; [lia|rewrite Z2N.id by lia; apply Hi]).
  split; [|split; [exact Ha|]].
  - rewrite PyFacts.length_append, length_zeros. lia.
  - assert (Hd : ∀ s acc, all_digits s = true ->
                  Py.digits_val acc false s = Some (dec_val acc s)).
    { induction s as [|c s IH]; intros acc H; [reflexivity|].
      cbn [all_digits] in H. apply andb_true_iff in H as [Hc Hs].
      cbn [Py.digits_val dec_val]. rewrite Hc. apply IH, Hs. }
    rewrite (Hd _ 0 Ha) in Hv. injection Hv as ->. lia.
Qed.

Lemma digit_val_spec c :
  Py.is_digit c = true ->
  Py.digit_val c = Z.of_N (N_of_ascii c) - 48 ∧ 0 ≤ Py.digit_val c ≤ 9.
Proof.
  unfold Py.is_digit, Py.digit_val, nat_of_ascii. cbv zeta. intros H.
  apply andb_true_iff in H as [H1 H2].
  apply Nat.leb_le in H1, H2. lia.
Qed.

Lemma dec_val_lt s : ∀ t a b,
  all_digits s = true -> all_digits t = true ->
  String.length s = String.length t -> a < b ->
  dec_val a s < dec_val b t.
Proof.
  induction s as [|c s IH]; intros [|c' t] a b Hs Ht Hl Hab;
    try discriminate Hl; [exact Hab|].
  cbn [all_digits] in Hs, Ht.
  apply andb_true_iff in Hs as [Hc Hs]. apply andb_true_iff in Ht as [Hc' Ht].
  destruct (digit_val_spec _ Hc) as [_ ?], (digit_val_spec _ Hc') as [_ ?].
  cbn [dec_val]. apply IH; try assumption; [|lia].
  cbn in Hl. congruence.
Qed.

Lemma dec_val_compare s : ∀ t a,
  all_digits s = true -> all_digits t = true ->
  String.length s = String.length t ->
  String.compare s t = (dec_val a s ?= dec_val a t).
Proof.
  induction s as [|c s IH]; intros [|c' t] a Hs Ht Hl;
    try discriminate Hl; [cbn; rewrite Z.compare_refl; reflexivity|].
  cbn [all_digits] in Hs, Ht.
  apply andb_true_iff in Hs as [Hc Hs]. apply andb_true_iff in Ht as [Hc' Ht].
  destruct (digit_val_spec _ Hc) as [E ?], (digit_val_spec _ Hc') as [E' ?].
  assert (Hl' : String.length s = String.length t) by (cbn in Hl; congruence).
  cbn [String.compare dec_val]. unfold Ascii.compare.
  destruct (N.compare_spec (N_of_ascii c) (N_of_ascii c')) as [He|Hlt|Hgt].
  - rewrite E, E', He. apply IH; assumption.
  - symmetry. apply Z.compare_lt_iff. apply dec_val_lt; try assumption. lia.
  - symmetry. apply Z.compare_gt_iff. apply dec_val_lt; try assumption;
      [congruence|lia].
Qed.

Lemma compare_same s : String.compare s s = Eq.
Proof.
  induction s as [|c s IH]; [reflexivity|]. cbn [String.compare].
  unfold Ascii.compare. rewrite N.compare_refl. exact IH.
Qed.

Lemma compare_prefix p a b :
  String.compare (p ++ a) (p ++ b) = String.compare a b.
Proof.
  induction p as [|c p IH]; [reflexivity|].
  rewrite !PyFacts.append_cons. cbn [String.compare].
  unfold Ascii.compare. rewrite N.compare_refl. exact IH.
Qed.

Lemma compare_suffix a : ∀ b x,
  String.length a = String.length b ->
  String.compare (a ++ x) (b ++ x)
  = String.compare a b.
Proof.
  induction a as [|c a IH]; intros [|c' b] x Hl; try discriminate Hl.
  - apply compare_same.
  - rewrite !PyFacts.append_cons. cbn [String.compare].
    destruct (Ascii.compare c c'); try reflexivity.
    apply IH. cbn in Hl. congruence.
Qed.

Lemma compare_expected_name i j :
  0 ≤ i < 10 ^ 6 -> 0 ≤ j < 10 ^ 6 ->
  String.compare (expected_name i) (expected_name j) = (i ?= j).
Proof.
  intros Hi Hj. unfold expected_name.
  destruct (format_06d_digits i Hi) as (Li & Ai & Vi).
  destruct (format_06d_digits j Hj) as (Lj & Aj & Vj).
  rewrite compare_prefix, compare_suffix by congruence.
  rewrite (dec_val_compare _ _ 0 Ai Aj) by congruence.
  rewrite Vi, Vj. reflexivity.
Qed.

(** X16: for frame numbers below one million the lexicographic order of the
    names [frame_<i:06d>.ply] is the order of the numbers, so a directory
    listing sorted by name is in frame order; from one million on it is
    not: [frame_1000000.ply] sorts before [frame_999999.ply]. *)
Theorem frame_names_sort_numerically :
  (∀ i j, 0 ≤ i < 10 ^ 6 -> 0 ≤ j < 10 ^ 6 ->
          (String.leb (expected_name i) (expected_name j) = true ↔ i ≤ j))
  ∧ String.leb (expected_name 1000000) (expected_name 999999) = true.
Proof.
  split; [|vm_compute; reflexivity].
  intros i j Hi Hj. unfold String.leb.
  rewrite (compare_expected_name i j Hi Hj).
  destruct (Z.compare_spec i j); split; intros; try lia; try reflexivity;
    discriminate.
Qed.

Lemma frame_names_sort_numerically_witness :
  String.leb (expected_name 9) (expected_name 10) = true ↔ 9 ≤ 10.
Proof.
  apply (proj1 frame_names_sort_numerically 9 10); lia.
Defined.

Section Listing.

Context {A : Type} (key : A -> Z).

Lemma sorted_unique (l1 l2 : list A) :
  l1 ≡ₚ l2 -> NoDup (key <$> l1) ->
  StronglySorted (key_le key) l1 -> StronglySorted (key_le key) l2 ->
  l1 = l2.
Proof.
  revert l2. induction l1 as [|x l1 IH]; intros l2 Hp Hnd H1 H2.
  - apply Permutation_nil in Hp. congruence.
  - destruct l2 as [|y l2]; [symmetry in Hp; apply Permutation_nil_cons in Hp; contradiction|].
    apply StronglySorted_inv in H1 as [H1 Hx].
    apply StronglySorted_inv in H2 as [H2 Hy].
    cbn [fmap list_fmap] in Hnd. apply NoDup_cons in Hnd as [Hnx Hnd].
    assert (x = y) as <-.
    { assert (Hy_in : y ∈ x :: l1) by (rewrite Hp; left).
      assert (Hx_in : x ∈ y :: l2) by (rewrite <- Hp; left).
      apply elem_of_cons in Hy_in as [->|Hy_in]; [reflexivity|].
      apply elem_of_cons in Hx_in as [->|Hx_in]; [reflexivity|].
      rewrite Forall_forall in Hx, Hy.
      pose proof (Hx y Hy_in) as Hxy. pose proof (Hy x Hx_in) as Hyx.
      unfold key_le in *. exfalso. apply Hnx.
      replace (key x) with (key y) by lia.
      apply list_elem_of_fmap. eauto. }
    f_equal. apply IH; try assumption.
    apply (Permutation_cons_inv Hp).
Qed.

End Listing.

(** X17: the listing of a poll cycle does not depend on the order in which
    the directory is enumerated, as long as no two of its [.ply] files
    have the same frame number. *)
Theorem listing_ignores_enumeration_order (entries1 entries2 : list (string * Z)) :
  entries1 ≡ₚ entries2 ->
  NoDup (ply_index <$> glob_ply entries1) ->
  sorted_by ply_index (glob_ply entries1) = sorted_by ply_index (glob_ply entries2).
Proof.
  intros Hp Hnd.
  assert (Hg : glob_ply entries1 ≡ₚ glob_ply entries2)
    by (unfold glob_ply; rewrite Hp; reflexivity).
  apply (sorted_unique ply_index).
  - rewrite !WatcherFacts.sorted_by_perm. exact Hg.
  - rewrite WatcherFacts.sorted_by_perm. exact Hnd.
  - apply WatcherFacts.sorted_by_sorted.
  - apply WatcherFacts.sorted_by_sorted.
Qed.

Lemma listing_ignores_enumeration_order_witness :
  sorted_by ply_index
    (glob_ply [("frame_10.ply", 100); ("notes.txt", 5); ("frame_9.ply", 100)])
  = sorted_by ply_index
      (glob_ply [("frame_9.ply", 100); ("frame_10.ply", 100); ("notes.txt", 5)]).
Proof.
  apply listing_ignores_enumeration_order.
  - apply Permutation_sym.
    exact (Permutation_cons_append [("frame_10.ply", 100); ("notes.txt", 5)]
             ("frame_9.ply", 100)).
  - apply (bool_decide_unpack _). vm_compute. exact I.
Defined.

Section WithEnvironment.

Variable parse_ply_metadata : string -> option mat3 * option (Z * Z).
Variable str_float : float -> string.
Variable brush : nat -> list string -> Z * bool.
Variable cfg : config.

Lemma render_leaves_images ply_path w w' :
  (∀ k cmd, (brush k cmd).1 = 0 -> (brush k cmd).2 = true) ->
  render_stereo_from_ply parse_ply_metadata str_float brush cfg ply_path w
  = (Ok tt, w') ->
  done (out w') ply_path = true.
Proof.
  intros Hwrites.
  destruct (resolve_render_params parse_ply_metadata ply_path RenderArgs_init)
    as [p|e] eqn:Hp.
  2: { unfold render_stereo_from_ply, bind, emit, raise. rewrite Hp.
       discriminate. }
  rewrite (WatcherFacts.render_stereo_from_ply_eval _ _ _ _ _ _ w Hp). cbv zeta.
  destruct (Z.eqb_spec (brush (S (length (tr w)))
                          (left_cmd str_float cfg ply_path p)).1 0)
    as [El|El]; cbn [negb]; [|discriminate].
  destruct (Z.eqb_spec (brush (S (S (length (tr w))))
                          (right_cmd str_float cfg ply_path p)).1 0)
    as [Er|Er]; cbn [negb]; [|discriminate].
  intros [= <-]. cbn [out]. unfold wrote, done.
  rewrite (Hwrites _ _ El), (Hwrites _ _ Er).
  rewrite exists_in_create_same.
  rewrite exists_in_create_keep by apply exists_in_create_same.
  reflexivity.
Qed.

(** X18: a frame that a pass has rendered is done: both its images exist,
    provided a renderer that exits with 0 has written its image; the next
    pass over the same file then does nothing. *)
Theorem rendered_frame_is_skipped_next ply_path w w' :
  (∀ k cmd, (brush k cmd).1 = 0 -> (brush k cmd).2 = true) ->
  process_frame parse_ply_metadata str_float brush cfg ply_path w
  = (Ok true, w') ->
  done (out w') ply_path = true
  ∧ process_frame parse_ply_metadata str_float brush cfg ply_path w'
    = (Ok false, w').
Proof.
  intros Hwrites H.
  assert (Hd : done (out w') ply_path = true).
  { revert H. unfold process_frame. unfold bind at 1.
    rewrite WatcherFacts.should_process_eval.
    destruct (done (out w) ply_path); cbn [negb]; [discriminate|].
    unfold bind at 1.
    destruct ((if watch cfg then is_stable ply_path else ret true) w)
      as [[[|]|e] w1]; cbn [negb]; try discriminate.
    unfold bind at 1.
    destruct (render_stereo_from_ply _ _ _ _ ply_path w1) as [[[]|e] w2] eqn:Er;
      [|discriminate].
    apply (render_leaves_images _ _ _ Hwrites) in Er.
    unfold bind, ret, unlink, processed_add.
    destruct (keep_temp cfg); intros [= <-]; exact Er. }
  split; [exact Hd|].
  unfold process_frame. unfold bind at 1.
  rewrite WatcherFacts.should_process_eval, Hd. reflexivity.
Qed.

(** X19: after the orchestrator has rendered the frame of index [i], an
    integer of no more than 640 digits, the counter a restart under
    [--sequential] computes from the output directory lies past [i],
    provided a renderer that exits with 0 has written its image. *)
Theorem restart_counter_past_rendered_frame i w w' :
  Z.abs i < 10 ^ 640 ->
  (∀ k cmd, (brush k cmd).1 = 0 -> (brush k cmd).2 = true) ->
  render_stereo_from_ply parse_ply_metadata str_float brush cfg
    (expected_name i) w = (Ok tt, w') ->
  ∃ n, next_expected_index w' = (Ok n, w') ∧ i < n.
Proof.
  intros _ Hwrites H. apply (render_leaves_images _ _ _ Hwrites) in H.
  unfold done in H. apply andb_true_iff in H as [Hl _].
  apply exists_in_elem in Hl.
  assert (Hi : is_image_of (left_name (expected_name i)) i).
  { left. rewrite WatcherFacts.left_name_expected.
    apply WatcherFacts.image_index_left. }
  destruct (WatcherFacts.next_expected_index_highest w')
    as (n & E & [[_ Hno]|[_ Hall]]).
  - exfalso. exact (Hno _ _ Hl Hi).
  - exists n. split; [exact E|]. exact (Hall _ _ Hl Hi).
Qed.


End WithEnvironment.

Lemma rendered_frame_is_skipped_next_witness :
  let w := boot [("frame_000000.ply", 100)] [] in
  let res := process_frame no_metadata sample_str_float brush_succeeds
               (sample_cfg false false) "frame_000000.ply" w in
  done (out res.2) "frame_000000.ply" = true
  ∧ process_frame no_metadata sample_str_float brush_succeeds
      (sample_cfg false false) "frame_000000.ply" res.2 = (Ok false, res.2).
Proof.
  intros w res.
  apply (rendered_frame_is_skipped_next no_metadata sample_str_float
           brush_succeeds (sample_cfg false false) "frame_000000.ply" w res.2).
  - intros k cmd _. reflexivity.
  - vm_compute. reflexivity.
Defined.

Lemma frame_names_round_trip_witness :
  ply_index (expected_name 41) = 41
  ∧ image_index "_left.png" "_left" (left_name (expected_name 41)) = Some 41
  ∧ image_index "_right.png" "_right" (right_name (expected_name 41))
    = Some 41.
Proof.
  apply (frame_names_round_trip 41). vm_compute. reflexivity.
Defined.

Lemma restart_counter_past_rendered_frame_witness :
  let w := boot [("frame_000000.ply", 100)] [] in
  let res := render_stereo_from_ply no_metadata sample_str_float brush_succeeds
               (sample_cfg false false) (expected_name 0) w in
  ∃ n, next_expected_index res.2 = (Ok n, res.2) ∧ 0 < n.
Proof.
  intros w res.
  apply (restart_counter_past_rendered_frame no_metadata sample_str_float
           brush_succeeds (sample_cfg false false) 0 w res.2).
  - vm_compute. reflexivity.
  - intros k cmd _. reflexivity.
  - vm_compute. reflexivity.
Defined.


Lemma orchestrator_invocations_carry_projection_witness :
  let w := boot [("frame_000000.ply", 100)] [] in
  let res := render_stereo_from_ply no_metadata sample_str_float brush_succeeds
               (sample_cfg false false) "frame_000000.ply" w in
  ∃ evs, tr res.2 = ([] ++ evs)%list
    ∧ Forall (fun e =>
                match e with
                | EvRun _ _ cmd =>
                    ∃ v, carries cmd "--fov-x" (sample_str_float v)
                         ∨ carries cmd "--focal-x" (sample_str_float v)
                | _ => True
                end) evs.
Proof.
  intros w res.
  exact (WatcherFacts.orchestrator_invocations_carry_projection no_metadata
           sample_str_float brush_succeeds (sample_cfg false false)
           "frame_000000.ply" w res.1 res.2 (surjective_pairing res)).
Defined.

Lemma sequential_watch_never_renders_witness :
  ∃ next w',
    main no_metadata sample_str_float brush_succeeds idle_producer
      (sample_cfg true true) 5 (boot [("frame_000000.ply", 100)] [])
    = (Ok (Watching next), w')
    ∧ Forall (fun e => e = EvSleep) (tr w')
    ∧ out w' = [].
Proof.
  exact (WatcherFacts.sequential_watch_never_renders no_metadata
           sample_str_float brush_succeeds idle_producer (sample_cfg true true)
           5 [("frame_000000.ply", 100)] [] eq_refl eq_refl eq_refl).
Defined.

End WatcherMore.

(** * Facts about ply_to_stereo.py from its first line *)

Module EntryFacts.
Import Sys Render Watcher Spec Entry Layout.



End EntryFacts.
